(** * JSONLiveLink: the per-datagram decoder of [FJSONLiveLinkSource]

    A shallow embedding of [FJSONLiveLinkSource::HandleReceivedData]
    (Source/JSONLiveLink/Private/JSONLiveLinkSource.cpp) and the properties
    of it that the specification states; then the rest of the file (the
    constructor and destructor, the receiver thread's [Run], and the small
    member functions around them) with properties read off the code.

    The function is written against three libraries that are not part of
    the plugin: the engine's core types ([FString], [FName], [TArray],
    [FVector], ...), the engine's Json module and the C math library.
    What the function needs of them is collected in the class [UnrealApi];
    the function itself is transcribed statement by statement.

    - [double] is IEEE 754 binary64 (Rocq's primitive floats), [float] is
      binary32; [atan2] and [asin] are parameters.
    - A parsed Json tree holds valid pointers; the pointer [AsObject] hands
      back is the one the function dereferences without a check, so it is
      a [TSharedPtr] that may be null.
    - The calls on [Client] and the insertion into [EncounteredSubjects]
      are recorded, in order, as a list of effects. *)

From Stdlib Require Import ZArith List String Ascii Floats SpecFloat Lia.
From Stdlib Require Import DecimalString.
From Stdlib Require Zbitwise.
From Stdlib.Strings Require Import Byte.
From stdpp Require Import base tactics option list.

Local Open Scope Z_scope.

(* ================================================================== *)
(** ** Control flow of the function body

    A statement of [HandleReceivedData] either runs to its end, executes
    one of the [return;] statements, or dereferences a null [TSharedPtr]
    / indexes a [TArray] out of range (which stops the program). *)

Inductive Flow (A : Type) : Type :=
| Normal (a : A)
| EarlyReturn
| Fault.
Arguments Normal {A} a.
Arguments EarlyReturn {A}.
Arguments Fault {A}.

#[global] Instance Flow_ret : MRet Flow := fun A a => Normal a.
#[global] Instance Flow_bind : MBind Flow := fun A B f m =>
  match m with
  | Normal a => f a
  | EarlyReturn => EarlyReturn
  | Fault => Fault
  end.

#[global] Instance Flow_fmap : FMap Flow := fun A B f m =>
  match m with
  | Normal a => Normal (f a)
  | EarlyReturn => EarlyReturn
  | Fault => Fault
  end.

Definition is_Normal {A} (m : Flow A) : bool :=
  match m with Normal _ => true | _ => false end.

(** [for (int i = start; i < start + count; ++i) body] over a state [S]. *)
Fixpoint for_loop {S : Type} (body : nat -> S -> Flow S)
    (i count : nat) (s : S) : Flow S :=
  match count with
  | O => Normal s
  | Datatypes.S count' => s' ← body i s; for_loop body (Datatypes.S i) count' s'
  end.

(* ================================================================== *)
(** ** Core types *)

(** [TCHAR]: a 16 bit code unit. *)
Abbreviation TCHAR := Z.

(** [FString]: the characters before the terminator. *)
Abbreviation FString := (list TCHAR).

(** [TCHAR(Byte)] for a [uint8]: the value is kept (zero extension). *)
Definition TCHAR_of_uint8 (b : byte) : TCHAR := Z.of_N (Byte.to_N b).

(** [FString::operator+=(TCHAR)] is [AppendChar], which leaves the string
    as it is when the character is the terminator 0. *)
Definition AppendChar (s : FString) (c : TCHAR) : FString :=
  if c =? 0 then s else s ++ [c].

(** [TEXT("...")] for an ASCII literal. *)
Definition TEXT (lit : string) : FString :=
  map (fun a => Z.of_N (N_of_ascii a)) (list_ascii_of_string lit).
Arguments TEXT lit%_string.

(** [TSharedPtr<T>]: null or a valid object. *)
Abbreviation TSharedPtr T := (option T).

(** [operator->] on a [TSharedPtr]. *)
Definition deref {T} (p : TSharedPtr T) : Flow T :=
  match p with Some x => Normal x | None => Fault end.

(** A [TArray<T>] that was sized with [SetNumUninitialized]: a slot is
    [None] until it is written. *)
Abbreviation TArray T := (list (option T)).

Definition SetNumUninitialized {T} (n : nat) : TArray T := replicate n None.

(** [Array[i] = v], range checked. *)
Definition ArraySet {T} (arr : TArray T) (i : nat) (v : T) : Flow (TArray T) :=
  if decide (i < length arr)%nat then Normal (<[i := Some v]> arr) else Fault.

(** [Array[i]] read, range checked. *)
Definition ArrayGet {T} (arr : list T) (i : nat) : Flow T :=
  match arr !! i with Some x => Normal x | None => Fault end.

(** [float]: IEEE 754 binary32, as a [spec_float] of precision 24. *)
Abbreviation float32 := spec_float.

(** The conversion [(float)d] of a [double]: round to nearest even. *)
Definition float_cast (d : float) : float32 :=
  match Prim2SF d with
  | S754_finite s m e =>
      binary_normalize 24 128 (if s then Z.neg m else Z.pos m) e s
  | sf => sf
  end.

(* ================================================================== *)
(** ** What the function uses of the engine and of libm *)

Class UnrealApi : Type := {
  (** Core *)
  FName : Type;
  FName_eq_dec :: EqDecision FName;
  MakeFName : FString -> FName;
  FGuid : Type;
  FVector : Type;
  FQuat : Type;
  FTransform : Type;
  MakeFVector : float -> float -> float -> FVector;
  MakeFQuat : float -> float -> float -> float -> FQuat;
  MakeFTransform : FQuat -> FVector -> FVector -> FTransform;
  (** Json *)
  FJsonValue : Type;
  FJsonObject : Type;
  (** [FJsonSerializer::Deserialize(Reader, JsonObject)] on a reader of
      the given string: [Some] when it returns true. *)
  Deserialize : FString -> option FJsonObject;
  (** [JsonObject->Values], in iteration order. *)
  Values : FJsonObject -> list (FString * FJsonValue);
  AsObject : FJsonValue -> TSharedPtr FJsonObject;
  AsNumber : FJsonValue -> float;
  TryGetArrayField : FJsonObject -> FString -> option (list FJsonValue);
  TryGetStringField : FJsonObject -> FString -> option FString;
  (** [TryGetNumberField] with an [int32&] and with a [double&] result. *)
  TryGetNumberField_int32 : FJsonObject -> FString -> option Z;
  TryGetNumberField_double : FJsonObject -> FString -> option float;
  (** <math.h> *)
  atan2 : float -> float -> float;
  asin : float -> float;
}.

(* ================================================================== *)
(** ** The decoder *)

Section Decoder.
Context `{Api : UnrealApi}.

Local Open Scope float_scope.

(** [FLiveLinkSkeletonStaticData], the fields the function writes. *)
Record FLiveLinkSkeletonStaticData : Type := {
  BoneNames : TArray FName;
  BoneParents : TArray Z;
  PropertyNames : TArray FName;
}.

(** [FLiveLinkAnimationFrameData], the fields the function writes;
    [PropertyValues] is a [TArray<float>]. *)
Record FLiveLinkAnimationFrameData : Type := {
  Transforms : TArray FTransform;
  PropertyValues : TArray float32;
}.

(** The locals of one iteration of the loop over the subjects. *)
Record Locals : Type := {
  StaticData : FLiveLinkSkeletonStaticData;
  FrameData : FLiveLinkAnimationFrameData;
  headRoll : float;
  headPitch : float;
  headYaw : float;
}.

Definition with_BoneNames (a : TArray FName) (L : Locals) : Locals :=
  {| StaticData := {| BoneNames := a;
                      BoneParents := BoneParents (StaticData L);
                      PropertyNames := PropertyNames (StaticData L) |};
     FrameData := FrameData L;
     headRoll := headRoll L; headPitch := headPitch L; headYaw := headYaw L |}.

Definition with_BoneParents (a : TArray Z) (L : Locals) : Locals :=
  {| StaticData := {| BoneNames := BoneNames (StaticData L);
                      BoneParents := a;
                      PropertyNames := PropertyNames (StaticData L) |};
     FrameData := FrameData L;
     headRoll := headRoll L; headPitch := headPitch L; headYaw := headYaw L |}.

Definition with_PropertyNames (a : TArray FName) (L : Locals) : Locals :=
  {| StaticData := {| BoneNames := BoneNames (StaticData L);
                      BoneParents := BoneParents (StaticData L);
                      PropertyNames := a |};
     FrameData := FrameData L;
     headRoll := headRoll L; headPitch := headPitch L; headYaw := headYaw L |}.

Definition with_Transforms (a : TArray FTransform) (L : Locals) : Locals :=
  {| StaticData := StaticData L;
     FrameData := {| Transforms := a;
                     PropertyValues := PropertyValues (FrameData L) |};
     headRoll := headRoll L; headPitch := headPitch L; headYaw := headYaw L |}.

Definition with_PropertyValues (a : TArray float32) (L : Locals) : Locals :=
  {| StaticData := StaticData L;
     FrameData := {| Transforms := Transforms (FrameData L);
                     PropertyValues := a |};
     headRoll := headRoll L; headPitch := headPitch L; headYaw := headYaw L |}.

Definition with_head (r p y : float) (L : Locals) : Locals :=
  {| StaticData := StaticData L; FrameData := FrameData L;
     headRoll := r; headPitch := p; headYaw := y |}.

(** Lines 187-196: both structs default constructed, the angles 0. *)
Definition InitialLocals : Locals :=
  {| StaticData := {| BoneNames := []; BoneParents := []; PropertyNames := [] |};
     FrameData := {| Transforms := []; PropertyValues := [] |};
     headRoll := 0; headPitch := 0; headYaw := 0 |}.

(** Lines 263, 266, 267. *)
Definition HeadRollOf (qx qy qz qw : float) : float :=
  - atan2 (2 * (qx * qy + qw * qz)) (qw * qw + qx * qx - qy * qy - qz * qz).

Definition HeadPitchOf (qx qy qz qw : float) : float :=
  atan2 (2 * (qy * qz + qw * qx)) (qw * qw - qx * qx - qy * qy + qz * qz).

Definition HeadYawOf (qx qy qz qw : float) : float :=
  - asin (-2 * (qx * qz - qw * qy)).

(** Lines 207-230: the body of the first loop over the bones. *)
Definition BoneNamesBody (BoneArray : list FJsonValue)
    (BoneIdx : nat) (L : Locals) : Flow Locals :=
  Bone ← ArrayGet BoneArray BoneIdx;
  BoneObject ← deref (AsObject Bone);
  match TryGetStringField BoneObject (TEXT "Name") with
  | Some BoneName =>
      a ← ArraySet (BoneNames (StaticData L)) BoneIdx (MakeFName BoneName);
      let L := with_BoneNames a L in
      match TryGetNumberField_int32 BoneObject (TEXT "Parent") with
      | Some BoneParentIdx =>
          a ← ArraySet (BoneParents (StaticData L)) BoneIdx BoneParentIdx;
          Normal (with_BoneParents a L)
      | None => EarlyReturn
      end
  | None => EarlyReturn
  end.

(** [TryGetArrayField(Field, Out) && Out->Num() == n]. *)
Definition TryGetArrayOfNum (o : FJsonObject) (Field : FString) (n : nat)
    : option (list FJsonValue) :=
  match TryGetArrayField o Field with
  | Some a => if decide (length a = n) then Some a else None
  | None => None
  end.

(** Lines 235-292: the body of the second loop over the bones. *)
Definition BoneTransformsBody (BoneArray : list FJsonValue)
    (BoneIdx : nat) (L : Locals) : Flow Locals :=
  Bone ← ArrayGet BoneArray BoneIdx;
  BoneObject ← deref (AsObject Bone);
  match TryGetArrayOfNum BoneObject (TEXT "Location") 3 with
  | Some LocationArray =>
      X ← AsNumber <$> ArrayGet LocationArray 0;
      Y ← AsNumber <$> ArrayGet LocationArray 1;
      Z_ ← AsNumber <$> ArrayGet LocationArray 2;
      let BoneLocation := MakeFVector X Y Z_ in
      match TryGetArrayOfNum BoneObject (TEXT "Rotation") 4 with
      | Some RotationArray =>
          qx ← AsNumber <$> ArrayGet RotationArray 0;
          qy ← AsNumber <$> ArrayGet RotationArray 1;
          qz ← AsNumber <$> ArrayGet RotationArray 2;
          qw ← AsNumber <$> ArrayGet RotationArray 3;
          let L := with_head (HeadRollOf qx qy qz qw) (HeadPitchOf qx qy qz qw)
                             (HeadYawOf qx qy qz qw) L in
          let BoneQuat := MakeFQuat qx qy qz qw in
          match TryGetArrayOfNum BoneObject (TEXT "Scale") 3 with
          | Some ScaleArray =>
              X ← AsNumber <$> ArrayGet ScaleArray 0;
              Y ← AsNumber <$> ArrayGet ScaleArray 1;
              Z_ ← AsNumber <$> ArrayGet ScaleArray 2;
              let BoneScale := MakeFVector X Y Z_ in
              a ← ArraySet (Transforms (FrameData L)) BoneIdx
                    (MakeFTransform BoneQuat BoneLocation BoneScale);
              Normal (with_Transforms a L)
          | None => EarlyReturn
          end
      | None => EarlyReturn
      end
  | None => EarlyReturn
  end.

(** Lines 198-294. *)
Definition DecodeBones (MyJsonObject : FJsonObject) (L : Locals) : Flow Locals :=
  match TryGetArrayField MyJsonObject (TEXT "Bone") with
  | Some BoneArray =>
      let Num := length BoneArray in
      let L := with_BoneNames (SetNumUninitialized Num) L in
      let L := with_BoneParents (SetNumUninitialized Num) L in
      let L := with_Transforms (SetNumUninitialized Num) L in
      L ← for_loop (BoneNamesBody BoneArray) 0 Num L;
      for_loop (BoneTransformsBody BoneArray) 0 Num L
  | None => Normal L
  end.

(** Lines 314-326: the body of the loop over the parameter names. *)
Definition ParameterNamesBody (ParameterArray : list FJsonValue)
    (i : nat) (L : Locals) : Flow Locals :=
  param ← ArrayGet ParameterArray i;
  paramobject ← deref (AsObject param);
  match TryGetStringField paramobject (TEXT "Name") with
  | Some parameterName =>
      a ← ArraySet (PropertyNames (StaticData L)) i (MakeFName parameterName);
      Normal (with_PropertyNames a L)
  | None => EarlyReturn
  end.

(** Lines 331-341: the body of the loop over the parameter values. *)
Definition ParameterValuesBody (ParameterArray : list FJsonValue)
    (i : nat) (L : Locals) : Flow Locals :=
  param ← ArrayGet ParameterArray i;
  paramObject ← deref (AsObject param);
  match TryGetNumberField_double paramObject (TEXT "Value") with
  | Some value =>
      a ← ArraySet (PropertyValues (FrameData L)) i (float_cast value);
      Normal (with_PropertyValues a L)
  | None => EarlyReturn
  end.

(** Lines 296-343.  Storing a [double] in [PropertyValues] converts it
    to [float], as the cast of line 336 does. *)
Definition DecodeParameters (MyJsonObject : FJsonObject) (L : Locals)
    : Flow Locals :=
  match TryGetArrayField MyJsonObject (TEXT "Parameter") with
  | Some ParameterArray =>
      let raw_array_length := length ParameterArray in
      let L := with_PropertyNames (SetNumUninitialized (raw_array_length + 3)) L in
      let L := with_PropertyValues (SetNumUninitialized (raw_array_length + 3)) L in
      a ← ArraySet (PropertyNames (StaticData L)) raw_array_length
            (MakeFName (TEXT "headRoll"));
      let L := with_PropertyNames a L in
      a ← ArraySet (PropertyValues (FrameData L)) raw_array_length
            (float_cast (headRoll L));
      let L := with_PropertyValues a L in
      a ← ArraySet (PropertyNames (StaticData L)) (raw_array_length + 1)
            (MakeFName (TEXT "headPitch"));
      let L := with_PropertyNames a L in
      a ← ArraySet (PropertyValues (FrameData L)) (raw_array_length + 1)
            (float_cast (headPitch L));
      let L := with_PropertyValues a L in
      a ← ArraySet (PropertyNames (StaticData L)) (raw_array_length + 2)
            (MakeFName (TEXT "headYaw"));
      let L := with_PropertyNames a L in
      a ← ArraySet (PropertyValues (FrameData L)) (raw_array_length + 2)
            (float_cast (headYaw L));
      let L := with_PropertyValues a L in
      L ← for_loop (ParameterNamesBody ParameterArray) 0 raw_array_length L;
      for_loop (ParameterValuesBody ParameterArray) 0 raw_array_length L
  | None => Normal L
  end.

(** Lines 175-343 for one field of the datagram's object: everything
    between the head of the loop over the subjects and the pushes. *)
Definition DecodeSubject (Value : FJsonValue) : Flow Locals :=
  MyJsonObject ← deref (AsObject Value);
  L ← DecodeBones MyJsonObject InitialLocals;
  DecodeParameters MyJsonObject L.

(** The role a subject is pushed with: the function names one,
    [ULiveLinkAnimationRole::StaticClass()]. *)
Inductive LiveLinkRole : Type := ULiveLinkAnimationRole.

(** What the function does to the rest of the program, in order: the
    two calls on [Client] (the client handed over by [ReceiveClient]; the
    subject key is the pair of [SourceGuid] and the subject's name) and the
    insertion into [EncounteredSubjects]. *)
Inductive Effect : Type :=
| PushSubjectStaticData_AnyThread
    (Source : FGuid) (SubjectName : FName) (Role : LiveLinkRole)
    (Data : FLiveLinkSkeletonStaticData)
| EncounteredSubjects_Add (SubjectName : FName)
| PushSubjectFrameData_AnyThread
    (Source : FGuid) (SubjectName : FName) (Data : FLiveLinkAnimationFrameData).

(** The members of [FJSONLiveLinkSource] the function reads or writes. *)
Record FJSONLiveLinkSource : Type := {
  SourceGuid : FGuid;
  EncounteredSubjects : list FName;
}.

(** [TSet::Contains] and [TSet::Add]. *)
Definition Contains (s : list FName) (n : FName) : bool := bool_decide (n ∈ s).

Definition Add (s : list FName) (n : FName) : list FName :=
  if Contains s n then s else s ++ [n].

(** Lines 175-347: one iteration of the loop over the subjects, from the
    state [this] of the source; the effects are appended to [log]. *)
Definition SubjectBody (JsonField : FString * FJsonValue)
    (st : FJSONLiveLinkSource * list Effect)
    : Flow (FJSONLiveLinkSource * list Effect) :=
  let '(this, log) := st in
  let SubjectName := MakeFName JsonField.1 in
  let bCreateSubject := negb (Contains (EncounteredSubjects this) SubjectName) in
  L ← DecodeSubject JsonField.2;
  let log := log ++ [PushSubjectStaticData_AnyThread
                       (SourceGuid this) SubjectName ULiveLinkAnimationRole
                       (StaticData L)] in
  let this := {| SourceGuid := SourceGuid this;
                 EncounteredSubjects := Add (EncounteredSubjects this) SubjectName |} in
  let log := log ++ [EncounteredSubjects_Add SubjectName] in
  let log := log ++ [PushSubjectFrameData_AnyThread
                       (SourceGuid this) SubjectName (FrameData L)] in
  Normal (this, log).

(** What a call leaves behind: the source, the effects so far, and how
    the body was left. *)
Record Outcome : Type := {
  Source_after : FJSONLiveLinkSource;
  Effects : list Effect;
  Exit : Flow unit;
}.

(** Lines 173-348: the loop over [JsonObject->Values]. *)
Fixpoint ForEachSubject (Fields : list (FString * FJsonValue))
    (this : FJSONLiveLinkSource) (log : list Effect) : Outcome :=
  match Fields with
  | [] => {| Source_after := this; Effects := log; Exit := Normal tt |}
  | JsonField :: Fields' =>
      match SubjectBody JsonField (this, log) with
      | Normal (this', log') => ForEachSubject Fields' this' log'
      | EarlyReturn =>
          {| Source_after := this; Effects := log; Exit := EarlyReturn |}
      | Fault => {| Source_after := this; Effects := log; Exit := Fault |}
      end
  end.

(** Lines 156-161. *)
Definition JsonStringOf (ReceivedData : list byte) : FString :=
  fold_left (fun JsonString Byte => AppendChar JsonString (TCHAR_of_uint8 Byte))
            ReceivedData [].

(** Lines 154-350. *)
Definition HandleReceivedData (ReceivedData : list byte)
    (this : FJSONLiveLinkSource) : Outcome :=
  let JsonString := JsonStringOf ReceivedData in
  match Deserialize JsonString with
  | Some JsonObject => ForEachSubject (Values JsonObject) this []
  | None => {| Source_after := this; Effects := []; Exit := Normal tt |}
  end.

End Decoder.


(* ================================================================== *)
(** ** What the loops compute, entry by entry

    The verdict of one entry of an array (what it contributes, or how it
    leaves the function), read off the loop bodies above; and the contents
    of an array after [j] iterations of a loop that writes slot [i] in
    iteration [i]. *)

Definition flow_option {A} (m : Flow A) : option A :=
  match m with Normal a => Some a | _ => None end.

(** Slots [0 .. j) written from the first [j] entries, slots [j .. n)
    still unwritten, followed by [tail]. *)
Definition slots {A B} (f : A -> Flow B) (l : list A) (j n : nat)
    (tail : TArray B) : TArray B :=
  ((fun x => flow_option (f x)) <$> take j l) ++ replicate (n - j) None ++ tail.

Section Entries.
Context `{Api : UnrealApi}.

Definition BoneNameOf (Bone : FJsonValue) : Flow FName :=
  BoneObject ← deref (AsObject Bone);
  match TryGetStringField BoneObject (TEXT "Name") with
  | Some BoneName => Normal (MakeFName BoneName)
  | None => EarlyReturn
  end.

Definition BoneParentOf (Bone : FJsonValue) : Flow Z :=
  BoneObject ← deref (AsObject Bone);
  match TryGetNumberField_int32 BoneObject (TEXT "Parent") with
  | Some BoneParentIdx => Normal BoneParentIdx
  | None => EarlyReturn
  end.

(** The three numbers of an array field of exactly three entries. *)
Definition VectorOf (Field : FString) (Bone : FJsonValue) : Flow FVector :=
  BoneObject ← deref (AsObject Bone);
  match TryGetArrayOfNum BoneObject Field 3 with
  | Some a =>
      X ← AsNumber <$> ArrayGet a 0;
      Y ← AsNumber <$> ArrayGet a 1;
      Z_ ← AsNumber <$> ArrayGet a 2;
      Normal (MakeFVector X Y Z_)
  | None => EarlyReturn
  end.

(** [qx, qy, qz, qw] of the "Rotation" field. *)
Definition RotationOf (Bone : FJsonValue) : Flow (float * float * float * float) :=
  BoneObject ← deref (AsObject Bone);
  match TryGetArrayOfNum BoneObject (TEXT "Rotation") 4 with
  | Some a =>
      qx ← AsNumber <$> ArrayGet a 0;
      qy ← AsNumber <$> ArrayGet a 1;
      qz ← AsNumber <$> ArrayGet a 2;
      qw ← AsNumber <$> ArrayGet a 3;
      Normal (qx, qy, qz, qw)
  | None => EarlyReturn
  end.

Definition TransformOf (Bone : FJsonValue) : Flow FTransform :=
  BoneLocation ← VectorOf (TEXT "Location") Bone;
  q ← RotationOf Bone;
  BoneScale ← VectorOf (TEXT "Scale") Bone;
  let '(qx, qy, qz, qw) := q in
  Normal (MakeFTransform (MakeFQuat qx qy qz qw) BoneLocation BoneScale).

Definition HeadAnglesOf (q : float * float * float * float)
    : float * float * float :=
  let '(qx, qy, qz, qw) := q in
  (HeadRollOf qx qy qz qw, HeadPitchOf qx qy qz qw, HeadYawOf qx qy qz qw).

(** The three angles after [j] iterations of the second loop. *)
Definition HeadAfter (BoneArray : list FJsonValue) (j : nat)
    (init : float * float * float) : float * float * float :=
  match j with
  | O => init
  | S j' =>
      match BoneArray !! j' with
      | Some Bone =>
          match RotationOf Bone with
          | Normal q => HeadAnglesOf q
          | _ => init
          end
      | None => init
      end
  end.

Definition ParameterNameOf (param : FJsonValue) : Flow FName :=
  paramobject ← deref (AsObject param);
  match TryGetStringField paramobject (TEXT "Name") with
  | Some parameterName => Normal (MakeFName parameterName)
  | None => EarlyReturn
  end.

Definition ParameterValueOf (param : FJsonValue) : Flow float32 :=
  paramObject ← deref (AsObject param);
  match TryGetNumberField_double paramObject (TEXT "Value") with
  | Some value => Normal (float_cast value)
  | None => EarlyReturn
  end.

(** The subject an effect is about. *)
Definition SubjectOf (e : Effect) : FName :=
  match e with
  | PushSubjectStaticData_AnyThread _ n _ _ => n
  | EncounteredSubjects_Add n => n
  | PushSubjectFrameData_AnyThread _ n _ => n
  end.

(** The three effects of a subject that was decoded into [L]. *)
Definition PushesOf (Guid : FGuid) (SubjectName : FName) (L : Locals)
    : list Effect :=
  [PushSubjectStaticData_AnyThread Guid SubjectName ULiveLinkAnimationRole
     (StaticData L);
   EncounteredSubjects_Add SubjectName;
   PushSubjectFrameData_AnyThread Guid SubjectName (FrameData L)].

Definition with_head3 (h : float * float * float) (L : Locals) : Locals :=
  with_head h.1.1 h.1.2 h.2 L.

Definition head3 (L : Locals) : float * float * float :=
  (headRoll L, headPitch L, headYaw L).

(** The locals after [j] iterations of the first loop over the bones. *)
Definition AfterBoneNames (BoneArray : list FJsonValue) (L : Locals) (j : nat)
    : Locals :=
  let Num := length BoneArray in
  with_BoneParents (slots BoneParentOf BoneArray j Num [])
    (with_BoneNames (slots BoneNameOf BoneArray j Num [])
       (with_Transforms (SetNumUninitialized Num) L)).

(** The locals after [j] iterations of the second loop over the bones. *)
Definition AfterBoneTransforms (BoneArray : list FJsonValue) (L : Locals) (j : nat)
    : Locals :=
  let Num := length BoneArray in
  with_head3 (HeadAfter BoneArray j (head3 L))
    (with_Transforms (slots TransformOf BoneArray j Num [])
       (AfterBoneNames BoneArray L Num)).

Definition BoneNamesVerdict (BoneArray : list FJsonValue) (j : nat) : Flow unit :=
  Bone ← ArrayGet BoneArray j;
  _ ← BoneNameOf Bone; _ ← BoneParentOf Bone; Normal tt.

Definition BoneTransformsVerdict (BoneArray : list FJsonValue) (j : nat)
    : Flow unit :=
  Bone ← ArrayGet BoneArray j;
  _ ← TransformOf Bone; Normal tt.

Definition HeadNames : TArray FName :=
  [Some (MakeFName (TEXT "headRoll")); Some (MakeFName (TEXT "headPitch"));
   Some (MakeFName (TEXT "headYaw"))].

Definition HeadValues (L : Locals) : TArray float32 :=
  [Some (float_cast (headRoll L)); Some (float_cast (headPitch L));
   Some (float_cast (headYaw L))].

(** The locals after [j] iterations of the loop over the parameter names. *)
Definition AfterParameterNames (ParameterArray : list FJsonValue) (L : Locals)
    (j : nat) : Locals :=
  let n := length ParameterArray in
  with_PropertyNames (slots ParameterNameOf ParameterArray j n HeadNames)
    (with_PropertyValues (slots ParameterValueOf ParameterArray 0 n (HeadValues L)) L).

(** The locals after [j] iterations of the loop over the parameter values. *)
Definition AfterParameterValues (ParameterArray : list FJsonValue) (L : Locals)
    (j : nat) : Locals :=
  let n := length ParameterArray in
  with_PropertyValues (slots ParameterValueOf ParameterArray j n (HeadValues L))
    (AfterParameterNames ParameterArray L n).

Definition ParameterNamesVerdict (ParameterArray : list FJsonValue) (j : nat)
    : Flow unit :=
  param ← ArrayGet ParameterArray j; _ ← ParameterNameOf param; Normal tt.

Definition ParameterValuesVerdict (ParameterArray : list FJsonValue) (j : nat)
    : Flow unit :=
  param ← ArrayGet ParameterArray j; _ ← ParameterValueOf param; Normal tt.

(** What [DecodeBones] and [DecodeParameters] leave in the locals when
    they run to their end. *)
Definition DecodedBones (MyJsonObject : FJsonObject) (L : Locals) : Locals :=
  match TryGetArrayField MyJsonObject (TEXT "Bone") with
  | Some BoneArray => AfterBoneTransforms BoneArray L (length BoneArray)
  | None => L
  end.

Definition DecodedParameters (MyJsonObject : FJsonObject) (L : Locals) : Locals :=
  match TryGetArrayField MyJsonObject (TEXT "Parameter") with
  | Some ParameterArray =>
      AfterParameterValues ParameterArray L (length ParameterArray)
  | None => L
  end.

Definition Decoded (MyJsonObject : FJsonObject) : Locals :=
  DecodedParameters MyJsonObject (DecodedBones MyJsonObject InitialLocals).

(** How the two halves of a subject end. *)
Definition BonesVerdict (MyJsonObject : FJsonObject) : Flow unit :=
  match TryGetArrayField MyJsonObject (TEXT "Bone") with
  | Some BoneArray =>
      _ ← for_loop (fun j _ => BoneNamesVerdict BoneArray j) 0 (length BoneArray) tt;
      for_loop (fun j _ => BoneTransformsVerdict BoneArray j) 0 (length BoneArray) tt
  | None => Normal tt
  end.

Definition ParametersVerdict (MyJsonObject : FJsonObject) : Flow unit :=
  match TryGetArrayField MyJsonObject (TEXT "Parameter") with
  | Some ParameterArray =>
      _ ← for_loop (fun j _ => ParameterNamesVerdict ParameterArray j)
            0 (length ParameterArray) tt;
      for_loop (fun j _ => ParameterValuesVerdict ParameterArray j)
            0 (length ParameterArray) tt
  | None => Normal tt
  end.

(** One subject: how lines 175-343 end, and the locals they leave when
    they run to their end. *)
Definition SubjectVerdict (Value : FJsonValue) : Flow unit :=
  MyJsonObject ← deref (AsObject Value);
  _ ← BonesVerdict MyJsonObject;
  ParametersVerdict MyJsonObject.

Definition DecodedSubject (Value : FJsonValue) : Locals :=
  match AsObject Value with
  | Some MyJsonObject => Decoded MyJsonObject
  | None => InitialLocals
  end.

(** The structural defects of a subject's update: a bone without a string
    "Name" or a number "Parent", or whose "Location", "Rotation" or "Scale"
    is not an array of 3, 4 and 3 entries; a parameter without a string
    "Name" or a number "Value". *)
Definition BoneDefect (Bone : FJsonValue) : Prop :=
  exists BoneObject,
    AsObject Bone = Some BoneObject
    /\ (TryGetStringField BoneObject (TEXT "Name") = None
        \/ TryGetNumberField_int32 BoneObject (TEXT "Parent") = None
        \/ TryGetArrayOfNum BoneObject (TEXT "Location") 3 = None
        \/ TryGetArrayOfNum BoneObject (TEXT "Rotation") 4 = None
        \/ TryGetArrayOfNum BoneObject (TEXT "Scale") 3 = None).

Definition ParameterDefect (param : FJsonValue) : Prop :=
  exists paramObject,
    AsObject param = Some paramObject
    /\ (TryGetStringField paramObject (TEXT "Name") = None
        \/ TryGetNumberField_double paramObject (TEXT "Value") = None).

Definition SubjectDefect (Value : FJsonValue) : Prop :=
  exists MyJsonObject,
    AsObject Value = Some MyJsonObject
    /\ ((exists BoneArray Bone,
           TryGetArrayField MyJsonObject (TEXT "Bone") = Some BoneArray
           /\ Bone ∈ BoneArray /\ BoneDefect Bone)
        \/ (exists ParameterArray param,
           TryGetArrayField MyJsonObject (TEXT "Parameter") = Some ParameterArray
           /\ param ∈ ParameterArray /\ ParameterDefect param)).

(** The effects of the subjects of [Fields] when each of them is decoded
    and pushed, and the subjects seen after them. *)
Definition AllPushes (Guid : FGuid) (Fields : list (FString * FJsonValue))
    : list Effect :=
  flat_map (fun f => PushesOf Guid (MakeFName f.1) (DecodedSubject f.2)) Fields.

Definition AllAdded (s : list FName) (Fields : list (FString * FJsonValue))
    : list FName :=
  fold_left (fun s f => Add s (MakeFName f.1)) Fields s.

End Entries.

(* ================================================================== *)
(** ** UTF-8, as the specification words the payload's encoding

    This follows the specification ("payload interpreted as UTF-8 text"),
    not the source: the text a byte sequence encodes, as the code units of
    an [FString].  It is compared with [JsonStringOf] below. *)

Module Utf8.

Definition is_continuation (b : Z) : bool := (0x80 <=? b) && (b <=? 0xBF).

Definition low6 (b : Z) : Z := Z.land b 0x3F.

Definition is_surrogate (cp : Z) : bool := (0xD800 <=? cp) && (cp <=? 0xDFFF).

(** The code points of a well formed UTF-8 byte sequence (RFC 3629):
    shortest form only, no surrogates, nothing above U+10FFFF. *)
Fixpoint decode (bs : list Z) : option (list Z) :=
  match bs with
  | [] => Some []
  | b0 :: r =>
      if b0 <? 0x80 then
        match decode r with Some cps => Some (b0 :: cps) | None => None end
      else if (0xC2 <=? b0) && (b0 <=? 0xDF) then
        match r with
        | b1 :: r' =>
            let cp := Z.lor (Z.shiftl (Z.land b0 0x1F) 6) (low6 b1) in
            if is_continuation b1 then
              match decode r' with Some cps => Some (cp :: cps) | None => None end
            else None
        | _ => None
        end
      else if (0xE0 <=? b0) && (b0 <=? 0xEF) then
        match r with
        | b1 :: b2 :: r' =>
            let cp := Z.lor (Z.shiftl (Z.land b0 0x0F) 12)
                        (Z.lor (Z.shiftl (low6 b1) 6) (low6 b2)) in
            if is_continuation b1 && is_continuation b2
               && (0x800 <=? cp) && negb (is_surrogate cp) then
              match decode r' with Some cps => Some (cp :: cps) | None => None end
            else None
        | _ => None
        end
      else if (0xF0 <=? b0) && (b0 <=? 0xF4) then
        match r with
        | b1 :: b2 :: b3 :: r' =>
            let cp := Z.lor (Z.shiftl (Z.land b0 0x07) 18)
                        (Z.lor (Z.shiftl (low6 b1) 12)
                           (Z.lor (Z.shiftl (low6 b2) 6) (low6 b3))) in
            if is_continuation b1 && is_continuation b2 && is_continuation b3
               && (0x10000 <=? cp) && (cp <=? 0x10FFFF) then
              match decode r' with Some cps => Some (cp :: cps) | None => None end
            else None
        | _ => None
        end
      else None
  end.

(** The 16 bit code units of a code point. *)
Definition code_units (cp : Z) : FString :=
  if cp <? 0x10000 then [cp]
  else let c := cp - 0x10000 in
       [0xD800 + Z.shiftr c 10; 0xDC00 + Z.land c 0x3FF].

(** The text a payload encodes, when it is valid UTF-8. *)
Definition TextOf (payload : list byte) : option FString :=
  match decode (TCHAR_of_uint8 <$> payload) with
  | Some cps => Some (flat_map code_units cps)
  | None => None
  end.

End Utf8.

(* ================================================================== *)
(** ** A reference implementation of the interface

    A small, executable stand-in for the engine: Json values are trees,
    field names are compared as strings, accessors succeed on a value of
    the matching kind, [AsObject] on anything but an object hands back a
    valid empty object (the engine's [EMPTY_OBJECT]), and the reader is a
    recursive descent parser.  It is used to run the decoder on concrete
    datagrams; the theorems below hold for every implementation. *)

Module Reference.

#[local] Set Warnings "-register-all".

Inductive JsonTree : Type :=
| JNull
| JBoolean (b : bool)
| JNumber (d : float)
| JString (s : FString)
| JArray (elements : list JsonTree)
| JObject (fields : list (FString * JsonTree)).

Abbreviation JsonFields := (list (FString * JsonTree)).

Definition FString_eqb (a b : FString) : bool := bool_decide (a = b).

Definition TryGetField (o : JsonFields) (Field : FString) : option JsonTree :=
  snd <$> List.find (fun f => FString_eqb f.1 Field) o.

(** [FJsonObject::SetField]: the value of a field that is there already
    is replaced. *)
Fixpoint SetField (o : JsonFields) (k : FString) (v : JsonTree) : JsonFields :=
  match o with
  | [] => [(k, v)]
  | (k', v') :: o' =>
      if FString_eqb k' k then (k', v) :: o' else (k', v') :: SetField o' k v
  end.

Definition ref_AsObject (v : JsonTree) : TSharedPtr JsonFields :=
  match v with JObject f => Some f | _ => Some [] end.

Definition ref_AsNumber (v : JsonTree) : float :=
  match v with
  | JNumber d => d
  | JBoolean true => 1%float
  | _ => 0%float
  end.

Definition ref_TryGetArrayField (o : JsonFields) (Field : FString)
    : option (list JsonTree) :=
  match TryGetField o Field with Some (JArray l) => Some l | _ => None end.

Definition ref_TryGetStringField (o : JsonFields) (Field : FString)
    : option FString :=
  match TryGetField o Field with Some (JString s) => Some s | _ => None end.

Definition ref_TryGetNumberField_double (o : JsonFields) (Field : FString)
    : option float :=
  match TryGetField o Field with Some (JNumber d) => Some d | _ => None end.

(** Truncation of a finite double towards zero. *)
Definition trunc (d : float) : option Z :=
  match Prim2SF d with
  | S754_zero _ => Some 0
  | S754_finite s m e =>
      let a := if 0 <=? e then Z.pos m * 2 ^ e else Z.pos m / 2 ^ (- e) in
      Some (if s then - a else a)
  | _ => None
  end.

(** A double as [int32]: in range, rounded half away from zero. *)
Definition to_int32 (d : float) : option Z :=
  if ((-2147483648 <=? d) && (d <=? 2147483647))%float
  then trunc (if (0 <=? d)%float then d + 0.5 else d - 0.5)%float
  else None.

Definition ref_TryGetNumberField_int32 (o : JsonFields) (Field : FString)
    : option Z :=
  match TryGetField o Field with Some (JNumber d) => to_int32 d | _ => None end.

(** The two functions of libm, at the arguments where the C standard
    fixes the result exactly: [atan2(±0, x) = ±0] for [x > 0], and
    [asin(±0) = ±0].  Elsewhere this stand-in answers NaN. *)
Definition ref_atan2 (y x : float) : float :=
  if ((y =? 0) && (0 <? x))%float then y else nan.

Definition ref_asin (x : float) : float :=
  if (x =? 0)%float then x else nan.

(** *** The reader *)

Definition is_space (c : TCHAR) : bool :=
  (c =? 32) || (c =? 9) || (c =? 10) || (c =? 13).

Fixpoint skip_ws (s : FString) : FString :=
  match s with
  | c :: s' => if is_space c then skip_ws s' else s
  | [] => []
  end.

Definition is_digit (c : TCHAR) : bool := (48 <=? c) && (c <=? 57).

(** The characters of a string literal after its opening quote. *)
Fixpoint read_string (s acc : FString) : option (FString * FString) :=
  match s with
  | [] => None
  | 34 :: s' => Some (acc, s')
  | 92 :: c :: s' =>
      let c' := if c =? 110 then 10 else if c =? 116 then 9 else c in
      read_string s' (acc ++ [c'])
  | c :: s' => read_string s' (acc ++ [c])
  end.

(** A run of digits: its value continued from [acc], how many, the rest. *)
Fixpoint read_digits (s : FString) (acc : Z) (n : nat) : Z * nat * FString :=
  match s with
  | c :: s' =>
      if is_digit c then read_digits s' (10 * acc + (c - 48)) (S n) else (acc, n, s)
  | [] => (acc, n, [])
  end.

Fixpoint pow10 (n : nat) : float :=
  match n with O => 1%float | S n' => (10 * pow10 n')%float end.

Definition float_of_Z (z : Z) : float :=
  let a := PrimFloat.of_uint63 (Uint63.of_Z (Z.abs z)) in
  if z <? 0 then (- a)%float else a.

(** [-? digits (. digits)?] *)
Definition read_number (s : FString) : option (float * FString) :=
  let '(neg, s) := match s with 45 :: s' => (true, s') | _ => (false, s) end in
  let '(ip, n, s) := read_digits s 0 O in
  match n with
  | O => None
  | S _ =>
      let '(m, k, s) :=
        match s with
        | 46 :: s' => read_digits s' ip O
        | _ => (ip, O, s)
        end in
      let a := (float_of_Z m / pow10 k)%float in
      Some (if neg then (- a)%float else a, s)
  end.

Definition read_literal (lit : string) (v : JsonTree) (s : FString)
    : option (JsonTree * FString) :=
  let l := TEXT lit in
  if FString_eqb (take (length l) s) l then Some (v, drop (length l) s) else None.

Fixpoint read_value (fuel : nat) (s : FString) {struct fuel}
    : option (JsonTree * FString) :=
  match fuel with
  | O => None
  | S fuel =>
      match skip_ws s with
      | 123 :: r =>
          match skip_ws r with
          | 125 :: r' => Some (JObject [], r')
          | r' => read_members fuel r' []
          end
      | 91 :: r =>
          match skip_ws r with
          | 93 :: r' => Some (JArray [], r')
          | r' => read_elements fuel r' []
          end
      | 34 :: r =>
          match read_string r [] with
          | Some (str, r') => Some (JString str, r')
          | None => None
          end
      | 116 :: _ => read_literal "true" (JBoolean true) (skip_ws s)
      | 102 :: _ => read_literal "false" (JBoolean false) (skip_ws s)
      | 110 :: _ => read_literal "null" JNull (skip_ws s)
      | r =>
          match read_number r with
          | Some (d, r') => Some (JNumber d, r')
          | None => None
          end
      end
  end
with read_members (fuel : nat) (s : FString) (acc : JsonFields) {struct fuel}
    : option (JsonTree * FString) :=
  match fuel with
  | O => None
  | S fuel =>
      match skip_ws s with
      | 34 :: r =>
          match read_string r [] with
          | Some (k, r) =>
              match skip_ws r with
              | 58 :: r =>
                  match read_value fuel r with
                  | Some (v, r) =>
                      match skip_ws r with
                      | 44 :: r => read_members fuel r (SetField acc k v)
                      | 125 :: r => Some (JObject (SetField acc k v), r)
                      | _ => None
                      end
                  | None => None
                  end
              | _ => None
              end
          | None => None
          end
      | _ => None
      end
  end
with read_elements (fuel : nat) (s : FString) (acc : list JsonTree) {struct fuel}
    : option (JsonTree * FString) :=
  match fuel with
  | O => None
  | S fuel =>
      match read_value fuel s with
      | Some (v, r) =>
          match skip_ws r with
          | 44 :: r => read_elements fuel r (acc ++ [v])
          | 93 :: r => Some (JArray (acc ++ [v]), r)
          | _ => None
          end
      | None => None
      end
  end.

Definition ref_Deserialize (s : FString) : option JsonFields :=
  match read_value (S (length s)) s with
  | Some (JObject f, r) => match skip_ws r with [] => Some f | _ => None end
  | _ => None
  end.

Definition ApiWith (as_object : JsonTree -> TSharedPtr JsonFields) : UnrealApi := {|
  FName := FString;
  MakeFName := fun s => s;
  FGuid := Z;
  FVector := float32 * float32 * float32;
  FQuat := float32 * float32 * float32 * float32;
  FTransform := (float32 * float32 * float32 * float32)
                * (float32 * float32 * float32) * (float32 * float32 * float32);
  MakeFVector := fun x y z => (float_cast x, float_cast y, float_cast z);
  MakeFQuat := fun x y z w => (float_cast x, float_cast y, float_cast z, float_cast w);
  MakeFTransform := fun q l s => (q, l, s);
  FJsonValue := JsonTree;
  FJsonObject := JsonFields;
  Deserialize := ref_Deserialize;
  Values := fun o => o;
  AsObject := as_object;
  AsNumber := ref_AsNumber;
  TryGetArrayField := ref_TryGetArrayField;
  TryGetStringField := ref_TryGetStringField;
  TryGetNumberField_int32 := ref_TryGetNumberField_int32;
  TryGetNumberField_double := ref_TryGetNumberField_double;
  atan2 := ref_atan2;
  asin := ref_asin;
|}.

#[local] Instance Api : UnrealApi := ApiWith ref_AsObject.

(** The same with an [AsObject] that answers a null pointer for a value
    that is no object. *)
Definition null_AsObject (v : JsonTree) : TSharedPtr JsonFields :=
  match v with JObject f => Some f | _ => None end.

Definition NullApi : UnrealApi := ApiWith null_AsObject.

(** A datagram given as an ASCII literal, in which ['] is written for
    the double quote. *)
Definition Datagram (lit : string) : list byte :=
  map (fun b => match b with x27 => x22 | _ => b end) (list_byte_of_string lit).
Arguments Datagram lit%_string.

(** A source that has seen no subject yet. *)
Definition FreshSource : FJSONLiveLinkSource :=
  {| SourceGuid := 7; EncounteredSubjects := [] |}.

(** The scenario of the specification. *)
Definition HeadDatagram : list byte :=
  Datagram ("{'Head':{'Bone':[{'Name':'root','Parent':-1,'Location':[0,0,0],"
            ++ "'Rotation':[0,0,0,1],'Scale':[1,1,1]}],"
            ++ "'Parameter':[{'Name':'blink','Value':0.5}]}}").

(** *** Concrete datagrams *)

Definition FieldOf (o : JsonFields) (Field : string) : JsonTree :=
  default JNull (TryGetField o (TEXT Field)).
Arguments FieldOf o Field%_string.

Definition FieldsOf (v : JsonTree) : JsonFields :=
  match v with JObject f => f | _ => [] end.

Definition ElementsOf (v : JsonTree) : list JsonTree :=
  match v with JArray l => l | _ => [] end.

Definition Parsed (ReceivedData : list byte) : JsonFields :=
  default [] (ref_Deserialize (JsonStringOf ReceivedData)).

(** The parsed scenario and its parts, evaluated. *)
Definition HeadFields : JsonFields := Eval vm_compute in Parsed HeadDatagram.
Definition HeadValue : JsonTree := Eval vm_compute in FieldOf HeadFields "Head".
Definition HeadBones : list JsonTree :=
  Eval vm_compute in ElementsOf (FieldOf (FieldsOf HeadValue) "Bone").
Definition HeadParameters : list JsonTree :=
  Eval vm_compute in ElementsOf (FieldOf (FieldsOf HeadValue) "Parameter").
Definition RootBone : JsonTree := Eval vm_compute in default JNull (head HeadBones).
Definition HeadLocals : Locals := Eval vm_compute in DecodedSubject HeadValue.

(** The same for [NullApi]. *)
Definition NullFreshSource : FJSONLiveLinkSource (Api := NullApi) :=
  @Build_FJSONLiveLinkSource NullApi 7 [].

(** A source that has seen the subject "Head" before. *)
Definition SourceWithHead : FJSONLiveLinkSource :=
  {| SourceGuid := 7; EncounteredSubjects := [TEXT "Head"] |}.

(** Three subjects: "A" and "C" are well formed, the bone of "B" has no
    "Name". *)
Definition BrokenDatagram : list byte :=
  Datagram "{'A':{},'B':{'Bone':[{'Parent':0}]},'C':{}}".

Definition BrokenFields : JsonFields := Eval vm_compute in Parsed BrokenDatagram.
Definition BrokenValue : JsonTree := Eval vm_compute in FieldOf BrokenFields "B".

(** A subject with a bone and no "Parameter" field. *)
Definition BonesOnlyDatagram : list byte :=
  Datagram ("{'S':{'Bone':[{'Name':'root','Parent':-1,'Location':[0,0,0],"
            ++ "'Rotation':[0,0,0,1],'Scale':[1,1,1]}]}}").

Definition BonesOnlyValue : JsonTree :=
  Eval vm_compute in FieldOf (Parsed BonesOnlyDatagram) "S".
Definition BonesOnlyLocals : Locals := Eval vm_compute in DecodedSubject BonesOnlyValue.


(** The two bytes of U+00E9 in UTF-8. *)
Definition EAcute : list byte := [xc3; xa9].

(** A datagram whose subject is named by U+00E9: the bytes of
    [{"é":{}}] in UTF-8, and the text they encode. *)
Definition AccentDatagram : list byte :=
  [x7b; x22; xc3; xa9; x22; x3a; x7b; x7d; x7d].

Definition AccentText : FString := [123; 34; 233; 34; 58; 123; 125; 125].

(** A subject with a parameter and no "Bone" field. *)
Definition ParametersOnlyDatagram : list byte :=
  Datagram "{'P':{'Parameter':[{'Name':'blink','Value':0.5}]}}".

Definition ParametersOnlyValue : JsonTree :=
  Eval vm_compute in FieldOf (Parsed ParametersOnlyDatagram) "P".
Definition ParametersOnlyParameters : list JsonTree :=
  Eval vm_compute in ElementsOf (FieldOf (FieldsOf ParametersOnlyValue) "Parameter").
Definition ParametersOnlyLocals : Locals :=
  Eval vm_compute in DecodedSubject ParametersOnlyValue.

End Reference.

(* ================================================================== *)
(** ** The socket, the receiver thread and the life cycle of the source

    Lines 20-152 of the file: the constructor, the destructor,
    [ReceiveClient], [IsSourceStillValid], [RequestSourceShutdown],
    [Start], [Stop] and [Run].  What they use of the engine's sockets and
    threads is collected in the class [SocketApi].

    - A raw pointer ([FSocket*], [FRunnableThread*]) is null or points to
      an object: an [option].
    - [Run] is executed by the receiver thread while other threads call
      [Stop] and the socket answers; what the socket answers, and the
      iteration in which the thread first reads [Stopping] as true, are
      given to the model as a script. *)

(** [#define RECV_BUFFER_SIZE 1024 * 1024]; both uses are a whole
    argument, so the missing parentheses change nothing. *)
Definition RECV_BUFFER_SIZE : Z := 1024 * 1024.

(** [ESocketType]. *)
Inductive ESocketType : Type :=
| SOCKTYPE_Unknown
| SOCKTYPE_Datagram
| SOCKTYPE_Streaming.

(** The calls chained on an [FUdpSocketBuilder]. *)
Inductive BuilderCall (Address : Type) : Type :=
| AsNonBlocking
| AsReusable
| BoundToAddress (a : Address)
| BoundToPort (Port : Z)
| WithReceiveBufferSize (SizeInBytes : Z)
| JoinedToGroup (GroupAddress : Address)
| WithMulticastLoopback
| WithMulticastTtl (TimeToLive : Z).
Arguments AsNonBlocking {Address}.
Arguments AsReusable {Address}.
Arguments BoundToAddress {Address} a.
Arguments BoundToPort {Address} Port.
Arguments WithReceiveBufferSize {Address} SizeInBytes.
Arguments JoinedToGroup {Address} GroupAddress.
Arguments WithMulticastLoopback {Address}.
Arguments WithMulticastTtl {Address} TimeToLive.

(** [FText], by its source string. *)
Abbreviation FText := string.

(** [LOCTEXT(Key, SourceString)] without a localisation table. *)
Definition LOCTEXT (Key SourceString : string) : FText := SourceString.
Arguments LOCTEXT (Key SourceString)%_string.

Class SocketApi : Type := {
  FIPv4Address : Type;
  IsMulticastAddress : FIPv4Address -> bool;
  FIPv4Address_Any : FIPv4Address;
  FSocket : Type;
  (** The conversion of an [FUdpSocketBuilder] of the given description
      and chained calls to [FSocket*]: null when no socket is made. *)
  FUdpSocketBuilder :
    FString -> list (BuilderCall FIPv4Address) -> option FSocket;
  GetSocketType : FSocket -> ESocketType;
  FRunnableThread : Type;
  (** [FRunnableThread::Create(this, Name, StackSize, TPri_AboveNormal,
      FPlatformAffinity::GetPoolThreadMask())]: null when no thread is
      made. *)
  FRunnableThread_Create : FString -> Z -> option FRunnableThread;
  (** [FString::AppendInt]. *)
  AppendInt : FString -> Z -> FString;
}.

(** What one call of [Socket->RecvFrom(RecvBuffer.GetData(),
    RecvBuffer.Num(), Read, *Sender)] answers: its result, the value it
    leaves in [Read], and the bytes it stores from the start of the
    buffer. *)
Record RecvFromAnswer : Type := {
  Succeeded : bool;
  Read : Z;
  Written : list byte;
}.

(** One iteration of the outer loop of [Run]: [Socket->Wait] answers
    false, or it answers true and [Socket->HasPendingData] answers true
    once for each entry of [Pending] and then false. *)
Inductive Round : Type :=
| WaitTimesOut
| DataPending (Pending : list RecvFromAnswer).

Section Receiver.
Context `{Net : SocketApi}.

(** The members of [FJSONLiveLinkSource] that the functions of lines
    22-152 read or write; [WaitTime] in milliseconds. *)
Record ReceiverMembers : Type := {
  Socket : option FSocket;
  Stopping : bool;
  Thread : option FRunnableThread;
  WaitTime : Z;
  DeviceEndpoint : FIPv4Address * Z;
  SourceStatus : FText;
  SourceType : FText;
  SourceMachineName : FText;
  RecvBuffer : TArray byte;
  SocketSubsystem : bool;
  ThreadName : FString;
}.

Definition with_Socket (p : option FSocket) (this : ReceiverMembers)
    : ReceiverMembers :=
  {| Socket := p; Stopping := Stopping this; Thread := Thread this;
     WaitTime := WaitTime this; DeviceEndpoint := DeviceEndpoint this;
     SourceStatus := SourceStatus this; SourceType := SourceType this;
     SourceMachineName := SourceMachineName this;
     RecvBuffer := RecvBuffer this; SocketSubsystem := SocketSubsystem this;
     ThreadName := ThreadName this |}.

Definition with_Stopping (b : bool) (this : ReceiverMembers) : ReceiverMembers :=
  {| Socket := Socket this; Stopping := b; Thread := Thread this;
     WaitTime := WaitTime this; DeviceEndpoint := DeviceEndpoint this;
     SourceStatus := SourceStatus this; SourceType := SourceType this;
     SourceMachineName := SourceMachineName this;
     RecvBuffer := RecvBuffer this; SocketSubsystem := SocketSubsystem this;
     ThreadName := ThreadName this |}.

Definition with_Thread (p : option FRunnableThread) (this : ReceiverMembers)
    : ReceiverMembers :=
  {| Socket := Socket this; Stopping := Stopping this; Thread := p;
     WaitTime := WaitTime this; DeviceEndpoint := DeviceEndpoint this;
     SourceStatus := SourceStatus this; SourceType := SourceType this;
     SourceMachineName := SourceMachineName this;
     RecvBuffer := RecvBuffer this; SocketSubsystem := SocketSubsystem this;
     ThreadName := ThreadName this |}.

Definition with_SourceStatus (t : FText) (this : ReceiverMembers)
    : ReceiverMembers :=
  {| Socket := Socket this; Stopping := Stopping this; Thread := Thread this;
     WaitTime := WaitTime this; DeviceEndpoint := DeviceEndpoint this;
     SourceStatus := t; SourceType := SourceType this;
     SourceMachineName := SourceMachineName this;
     RecvBuffer := RecvBuffer this; SocketSubsystem := SocketSubsystem this;
     ThreadName := ThreadName this |}.

Definition with_RecvBuffer (a : TArray byte) (this : ReceiverMembers)
    : ReceiverMembers :=
  {| Socket := Socket this; Stopping := Stopping this; Thread := Thread this;
     WaitTime := WaitTime this; DeviceEndpoint := DeviceEndpoint this;
     SourceStatus := SourceStatus this; SourceType := SourceType this;
     SourceMachineName := SourceMachineName this;
     RecvBuffer := a; SocketSubsystem := SocketSubsystem this;
     ThreadName := ThreadName this |}.

Definition with_SocketSubsystem (b : bool) (this : ReceiverMembers)
    : ReceiverMembers :=
  {| Socket := Socket this; Stopping := Stopping this; Thread := Thread this;
     WaitTime := WaitTime this; DeviceEndpoint := DeviceEndpoint this;
     SourceStatus := SourceStatus this; SourceType := SourceType this;
     SourceMachineName := SourceMachineName this;
     RecvBuffer := RecvBuffer this; SocketSubsystem := b;
     ThreadName := ThreadName this |}.

Definition with_ThreadName (s : FString) (this : ReceiverMembers)
    : ReceiverMembers :=
  {| Socket := Socket this; Stopping := Stopping this; Thread := Thread this;
     WaitTime := WaitTime this; DeviceEndpoint := DeviceEndpoint this;
     SourceStatus := SourceStatus this; SourceType := SourceType this;
     SourceMachineName := SourceMachineName this;
     RecvBuffer := RecvBuffer this; SocketSubsystem := SocketSubsystem this;
     ThreadName := s |}.

(** Lines 119-122. *)
Definition Stop (this : ReceiverMembers) : ReceiverMembers :=
  with_Stopping true this.

(** Lines 111-117; [Index] is what [FAsyncThreadIndex::GetNext()]
    answers. *)
Definition Start (Index : Z) (this : ReceiverMembers) : ReceiverMembers :=
  let this := with_ThreadName (TEXT "JSON UDP Receiver ") this in
  let this := with_ThreadName (AppendInt (ThreadName this) Index) this in
  with_Thread (FRunnableThread_Create (ThreadName this) (128 * 1024)) this.

(** Lines 95-100. *)
Definition IsSourceStillValid (this : ReceiverMembers) : bool :=
  let bIsSourceValid :=
    negb (Stopping this) && bool_decide (Thread this <> None)
    && bool_decide (Socket this <> None) in
  bIsSourceValid.

(** Lines 103-108: the members after the call, and the result. *)
Definition RequestSourceShutdown (this : ReceiverMembers)
    : ReceiverMembers * bool :=
  let this := Stop this in
  (this, true).

(** Lines 36-58: the socket the constructor asks for. *)
Definition SocketFor (DeviceEndpoint : FIPv4Address * Z) : option FSocket :=
  if IsMulticastAddress DeviceEndpoint.1 then
    FUdpSocketBuilder (TEXT "JSONSOCKET")
      [AsNonBlocking; AsReusable; BoundToPort DeviceEndpoint.2;
       WithReceiveBufferSize RECV_BUFFER_SIZE;
       BoundToAddress FIPv4Address_Any; JoinedToGroup DeviceEndpoint.1;
       WithMulticastLoopback; WithMulticastTtl 2]
  else
    FUdpSocketBuilder (TEXT "JSONSOCKET")
      [AsNonBlocking; AsReusable; BoundToAddress DeviceEndpoint.1;
       BoundToPort DeviceEndpoint.2; WithReceiveBufferSize RECV_BUFFER_SIZE].

(** Lines 22-70: the constructor.  The members it does not name are
    default constructed, the pointer [SocketSubsystem] is not set. *)
Definition Construct (InEndpoint : FIPv4Address * Z) (Index : Z)
    : ReceiverMembers :=
  let this :=
    {| Socket := None; Stopping := false; Thread := None; WaitTime := 100;
       DeviceEndpoint := InEndpoint;
       SourceStatus := LOCTEXT "SourceStatus_DeviceNotFound" "Device Not Found";
       SourceType := LOCTEXT "JSONLiveLinkSourceType" "JSON LiveLink";
       SourceMachineName := LOCTEXT "JSONLiveLinkSourceMachineName" "localhost";
       RecvBuffer := []; SocketSubsystem := false; ThreadName := [] |} in
  let this := with_Socket (SocketFor (DeviceEndpoint this)) this in
  let this :=
    with_RecvBuffer (SetNumUninitialized (Z.to_nat RECV_BUFFER_SIZE)) this in
  match Socket this with
  | Some s =>
      match GetSocketType s with
      | SOCKTYPE_Datagram =>
          let this := with_SocketSubsystem true this in
          let this := Start Index this in
          with_SourceStatus (LOCTEXT "SourceStatus_Receiving" "Receiving") this
      | _ => this
      end
  | None => this
  end.

(** The calls the destructor makes on the thread and on the socket. *)
Inductive EngineCall : Type :=
| Thread_WaitForCompletion (t : FRunnableThread)
| Thread_delete (t : FRunnableThread)
| Socket_Close (s : FSocket)
| DestroySocket (s : FSocket).

(** Lines 72-86: the destructor. *)
Definition Destruct (this : ReceiverMembers) : ReceiverMembers * list EngineCall :=
  let this := Stop this in
  let '(this, calls) :=
    match Thread this with
    | Some t =>
        (with_Thread None this, [Thread_WaitForCompletion t; Thread_delete t])
    | None => (this, [])
    end in
  match Socket this with
  | Some s => (this, calls ++ [Socket_Close s; DestroySocket s])
  | None => (this, calls)
  end.

(** What [RecvFrom] leaves in the buffer: at most [RecvBuffer.Num()]
    bytes are stored, the slots behind them keep what they had. *)
Definition RecvFrom (RecvBuffer : TArray byte) (a : RecvFromAnswer)
    : TArray byte :=
  (Some <$> take (length RecvBuffer) (Written a))
  ++ drop (length (Written a)) RecvBuffer.

(** The array whose slots hold the given bytes. *)
Definition Filled (bytes : list byte) : TArray byte := Some <$> bytes.

(** [memcpy(dst.GetData(), src.GetData(), n)]: the first [n] slots of
    [src] replace those of [dst]; both arrays have to hold [n] slots. *)
Definition memcpy (dst src : TArray byte) (n : nat) : Flow (TArray byte) :=
  if decide (n <= length dst /\ n <= length src)%nat
  then Normal (take n src ++ drop n dst)
  else Fault.

(** Lines 135-146: the loop [while (Socket->HasPendingData(Size))];
    [Queue] holds the arrays handed to [AsyncTask], oldest first. *)
Fixpoint Drain (Pending : list RecvFromAnswer) (RecvBuffer : TArray byte)
    (Queue : list (TArray byte)) : Flow (TArray byte * list (TArray byte)) :=
  match Pending with
  | [] => Normal (RecvBuffer, Queue)
  | a :: Pending' =>
      let RecvBuffer := RecvFrom RecvBuffer a in
      if Succeeded a then
        if 0 <? Read a then
          let ReceivedData := SetNumUninitialized (Z.to_nat (Read a)) in
          ReceivedData ← memcpy ReceivedData RecvBuffer (Z.to_nat (Read a));
          Drain Pending' RecvBuffer (Queue ++ [ReceivedData])
        else Drain Pending' RecvBuffer Queue
      else Drain Pending' RecvBuffer Queue
  end.

(** Lines 128-149: the iterations of [while (!Stopping)] in which
    [Stopping] is read as false. *)
Fixpoint Rounds (rounds : list Round) (Socket : option FSocket)
    (RecvBuffer : TArray byte) (Queue : list (TArray byte))
    : Flow (TArray byte * list (TArray byte)) :=
  match rounds with
  | [] => Normal (RecvBuffer, Queue)
  | r :: rounds' =>
      _ ← deref Socket;
      match r with
      | WaitTimesOut => Rounds rounds' Socket RecvBuffer Queue
      | DataPending Pending =>
          st ← Drain Pending RecvBuffer Queue;
          Rounds rounds' Socket st.1 st.2
      end
  end.

(** Lines 124-152.  When [Stopping] is set at the call the loop is not
    entered; otherwise [rounds] are its iterations, after which the
    thread reads [Stopping] as true, another thread having called
    [Stop].  The result is the value returned, the members and the queue
    of the game thread. *)
Definition Run (rounds : list Round) (this : ReceiverMembers)
    (Queue : list (TArray byte))
    : Flow (Z * ReceiverMembers * list (TArray byte)) :=
  _ ← (if SocketSubsystem this then Normal tt else Fault);
  if Stopping this then Normal (0, this, Queue)
  else
    st ← Rounds rounds (Socket this) (RecvBuffer this) Queue;
    Normal (0, Stop (with_RecvBuffer st.1 this), st.2).

(** The answers of [RecvFrom] in a script, in order. *)
Definition AnswersOf (rounds : list Round) : list RecvFromAnswer :=
  flat_map (fun r => match r with WaitTimesOut => [] | DataPending p => p end)
           rounds.

(** The datagram of an answer that [Run] hands on. *)
Definition PayloadOf (a : RecvFromAnswer) : option (list byte) :=
  if Succeeded a && (0 <? Read a) then Some (Written a) else None.

Definition Payloads (rounds : list Round) : list (list byte) :=
  omap PayloadOf (AnswersOf rounds).

(** What the engine promises of [RecvFrom] on a buffer of [BufferSize]
    bytes: a call that succeeds leaves in [Read] the number of bytes it
    stored, at most [BufferSize]. *)
Definition RecvFrom_contract (BufferSize : Z) (a : RecvFromAnswer) : Prop :=
  Succeeded a = true ->
  Read a = Z.of_nat (length (Written a)) /\ Read a <= BufferSize.

End Receiver.

(* ================================================================== *)
(** ** The source as a whole *)

Section Source.
Context `{Api : UnrealApi}.

(** Lines 88-92; the client itself is the receiver of the effects. *)
Definition ReceiveClient (InSourceGuid : FGuid) (this : FJSONLiveLinkSource)
    : FJSONLiveLinkSource :=
  {| SourceGuid := InSourceGuid;
     EncounteredSubjects := EncounteredSubjects this |}.

(** The source an effect is pushed for. *)
Definition SourceOf (e : Effect) : option FGuid :=
  match e with
  | PushSubjectStaticData_AnyThread g _ _ _ => Some g
  | EncounteredSubjects_Add _ => None
  | PushSubjectFrameData_AnyThread g _ _ => Some g
  end.

(** The tasks [Run] hands to the game thread, executed one after the
    other in the order they were queued; a fault ends the program. *)
Fixpoint GameThread (Queue : list (list byte)) (this : FJSONLiveLinkSource)
    : Outcome :=
  match Queue with
  | [] => {| Source_after := this; Effects := []; Exit := Normal tt |}
  | ReceivedData :: Queue' =>
      let r := HandleReceivedData ReceivedData this in
      match Exit r with
      | Fault => r
      | _ =>
          let r' := GameThread Queue' (Source_after r) in
          {| Source_after := Source_after r';
             Effects := Effects r ++ Effects r';
             Exit := Exit r' |}
      end
  end.

Context `{Net : SocketApi}.

(** Both groups of members. *)
Record SourceObject : Type := {
  Receiver : ReceiverMembers;
  Decoder : FJSONLiveLinkSource;
}.

(** A call of a member function after the constructor. *)
Inductive MethodCall : Type :=
| Call_ReceiveClient (InSourceGuid : FGuid)
| Call_RequestSourceShutdown
| Call_Start (Index : Z)
| Call_Stop
| Call_Run (rounds : list Round)
| Call_HandleReceivedData (ReceivedData : list byte).

Definition Invoke (this : SourceObject) (c : MethodCall) : SourceObject :=
  match c with
  | Call_ReceiveClient g =>
      {| Receiver := Receiver this; Decoder := ReceiveClient g (Decoder this) |}
  | Call_RequestSourceShutdown =>
      {| Receiver := (RequestSourceShutdown (Receiver this)).1;
         Decoder := Decoder this |}
  | Call_Start Index =>
      {| Receiver := Start Index (Receiver this); Decoder := Decoder this |}
  | Call_Stop => {| Receiver := Stop (Receiver this); Decoder := Decoder this |}
  | Call_Run rounds =>
      match Run rounds (Receiver this) [] with
      | Normal r => {| Receiver := r.1.2; Decoder := Decoder this |}
      | _ => this
      end
  | Call_HandleReceivedData ReceivedData =>
      {| Receiver := Receiver this;
         Decoder := Source_after (HandleReceivedData ReceivedData (Decoder this)) |}
  end.

Definition InvokeAll (this : SourceObject) (calls : list MethodCall)
    : SourceObject :=
  fold_left Invoke calls this.

End Source.

(* ================================================================== *)
(** ** A reference implementation of the sockets and threads

    A socket is the description and the calls it was built with, a thread
    is its name; whether the builder makes a socket, of which type, and
    whether a thread is made, are parameters. *)

Module ReferenceNet.

Definition ref_IsMulticastAddress (a : Z * Z * Z * Z) : bool :=
  (224 <=? a.1.1.1) && (a.1.1.1 <=? 239).

Definition DigitsOf (n : Z) : FString :=
  TEXT (DecimalString.NilZero.string_of_int (Z.to_int n)).

Definition NetWith (builds : bool) (type : ESocketType) (creates : bool)
    : SocketApi := {|
  FIPv4Address := Z * Z * Z * Z;
  IsMulticastAddress := ref_IsMulticastAddress;
  FIPv4Address_Any := (0, 0, 0, 0);
  FSocket := FString * list (BuilderCall (Z * Z * Z * Z));
  FUdpSocketBuilder := fun Description calls =>
    if builds then Some (Description, calls) else None;
  GetSocketType := fun _ => type;
  FRunnableThread := FString;
  FRunnableThread_Create := fun Name _ => if creates then Some Name else None;
  AppendInt := fun s n => s ++ DigitsOf n;
|}.

(** Sockets and threads are made. *)
Definition Net : SocketApi := NetWith true SOCKTYPE_Datagram true.

(** Sockets are made, threads are not. *)
Definition NoThreadNet : SocketApi := NetWith true SOCKTYPE_Datagram false.

(** A multicast and a unicast endpoint. *)
Definition MulticastEndpoint : Z * Z * Z * Z * Z := ((239, 255, 0, 1), 54321).
Definition UnicastEndpoint : Z * Z * Z * Z * Z := ((127, 0, 0, 1), 54321).

(** Two datagrams between a read of no bytes and a failed read. *)
Definition TwoDatagrams : list Round :=
  [WaitTimesOut;
   DataPending
     [{| Succeeded := true; Read := 2; Written := Reference.Datagram "{}" |};
      {| Succeeded := true; Read := 0; Written := [] |};
      {| Succeeded := false; Read := 0; Written := [] |}];
   DataPending
     [{| Succeeded := true; Read := 8;
         Written := Reference.Datagram "{'A':{}}" |}]].

(** A source with a socket, a receive buffer of eight bytes and no
    thread. *)
Definition SmallSource : ReceiverMembers (Net := Net) :=
  @Build_ReceiverMembers Net
    (Some (TEXT "JSONSOCKET", [])) false None 100 UnicastEndpoint
    "Receiving" "JSON LiveLink" "localhost" (replicate 8 None) true [].

(** What [Run] leaves of [SmallSource] and in the queue after
    [TwoDatagrams]. *)
Definition SmallSourceAfter : ReceiverMembers (Net := Net) :=
  Eval vm_compute in
    match Run (Net := Net) TwoDatagrams SmallSource [] with
    | Normal r => r.1.2
    | _ => SmallSource
    end.

Definition SmallQueue : list (TArray byte) :=
  Eval vm_compute in
    match Run (Net := Net) TwoDatagrams SmallSource [] with
    | Normal r => r.2
    | _ => []
    end.

End ReferenceNet.

(* ================================================================== *)
(** ** Loops and arrays *)

Lemma is_Normal_true {A} (m : Flow A) : is_Normal m = true -> exists a, m = Normal a.
Proof. destruct m; simpl; intros; eauto; discriminate. Qed.

Lemma bind_not_Fault {A B} (m : Flow A) (f : A -> Flow B) :
  m <> Fault -> (forall a, m = Normal a -> f a <> Fault) -> m ≫= f <> Fault.
Proof. destruct m; simpl; intros; auto; discriminate. Qed.

Lemma deref_not_Fault {T} (p : TSharedPtr T) : p <> None -> deref p <> Fault.
Proof. destruct p; simpl; congruence. Qed.

(** A loop whose state after [j] iterations is [St j]: it ends the way
    the verdicts of its iterations say. *)
Lemma for_loop_states {S} (body : nat -> S -> Flow S) (St : nat -> S)
    (verdict : nat -> Flow unit) (n i : nat) :
  (forall j, (i <= j < i + n)%nat ->
     body j (St j) = (fun _ => St (Datatypes.S j)) <$> verdict j) ->
  for_loop body i n (St i)
  = (fun _ => St (i + n)%nat) <$> for_loop (fun j _ => verdict j) i n tt.
Proof.
  revert i. induction n as [|n IH]; intros i Hbody; simpl.
  - by rewrite Nat.add_0_r.
  - rewrite Hbody by lia.
    destruct (verdict i) as [[]| |]; simpl; try reflexivity.
    rewrite IH by (intros; apply Hbody; lia).
    by replace (Datatypes.S i + n)%nat with (i + Datatypes.S n)%nat by lia.
Qed.

Lemma verdicts_Normal (verdict : nat -> Flow unit) (n i : nat) :
  for_loop (fun j _ => verdict j) i n tt = Normal tt
  <-> forall j, (i <= j < i + n)%nat -> verdict j = Normal tt.
Proof.
  revert i. induction n as [|n IH]; intros i; simpl.
  - split; [intros _ j ?; lia | done].
  - split.
    + intros H j Hj. destruct (verdict i) as [[]| |] eqn:E; simpl in H; try done.
      destruct (decide (j = i)) as [->|]; [done|].
      apply (proj1 (IH _) H). lia.
    + intros H. rewrite (H i) by lia. simpl. apply IH. intros; apply H; lia.
Qed.

Lemma verdicts_not_Fault (verdict : nat -> Flow unit) (n i : nat) :
  (forall j, (i <= j < i + n)%nat -> verdict j <> Fault) ->
  for_loop (fun j _ => verdict j) i n tt <> Fault.
Proof.
  revert i. induction n as [|n IH]; intros i H; simpl; [done|].
  apply bind_not_Fault; [apply H; lia|].
  intros [] _. apply IH. intros; apply H; lia.
Qed.

Lemma ArraySet_Normal {T} (arr : TArray T) i v :
  (i < length arr)%nat -> ArraySet arr i v = Normal (<[i := Some v]> arr).
Proof. intros. unfold ArraySet. by rewrite decide_True. Qed.

Lemma ArrayGet_Normal {T} (arr : list T) i x :
  arr !! i = Some x -> ArrayGet arr i = Normal x.
Proof. intros H. unfold ArrayGet. by rewrite H. Qed.

Lemma ArrayGet_lt {T} (arr : list T) i :
  (i < length arr)%nat -> exists x, arr !! i = Some x /\ ArrayGet arr i = Normal x.
Proof.
  intros H. destruct (lookup_lt_is_Some_2 arr i H) as [x Hx].
  exists x. split; [done|]. by apply ArrayGet_Normal.
Qed.

Lemma slots_0 {A B} (f : A -> Flow B) l n tail :
  slots f l 0 n tail = replicate n None ++ tail.
Proof. unfold slots. by rewrite take_0, Nat.sub_0_r. Qed.

Lemma slots_length {A B} (f : A -> Flow B) l j n tail :
  (j <= n)%nat -> (j <= length l)%nat ->
  length (slots f l j n tail) = (n + length tail)%nat.
Proof.
  intros. unfold slots.
  rewrite !length_app, length_fmap, length_take, length_replicate. lia.
Qed.

Lemma slots_full {A B} (f : A -> Flow B) l tail :
  slots f l (length l) (length l) tail
  = ((fun x => flow_option (f x)) <$> l) ++ tail.
Proof. unfold slots. by rewrite firstn_all, Nat.sub_diag. Qed.

(** Writing slot [j] from entry [j]. *)
Lemma slots_step {A B} (f : A -> Flow B) l j n tail x y :
  l !! j = Some x -> f x = Normal y -> (j < n)%nat ->
  <[j := Some y]> (slots f l j n tail) = slots f l (Datatypes.S j) n tail.
Proof.
  intros Hx Hy Hj. unfold slots.
  assert (length ((fun x => flow_option (f x)) <$> take j l) = j) as Hlen.
  { rewrite length_fmap, length_take. apply lookup_lt_Some in Hx. lia. }
  rewrite insert_app_r_alt by lia. rewrite Hlen, Nat.sub_diag.
  replace (n - j)%nat with (Datatypes.S (n - Datatypes.S j)) by lia.
  simpl. rewrite (take_S_r _ _ _ Hx), fmap_app. simpl. rewrite Hy. simpl.
  by rewrite <- app_assoc.
Qed.

(* ================================================================== *)
(** ** The four loops of one subject *)

Section Loops.
Context `{Api : UnrealApi}.

Lemma BoneNamesBody_step BoneArray L j :
  (j < length BoneArray)%nat ->
  BoneNamesBody BoneArray j (AfterBoneNames BoneArray L j)
  = (fun _ => AfterBoneNames BoneArray L (S j)) <$> BoneNamesVerdict BoneArray j.
Proof.
  intros Hj. unfold BoneNamesBody, BoneNamesVerdict.
  destruct (ArrayGet_lt BoneArray j Hj) as (Bone & HBone & ->). simpl.
  unfold BoneNameOf, BoneParentOf.
  destruct (AsObject Bone) as [BoneObject|] eqn:HO; simpl; [|done].
  destruct (TryGetStringField BoneObject (TEXT "Name")) as [BoneName|] eqn:HN;
    simpl; [|done].
  rewrite ArraySet_Normal by (rewrite slots_length; simpl; lia). simpl.
  destruct (TryGetNumberField_int32 BoneObject (TEXT "Parent")) as [p|] eqn:HP;
    simpl; [|done].
  rewrite ArraySet_Normal by (rewrite slots_length; simpl; lia). simpl.
  unfold AfterBoneNames, with_BoneParents, with_BoneNames. simpl. do 3 f_equal.
  - f_equal. apply (slots_step BoneNameOf _ _ _ _ Bone); [done| |done].
    unfold BoneNameOf. by rewrite HO; simpl; rewrite HN.
  - apply (slots_step BoneParentOf _ _ _ _ Bone); [done| |done].
    unfold BoneParentOf. by rewrite HO; simpl; rewrite HP.
Qed.

Lemma AfterBoneTransforms_S BoneArray L j Bone t q :
  BoneArray !! j = Some Bone -> TransformOf Bone = Normal t ->
  RotationOf Bone = Normal q ->
  AfterBoneTransforms BoneArray L (S j)
  = with_head3 (HeadAnglesOf q)
      (with_Transforms
         (<[j := Some t]> (slots TransformOf BoneArray j (length BoneArray) []))
         (AfterBoneNames BoneArray L (length BoneArray))).
Proof.
  intros HBone Ht Hq. unfold AfterBoneTransforms.
  rewrite (slots_step TransformOf _ _ _ _ _ _ HBone Ht)
    by (by eapply lookup_lt_Some).
  unfold HeadAfter. by rewrite HBone, Hq.
Qed.

Lemma BoneTransformsBody_step BoneArray L j :
  (j < length BoneArray)%nat ->
  BoneTransformsBody BoneArray j (AfterBoneTransforms BoneArray L j)
  = (fun _ => AfterBoneTransforms BoneArray L (S j))
    <$> BoneTransformsVerdict BoneArray j.
Proof.
  intros Hj. unfold BoneTransformsBody, BoneTransformsVerdict.
  destruct (ArrayGet_lt BoneArray j Hj) as (Bone & HBone & ->). simpl.
  pose proof (AfterBoneTransforms_S BoneArray L j Bone) as Hnext.
  unfold TransformOf, VectorOf, RotationOf in Hnext |- *.
  destruct (AsObject Bone) as [BoneObject|]; simpl in *; [|done].
  destruct (TryGetArrayOfNum BoneObject (TEXT "Location") 3) as [la|];
    simpl in *; [|done].
  destruct (ArrayGet la 0) as [X| |]; simpl in *; try done.
  destruct (ArrayGet la 1) as [Y| |]; simpl in *; try done.
  destruct (ArrayGet la 2) as [Z_| |]; simpl in *; try done.
  destruct (TryGetArrayOfNum BoneObject (TEXT "Rotation") 4) as [ra|];
    simpl in *; [|done].
  destruct (ArrayGet ra 0) as [qx| |]; simpl in *; try done.
  destruct (ArrayGet ra 1) as [qy| |]; simpl in *; try done.
  destruct (ArrayGet ra 2) as [qz| |]; simpl in *; try done.
  destruct (ArrayGet ra 3) as [qw| |]; simpl in *; try done.
  destruct (TryGetArrayOfNum BoneObject (TEXT "Scale") 3) as [sa|];
    simpl in *; [|done].
  destruct (ArrayGet sa 0) as [X'| |]; simpl in *; try done.
  destruct (ArrayGet sa 1) as [Y'| |]; simpl in *; try done.
  destruct (ArrayGet sa 2) as [Z'| |]; simpl in *; try done.
  rewrite ArraySet_Normal by (rewrite slots_length; simpl; lia).
  by rewrite (Hnext _ _ HBone eq_refl eq_refl).
Qed.

Lemma ParameterNamesBody_step ParameterArray L j :
  (j < length ParameterArray)%nat ->
  ParameterNamesBody ParameterArray j (AfterParameterNames ParameterArray L j)
  = (fun _ => AfterParameterNames ParameterArray L (S j))
    <$> ParameterNamesVerdict ParameterArray j.
Proof.
  intros Hj. unfold ParameterNamesBody, ParameterNamesVerdict.
  destruct (ArrayGet_lt ParameterArray j Hj) as (param & Hparam & ->). simpl.
  pose proof (slots_step ParameterNameOf ParameterArray j (length ParameterArray)
                HeadNames param) as Hstep.
  unfold ParameterNameOf.
  destruct (AsObject param) as [paramobject|] eqn:HO; simpl; [|done].
  destruct (TryGetStringField paramobject (TEXT "Name")) as [n|] eqn:HN;
    simpl; [|done].
  rewrite ArraySet_Normal by (rewrite slots_length; simpl; lia). simpl.
  unfold AfterParameterNames, with_PropertyNames. simpl.
  erewrite Hstep; [done|done| |done].
  unfold ParameterNameOf. rewrite HO. simpl. by rewrite HN.
Qed.

Lemma ParameterValuesBody_step ParameterArray L j :
  (j < length ParameterArray)%nat ->
  ParameterValuesBody ParameterArray j (AfterParameterValues ParameterArray L j)
  = (fun _ => AfterParameterValues ParameterArray L (S j))
    <$> ParameterValuesVerdict ParameterArray j.
Proof.
  intros Hj. unfold ParameterValuesBody, ParameterValuesVerdict.
  destruct (ArrayGet_lt ParameterArray j Hj) as (param & Hparam & ->). simpl.
  pose proof (slots_step ParameterValueOf ParameterArray j (length ParameterArray)
                (HeadValues L) param) as Hstep.
  unfold ParameterValueOf.
  destruct (AsObject param) as [paramObject|] eqn:HO; simpl; [|done].
  destruct (TryGetNumberField_double paramObject (TEXT "Value")) as [v|] eqn:HV;
    simpl; [|done].
  rewrite ArraySet_Normal by (rewrite slots_length; simpl; lia). simpl.
  unfold AfterParameterValues, with_PropertyValues. simpl.
  erewrite Hstep; [done|done| |done].
  unfold ParameterValueOf. rewrite HO. simpl. by rewrite HV.
Qed.

Lemma replicate_3_tail {T} (n : nat) :
  @replicate (option T) (n + 3) None = replicate n None ++ [None; None; None].
Proof. by rewrite replicate_add. Qed.

Lemma insert_replicate_tail {T} (n i : nat) (v : option T) tail :
  <[(n + i)%nat := v]> (replicate n None ++ tail)
  = replicate n None ++ <[i := v]> tail.
Proof.
  rewrite insert_app_r_alt by (rewrite length_replicate; lia).
  rewrite length_replicate. by replace (n + i - n)%nat with i by lia.
Qed.

Lemma prefill_tail {T} (n : nat) (a b c : T) :
  <[(n + 2)%nat := Some c]>
    (<[(n + 1)%nat := Some b]>
       (<[n := Some a]> (replicate n None ++ [None; None; None])))
  = replicate n None ++ [Some a; Some b; Some c].
Proof.
  replace n with (n + 0)%nat at 3 by lia.
  by rewrite !insert_replicate_tail.
Qed.

Lemma DecodeBones_eq MyJsonObject L :
  DecodeBones MyJsonObject L
  = (fun _ => DecodedBones MyJsonObject L) <$> BonesVerdict MyJsonObject.
Proof.
  unfold DecodeBones, DecodedBones, BonesVerdict.
  destruct (TryGetArrayField MyJsonObject (TEXT "Bone")) as [BoneArray|]; [|done].
  set (Num := length BoneArray).
  assert (with_Transforms (SetNumUninitialized Num)
            (with_BoneParents (SetNumUninitialized Num)
               (with_BoneNames (SetNumUninitialized Num) L))
          = AfterBoneNames BoneArray L 0) as ->.
  { unfold AfterBoneNames. rewrite !slots_0, !app_nil_r. reflexivity. }
  cbv zeta.
  rewrite (for_loop_states _ (AfterBoneNames BoneArray L)
             (BoneNamesVerdict BoneArray))
    by (intros; apply BoneNamesBody_step; lia).
  destruct (for_loop (fun j _ => BoneNamesVerdict BoneArray j) 0 Num tt)
    as [[]| |]; simpl; try done.
  assert (AfterBoneNames BoneArray L Num = AfterBoneTransforms BoneArray L 0) as ->.
  { unfold AfterBoneTransforms, AfterBoneNames. rewrite !slots_0, !app_nil_r.
    reflexivity. }
  rewrite (for_loop_states _ (AfterBoneTransforms BoneArray L)
             (BoneTransformsVerdict BoneArray))
    by (intros; apply BoneTransformsBody_step; lia).
  done.
Qed.

Lemma DecodeParameters_eq MyJsonObject L :
  DecodeParameters MyJsonObject L
  = (fun _ => DecodedParameters MyJsonObject L) <$> ParametersVerdict MyJsonObject.
Proof.
  unfold DecodeParameters, DecodedParameters, ParametersVerdict.
  destruct (TryGetArrayField MyJsonObject (TEXT "Parameter"))
    as [ParameterArray|]; [|done].
  set (n := length ParameterArray). cbv zeta. simpl.
  unfold SetNumUninitialized. rewrite !replicate_3_tail.
  rewrite !ArraySet_Normal by (rewrite length_app, length_replicate; simpl; lia).
  simpl.
  rewrite !ArraySet_Normal
    by (rewrite ?length_insert, length_app, length_replicate; simpl; lia).
  simpl.
  rewrite !ArraySet_Normal
    by (rewrite ?length_insert, length_app, length_replicate; simpl; lia).
  simpl.
  match goal with |- for_loop _ _ _ ?L0 ≫= _ = _ =>
    assert (L0 = AfterParameterNames ParameterArray L 0) as ->
  end.
  { unfold AfterParameterNames, with_PropertyNames, with_PropertyValues. simpl.
    rewrite !slots_0, !prefill_tail. reflexivity. }
  rewrite (for_loop_states _ (AfterParameterNames ParameterArray L)
             (ParameterNamesVerdict ParameterArray))
    by (intros; apply ParameterNamesBody_step; lia).
  destruct (for_loop (fun j _ => ParameterNamesVerdict ParameterArray j) 0 n tt)
    as [[]| |]; simpl; try done.
  assert (AfterParameterNames ParameterArray L n
          = AfterParameterValues ParameterArray L 0) as ->.
  { unfold AfterParameterValues, AfterParameterNames. reflexivity. }
  rewrite (for_loop_states _ (AfterParameterValues ParameterArray L)
             (ParameterValuesVerdict ParameterArray))
    by (intros; apply ParameterValuesBody_step; lia).
  done.
Qed.

(** [DecodeSubject] ends as the verdict says, and when it runs to its end
    the locals are [DecodedSubject]. *)
Lemma DecodeSubject_eq Value :
  DecodeSubject Value = (fun _ => DecodedSubject Value) <$> SubjectVerdict Value.
Proof.
  unfold DecodeSubject, DecodedSubject, SubjectVerdict, Decoded.
  destruct (AsObject Value) as [MyJsonObject|]; simpl; [|done].
  rewrite DecodeBones_eq.
  destruct (BonesVerdict MyJsonObject) as [[]| |]; simpl; try done.
  by rewrite DecodeParameters_eq.
Qed.

Lemma DecodeSubject_Normal Value L :
  DecodeSubject Value = Normal L
  <-> SubjectVerdict Value = Normal tt /\ L = DecodedSubject Value.
Proof.
  rewrite DecodeSubject_eq.
  destruct (SubjectVerdict Value) as [[]| |]; simpl; split;
    try (intros [? ?]); try intros ?; try done; try split; congruence.
Qed.

(** *** The verdict of a loop, from the verdicts of the entries *)

Lemma entries_Normal {A} (l : list A) (f : A -> Flow unit) :
  for_loop (fun j _ => x ← ArrayGet l j; f x) 0 (length l) tt = Normal tt
  <-> forall x, x ∈ l -> f x = Normal tt.
Proof.
  rewrite verdicts_Normal. split.
  - intros H x Hx. apply list_elem_of_lookup in Hx as [j Hj].
    specialize (H j). rewrite (ArrayGet_Normal _ _ _ Hj) in H. apply H.
    apply lookup_lt_Some in Hj. lia.
  - intros H j Hj. destruct (ArrayGet_lt l j) as (x & Hx & ->); [lia|].
    apply H. apply list_elem_of_lookup. eauto.
Qed.

Lemma entries_not_Fault {A} (l : list A) (f : A -> Flow unit) :
  (forall x, x ∈ l -> f x <> Fault) ->
  for_loop (fun j _ => x ← ArrayGet l j; f x) 0 (length l) tt <> Fault.
Proof.
  intros H. apply verdicts_not_Fault. intros j Hj.
  destruct (ArrayGet_lt l j) as (x & Hx & ->); [lia|].
  apply H. apply list_elem_of_lookup. eauto.
Qed.

Lemma TryGetArrayOfNum_Some o Field n a :
  TryGetArrayOfNum o Field n = Some a
  <-> TryGetArrayField o Field = Some a /\ length a = n.
Proof.
  unfold TryGetArrayOfNum. destruct (TryGetArrayField o Field) as [a'|].
  - destruct (decide (length a' = n)) as [Hn|Hn]; split.
    + by intros [= <-].
    + by intros [[= <-] _].
    + done.
    + intros [[= <-] ?]. done.
  - split; [done|]. by intros [? _].
Qed.

Lemma BoneNameOf_Normal Bone n :
  BoneNameOf Bone = Normal n
  <-> exists BoneObject BoneName,
        AsObject Bone = Some BoneObject
        /\ TryGetStringField BoneObject (TEXT "Name") = Some BoneName
        /\ n = MakeFName BoneName.
Proof.
  unfold BoneNameOf. destruct (AsObject Bone) as [o|]; simpl.
  - destruct (TryGetStringField o (TEXT "Name")) as [s|] eqn:E; split.
    + intros [= <-]. eauto.
    + intros (? & ? & [= <-] & E' & ->). congruence.
    + done.
    + intros (? & ? & [= <-] & E' & _). congruence.
  - split; [done|]. intros (? & ? & ? & _). done.
Qed.

Lemma BoneParentOf_Normal Bone p :
  BoneParentOf Bone = Normal p
  <-> exists BoneObject,
        AsObject Bone = Some BoneObject
        /\ TryGetNumberField_int32 BoneObject (TEXT "Parent") = Some p.
Proof.
  unfold BoneParentOf. destruct (AsObject Bone) as [o|]; simpl.
  - destruct (TryGetNumberField_int32 o (TEXT "Parent")) as [s|] eqn:E; split.
    + intros [= <-]. eauto.
    + intros (? & [= <-] & E'). congruence.
    + done.
    + intros (? & [= <-] & E'). congruence.
  - split; [done|]. intros (? & ? & _). done.
Qed.

Lemma ParameterNameOf_Normal param n :
  ParameterNameOf param = Normal n
  <-> exists paramobject parameterName,
        AsObject param = Some paramobject
        /\ TryGetStringField paramobject (TEXT "Name") = Some parameterName
        /\ n = MakeFName parameterName.
Proof. apply BoneNameOf_Normal. Qed.

Lemma ParameterValueOf_Normal param x :
  ParameterValueOf param = Normal x
  <-> exists paramObject value,
        AsObject param = Some paramObject
        /\ TryGetNumberField_double paramObject (TEXT "Value") = Some value
        /\ x = float_cast value.
Proof.
  unfold ParameterValueOf. destruct (AsObject param) as [o|]; simpl.
  - destruct (TryGetNumberField_double o (TEXT "Value")) as [s|] eqn:E; split.
    + intros [= <-]. eauto.
    + intros (? & ? & [= <-] & E' & ->). congruence.
    + done.
    + intros (? & ? & [= <-] & E' & _). congruence.
  - split; [done|]. intros (? & ? & ? & _). done.
Qed.

Lemma RotationOf_Normal Bone q :
  RotationOf Bone = Normal q
  <-> exists BoneObject x y z w,
        AsObject Bone = Some BoneObject
        /\ TryGetArrayField BoneObject (TEXT "Rotation") = Some [x; y; z; w]
        /\ q = (AsNumber x, AsNumber y, AsNumber z, AsNumber w).
Proof.
  unfold RotationOf. destruct (AsObject Bone) as [o|]; simpl.
  2:{ split; [done|]. intros (? & ? & ? & ? & ? & ? & _). done. }
  destruct (TryGetArrayOfNum o (TEXT "Rotation") 4) as [a|] eqn:Ha.
  - apply TryGetArrayOfNum_Some in Ha as [Ha Hlen].
    destruct a as [|x [|y [|z [|w [|]]]]]; simplify_eq/=. split.
    + intros [= <-]. by exists o, x, y, z, w.
    + intros (? & ? & ? & ? & ? & [= <-] & Hr & ->). by simplify_eq.
  - split; [done|]. intros (? & x & y & z & w & [= <-] & Hr & _).
    assert (TryGetArrayOfNum o (TEXT "Rotation") 4 = Some [x; y; z; w]) as E
      by (by apply TryGetArrayOfNum_Some). congruence.
Qed.

Lemma TransformOf_is_Normal Bone :
  is_Normal (TransformOf Bone) = true
  <-> exists BoneObject l r s,
        AsObject Bone = Some BoneObject
        /\ TryGetArrayOfNum BoneObject (TEXT "Location") 3 = Some l
        /\ TryGetArrayOfNum BoneObject (TEXT "Rotation") 4 = Some r
        /\ TryGetArrayOfNum BoneObject (TEXT "Scale") 3 = Some s.
Proof.
  unfold TransformOf, VectorOf, RotationOf.
  destruct (AsObject Bone) as [o|]; simpl.
  2:{ split; [done|]. intros (? & ? & ? & ? & ? & _). done. }
  destruct (TryGetArrayOfNum o (TEXT "Location") 3) as [la|] eqn:Hla; simpl.
  2:{ split; [done|]. intros (? & ? & ? & ? & [= <-] & ? & _). congruence. }
  pose proof (proj1 (TryGetArrayOfNum_Some _ _ _ _) Hla) as [_ Hl].
  destruct la as [|? [|? [|? [|]]]]; simplify_eq/=.
  destruct (TryGetArrayOfNum o (TEXT "Rotation") 4) as [ra|] eqn:Hra; simpl.
  2:{ split; [done|]. intros (? & ? & ? & ? & [= <-] & ? & ? & _). congruence. }
  pose proof (proj1 (TryGetArrayOfNum_Some _ _ _ _) Hra) as [_ Hr].
  destruct ra as [|? [|? [|? [|? [|]]]]]; simplify_eq/=.
  destruct (TryGetArrayOfNum o (TEXT "Scale") 3) as [sa|] eqn:Hsa; simpl.
  2:{ split; [done|]. intros (? & ? & ? & ? & [= <-] & ? & ? & ?). congruence. }
  pose proof (proj1 (TryGetArrayOfNum_Some _ _ _ _) Hsa) as [_ Hs].
  destruct sa as [|? [|? [|? [|]]]]; simplify_eq/=.
  split; [intros _|done]. eauto 10.
Qed.

(** *** When a subject runs to its end *)

Lemma bind_unit_Normal (m : Flow unit) (k : Flow unit) :
  (_ ← m; k) = Normal tt <-> m = Normal tt /\ k = Normal tt.
Proof. destruct m as [[]| |]; simpl; split; try intros [? ?]; done. Qed.

Lemma bind2_Normal {A B} (m1 : Flow A) (m2 : Flow B) :
  (_ ← m1; _ ← m2; Normal tt) = Normal tt
  <-> is_Normal m1 = true /\ is_Normal m2 = true.
Proof. destruct m1, m2; simpl; split; try intros [? ?]; done. Qed.

Lemma bind1_Normal {A} (m : Flow A) :
  (_ ← m; Normal tt) = Normal tt <-> is_Normal m = true.
Proof. destruct m; simpl; split; done. Qed.

Lemma BonesVerdict_Normal MyJsonObject :
  BonesVerdict MyJsonObject = Normal tt
  <-> forall BoneArray,
        TryGetArrayField MyJsonObject (TEXT "Bone") = Some BoneArray ->
        forall Bone, Bone ∈ BoneArray ->
          is_Normal (BoneNameOf Bone) = true
          /\ is_Normal (BoneParentOf Bone) = true
          /\ is_Normal (TransformOf Bone) = true.
Proof.
  unfold BonesVerdict.
  destruct (TryGetArrayField MyJsonObject (TEXT "Bone")) as [BoneArray|].
  2:{ split; [intros _ ? [=]|done]. }
  rewrite bind_unit_Normal. unfold BoneNamesVerdict, BoneTransformsVerdict.
  rewrite (entries_Normal BoneArray
             (fun Bone => _ ← BoneNameOf Bone; _ ← BoneParentOf Bone; Normal tt)).
  rewrite (entries_Normal BoneArray (fun Bone => _ ← TransformOf Bone; Normal tt)).
  split.
  - intros [H1 H2] ? [= <-] Bone HBone.
    specialize (H1 _ HBone). specialize (H2 _ HBone).
    apply bind2_Normal in H1 as [? ?]. apply bind1_Normal in H2. done.
  - intros H. split; intros Bone HBone;
      destruct (H _ eq_refl _ HBone) as (? & ? & ?).
    + by apply bind2_Normal.
    + by apply bind1_Normal.
Qed.

Lemma ParametersVerdict_Normal MyJsonObject :
  ParametersVerdict MyJsonObject = Normal tt
  <-> forall ParameterArray,
        TryGetArrayField MyJsonObject (TEXT "Parameter") = Some ParameterArray ->
        forall param, param ∈ ParameterArray ->
          is_Normal (ParameterNameOf param) = true
          /\ is_Normal (ParameterValueOf param) = true.
Proof.
  unfold ParametersVerdict.
  destruct (TryGetArrayField MyJsonObject (TEXT "Parameter")) as [ParameterArray|].
  2:{ split; [intros _ ? [=]|done]. }
  rewrite bind_unit_Normal. unfold ParameterNamesVerdict, ParameterValuesVerdict.
  rewrite (entries_Normal ParameterArray
             (fun param => _ ← ParameterNameOf param; Normal tt)).
  rewrite (entries_Normal ParameterArray
             (fun param => _ ← ParameterValueOf param; Normal tt)).
  split.
  - intros [H1 H2] ? [= <-] param Hparam.
    specialize (H1 _ Hparam). specialize (H2 _ Hparam).
    apply bind1_Normal in H1. apply bind1_Normal in H2. done.
  - intros H. split; intros param Hparam;
      destruct (H _ eq_refl _ Hparam) as (? & ?); by apply bind1_Normal.
Qed.

Lemma SubjectVerdict_Normal Value :
  SubjectVerdict Value = Normal tt
  <-> exists MyJsonObject,
        AsObject Value = Some MyJsonObject
        /\ BonesVerdict MyJsonObject = Normal tt
        /\ ParametersVerdict MyJsonObject = Normal tt.
Proof.
  unfold SubjectVerdict. destruct (AsObject Value) as [o|]; simpl.
  - rewrite bind_unit_Normal. split; [eauto|]. by intros (? & [= <-] & ?).
  - split; [done|]. by intros (? & ? & _).
Qed.

(** A structural defect: the subject does not run to its end. *)
Lemma BoneDefect_not_Normal Bone :
  BoneDefect Bone ->
  is_Normal (BoneNameOf Bone) = true -> is_Normal (BoneParentOf Bone) = true ->
  is_Normal (TransformOf Bone) = true -> False.
Proof.
  intros (bo & Hbo & Hdef) [n Hn]%is_Normal_true [p Hp]%is_Normal_true Ht.
  apply BoneNameOf_Normal in Hn as (o & nm & HO & Hnm & _).
  apply BoneParentOf_Normal in Hp as (o' & HO' & Hpar).
  apply TransformOf_is_Normal in Ht as (o'' & l & r & s & HO'' & Hl & Hr & Hs).
  simplify_eq. destruct Hdef as [?|[?|[?|[?|?]]]]; congruence.
Qed.

Lemma ParameterDefect_not_Normal param :
  ParameterDefect param ->
  is_Normal (ParameterNameOf param) = true ->
  is_Normal (ParameterValueOf param) = true -> False.
Proof.
  intros (po & Hpo & Hdef) [n Hn]%is_Normal_true [x Hx]%is_Normal_true.
  apply ParameterNameOf_Normal in Hn as (o & nm & HO & Hnm & _).
  apply ParameterValueOf_Normal in Hx as (o' & v & HO' & Hv & _).
  simplify_eq. destruct Hdef as [?|?]; congruence.
Qed.

Lemma SubjectDefect_not_Normal Value :
  SubjectDefect Value -> is_Normal (DecodeSubject Value) = false.
Proof.
  intros (o & HO & Hdef). rewrite DecodeSubject_eq.
  destruct (SubjectVerdict Value) as [[]| |] eqn:HV; simpl; try done.
  apply SubjectVerdict_Normal in HV as (o' & HO' & HB & HP).
  assert (o' = o) as -> by congruence.
  destruct Hdef as [(bones & Bone & Hb & Hin & HD)
                   |(params & param & Hp & Hin & HD)]; exfalso.
  - destruct (proj1 (BonesVerdict_Normal o) HB _ Hb _ Hin) as (? & ? & ?).
    by eapply BoneDefect_not_Normal.
  - destruct (proj1 (ParametersVerdict_Normal o) HP _ Hp _ Hin) as (? & ?).
    by eapply ParameterDefect_not_Normal.
Qed.

(** *** No fault when [AsObject] never hands back a null pointer *)

Section NoNullObject.
Hypothesis AsObject_valid : forall v : FJsonValue, AsObject v <> None.

Lemma BoneNameOf_not_Fault Bone : BoneNameOf Bone <> Fault.
Proof.
  unfold BoneNameOf. pose proof (AsObject_valid Bone).
  destruct (AsObject Bone) as [o|]; simpl; [|done].
  by destruct (TryGetStringField o (TEXT "Name")).
Qed.

Lemma BoneParentOf_not_Fault Bone : BoneParentOf Bone <> Fault.
Proof.
  unfold BoneParentOf. pose proof (AsObject_valid Bone).
  destruct (AsObject Bone) as [o|]; simpl; [|done].
  by destruct (TryGetNumberField_int32 o (TEXT "Parent")).
Qed.

Lemma TransformOf_not_Fault Bone : TransformOf Bone <> Fault.
Proof.
  unfold TransformOf, VectorOf, RotationOf. pose proof (AsObject_valid Bone).
  destruct (AsObject Bone) as [o|]; simpl; [|done].
  destruct (TryGetArrayOfNum o (TEXT "Location") 3) as [la|] eqn:Hla; simpl; [|done].
  pose proof (proj1 (TryGetArrayOfNum_Some _ _ _ _) Hla) as [_ Hl].
  destruct la as [|? [|? [|? [|]]]]; simplify_eq/=.
  destruct (TryGetArrayOfNum o (TEXT "Rotation") 4) as [ra|] eqn:Hra; simpl; [|done].
  pose proof (proj1 (TryGetArrayOfNum_Some _ _ _ _) Hra) as [_ Hr].
  destruct ra as [|? [|? [|? [|? [|]]]]]; simplify_eq/=.
  destruct (TryGetArrayOfNum o (TEXT "Scale") 3) as [sa|] eqn:Hsa; simpl; [|done].
  pose proof (proj1 (TryGetArrayOfNum_Some _ _ _ _) Hsa) as [_ Hs].
  destruct sa as [|? [|? [|? [|]]]]; simplify_eq/=. done.
Qed.

Lemma ParameterNameOf_not_Fault param : ParameterNameOf param <> Fault.
Proof. apply BoneNameOf_not_Fault. Qed.

Lemma ParameterValueOf_not_Fault param : ParameterValueOf param <> Fault.
Proof.
  unfold ParameterValueOf. pose proof (AsObject_valid param).
  destruct (AsObject param) as [o|]; simpl; [|done].
  by destruct (TryGetNumberField_double o (TEXT "Value")).
Qed.

Lemma DecodeSubject_not_Fault Value : DecodeSubject Value <> Fault.
Proof.
  rewrite DecodeSubject_eq.
  assert (SubjectVerdict Value <> Fault) as H;
    [|by destruct (SubjectVerdict Value)].
  unfold SubjectVerdict. apply bind_not_Fault; [by apply deref_not_Fault|].
  intros o _. apply bind_not_Fault.
  - unfold BonesVerdict.
    destruct (TryGetArrayField o (TEXT "Bone")) as [BoneArray|]; [|done].
    apply bind_not_Fault; [|intros _ _].
    + apply (entries_not_Fault BoneArray
               (fun Bone => _ ← BoneNameOf Bone; _ ← BoneParentOf Bone; Normal tt)).
      intros Bone _. apply bind_not_Fault; [apply BoneNameOf_not_Fault|].
      intros _ _. apply bind_not_Fault; [apply BoneParentOf_not_Fault|done].
    + apply (entries_not_Fault BoneArray
               (fun Bone => _ ← TransformOf Bone; Normal tt)).
      intros Bone _. apply bind_not_Fault; [apply TransformOf_not_Fault|done].
  - intros _ _. unfold ParametersVerdict.
    destruct (TryGetArrayField o (TEXT "Parameter")) as [ParameterArray|]; [|done].
    apply bind_not_Fault; [|intros _ _].
    + apply (entries_not_Fault ParameterArray
               (fun param => _ ← ParameterNameOf param; Normal tt)).
      intros param _. apply bind_not_Fault; [apply ParameterNameOf_not_Fault|done].
    + apply (entries_not_Fault ParameterArray
               (fun param => _ ← ParameterValueOf param; Normal tt)).
      intros param _. apply bind_not_Fault; [apply ParameterValueOf_not_Fault|done].
Qed.

End NoNullObject.

(** *** The locals of a subject that ran to its end *)

Lemma Decoded_bones MyJsonObject BoneArray :
  TryGetArrayField MyJsonObject (TEXT "Bone") = Some BoneArray ->
  BoneNames (StaticData (Decoded MyJsonObject))
    = (fun Bone => flow_option (BoneNameOf Bone)) <$> BoneArray
  /\ BoneParents (StaticData (Decoded MyJsonObject))
    = (fun Bone => flow_option (BoneParentOf Bone)) <$> BoneArray
  /\ Transforms (FrameData (Decoded MyJsonObject))
    = (fun Bone => flow_option (TransformOf Bone)) <$> BoneArray
  /\ head3 (DecodedBones MyJsonObject InitialLocals)
    = HeadAfter BoneArray (length BoneArray) (0, 0, 0)%float.
Proof.
  intros HB. unfold Decoded, DecodedParameters, DecodedBones. rewrite HB.
  assert (head3 (AfterBoneTransforms BoneArray InitialLocals (length BoneArray))
          = HeadAfter BoneArray (length BoneArray) (0, 0, 0)%float) as Hh.
  { unfold AfterBoneTransforms, with_head3, head3. simpl.
    by destruct (HeadAfter _ _ _) as [[? ?] ?]. }
  destruct (TryGetArrayField MyJsonObject (TEXT "Parameter")); simpl;
    by rewrite !slots_full, !app_nil_r.
Qed.

Lemma Decoded_no_bones MyJsonObject :
  TryGetArrayField MyJsonObject (TEXT "Bone") = None ->
  BoneNames (StaticData (Decoded MyJsonObject)) = []
  /\ BoneParents (StaticData (Decoded MyJsonObject)) = []
  /\ Transforms (FrameData (Decoded MyJsonObject)) = []
  /\ head3 (DecodedBones MyJsonObject InitialLocals) = (0, 0, 0)%float.
Proof.
  intros HB. unfold Decoded, DecodedParameters, DecodedBones. rewrite HB.
  by destruct (TryGetArrayField MyJsonObject (TEXT "Parameter")).
Qed.

Lemma Decoded_parameters MyJsonObject ParameterArray :
  TryGetArrayField MyJsonObject (TEXT "Parameter") = Some ParameterArray ->
  PropertyNames (StaticData (Decoded MyJsonObject))
    = ((fun param => flow_option (ParameterNameOf param)) <$> ParameterArray)
      ++ HeadNames
  /\ PropertyValues (FrameData (Decoded MyJsonObject))
    = ((fun param => flow_option (ParameterValueOf param)) <$> ParameterArray)
      ++ HeadValues (DecodedBones MyJsonObject InitialLocals).
Proof.
  intros HP. unfold Decoded, DecodedParameters. rewrite HP. simpl.
  by rewrite !slots_full.
Qed.

Lemma Decoded_no_parameters MyJsonObject :
  TryGetArrayField MyJsonObject (TEXT "Parameter") = None ->
  PropertyNames (StaticData (Decoded MyJsonObject)) = []
  /\ PropertyValues (FrameData (Decoded MyJsonObject)) = [].
Proof.
  intros HP. unfold Decoded, DecodedParameters, DecodedBones. rewrite HP.
  by destruct (TryGetArrayField MyJsonObject (TEXT "Bone")).
Qed.

Lemma Decoded_head MyJsonObject :
  head3 (Decoded MyJsonObject) = head3 (DecodedBones MyJsonObject InitialLocals).
Proof.
  unfold Decoded, DecodedParameters.
  by destruct (TryGetArrayField MyJsonObject (TEXT "Parameter")).
Qed.

(** *** The loop over the subjects *)

Lemma SubjectBody_Normal Key Value L this log :
  DecodeSubject Value = Normal L ->
  SubjectBody (Key, Value) (this, log)
  = Normal ({| SourceGuid := SourceGuid this;
               EncounteredSubjects :=
                 Add (EncounteredSubjects this) (MakeFName Key) |},
            log ++ PushesOf (SourceGuid this) (MakeFName Key) L).
Proof.
  intros H. unfold SubjectBody, PushesOf. simpl. rewrite H. simpl.
  by rewrite <- !app_assoc.
Qed.

Lemma SubjectBody_abort Key Value this log :
  is_Normal (DecodeSubject Value) = false ->
  SubjectBody (Key, Value) (this, log) = (fun _ => (this, log)) <$> DecodeSubject Value
  /\ is_Normal (SubjectBody (Key, Value) (this, log)) = false.
Proof.
  intros H. unfold SubjectBody. simpl.
  by destruct (DecodeSubject Value).
Qed.

Lemma ForEachSubject_cons_Normal Key Value L Fields this log :
  DecodeSubject Value = Normal L ->
  ForEachSubject ((Key, Value) :: Fields) this log
  = ForEachSubject Fields
      {| SourceGuid := SourceGuid this;
         EncounteredSubjects := Add (EncounteredSubjects this) (MakeFName Key) |}
      (log ++ PushesOf (SourceGuid this) (MakeFName Key) L).
Proof.
  intros H. cbn [ForEachSubject]. by rewrite (SubjectBody_Normal _ _ _ _ _ H).
Qed.

Lemma ForEachSubject_cons_abort Key Value Fields this log :
  is_Normal (DecodeSubject Value) = false ->
  ForEachSubject ((Key, Value) :: Fields) this log
  = {| Source_after := this; Effects := log;
       Exit := (fun _ => tt) <$> DecodeSubject Value |}.
Proof.
  intros H. cbn [ForEachSubject]. unfold SubjectBody. cbn [fst snd].
  by destruct (DecodeSubject Value).
Qed.

Lemma ForEachSubject_app pre post this log :
  ForEachSubject (pre ++ post) this log
  = let r := ForEachSubject pre this log in
    match Exit r with
    | Normal _ => ForEachSubject post (Source_after r) (Effects r)
    | _ => r
    end.
Proof.
  revert this log. induction pre as [|[Key Value] pre IH]; intros this log.
  - done.
  - destruct (DecodeSubject Value) as [L| |] eqn:HD.
    + rewrite <- app_comm_cons, !(ForEachSubject_cons_Normal _ _ _ _ _ _ HD).
      apply IH.
    + rewrite <- app_comm_cons, !ForEachSubject_cons_abort by (by rewrite HD).
      by rewrite HD.
    + rewrite <- app_comm_cons, !ForEachSubject_cons_abort by (by rewrite HD).
      by rewrite HD.
Qed.

(** Every subject of [Fields] runs to its end: all of them are pushed. *)
Lemma ForEachSubject_all Fields this log :
  Forall (fun f => is_Normal (DecodeSubject f.2) = true) Fields ->
  ForEachSubject Fields this log
  = {| Source_after :=
         {| SourceGuid := SourceGuid this;
            EncounteredSubjects := AllAdded (EncounteredSubjects this) Fields |};
       Effects := log ++ AllPushes (SourceGuid this) Fields;
       Exit := Normal tt |}.
Proof.
  intros H. revert this log.
  induction H as [|[Key Value] Fields HV _ IH]; intros this log.
  - simpl. rewrite app_nil_r. by destruct this.
  - apply is_Normal_true in HV as [L HL]. simpl in HL.
    rewrite (ForEachSubject_cons_Normal _ _ _ _ _ _ HL), IH. simpl.
    apply DecodeSubject_Normal in HL as [_ ->].
    by rewrite <- app_assoc.
Qed.

(** The effects and the exit do not depend on [EncounteredSubjects]. *)
Lemma ForEachSubject_registry Fields this1 this2 log :
  SourceGuid this1 = SourceGuid this2 ->
  Effects (ForEachSubject Fields this1 log) = Effects (ForEachSubject Fields this2 log)
  /\ Exit (ForEachSubject Fields this1 log) = Exit (ForEachSubject Fields this2 log).
Proof.
  revert this1 this2 log.
  induction Fields as [|[Key Value] Fields IH]; intros this1 this2 log HG; [done|].
  destruct (DecodeSubject Value) as [L| |] eqn:HD.
  - rewrite !(ForEachSubject_cons_Normal _ _ _ _ _ _ HD), HG. by apply IH.
  - rewrite !ForEachSubject_cons_abort by (by rewrite HD). done.
  - rewrite !ForEachSubject_cons_abort by (by rewrite HD). done.
Qed.

(** Effects are added at the end of the log, each about a subject of
    [Fields]; subjects are added to the set, each a subject of [Fields]. *)
Lemma ForEachSubject_effects Fields this log :
  exists new,
    Effects (ForEachSubject Fields this log) = log ++ new
    /\ Forall (fun e => exists f, f ∈ Fields /\ SubjectOf e = MakeFName f.1) new.
Proof.
  revert this log. induction Fields as [|[Key Value] Fields IH]; intros this log.
  - exists []. by rewrite app_nil_r.
  - destruct (DecodeSubject Value) as [L| |] eqn:HD.
    + rewrite (ForEachSubject_cons_Normal _ _ _ _ _ _ HD).
      edestruct IH as (new & -> & Hnew).
      exists (PushesOf (SourceGuid this) (MakeFName Key) L ++ new).
      split; [by rewrite app_assoc|]. apply Forall_app. split.
      * repeat constructor; exists (Key, Value); (split; [left|done]).
      * eapply Forall_impl; [done|]. intros e (f & ? & ?). exists f.
        split; [by right|done].
    + rewrite ForEachSubject_cons_abort by (by rewrite HD).
      exists []. by rewrite app_nil_r.
    + rewrite ForEachSubject_cons_abort by (by rewrite HD).
      exists []. by rewrite app_nil_r.
Qed.

Lemma Contains_Add s n x : x ∈ Add s n <-> x ∈ s \/ x = n.
Proof.
  unfold Add, Contains. case_bool_decide.
  - split; [auto|]. intros [?| ->]; done.
  - rewrite elem_of_app, list_elem_of_singleton. done.
Qed.

Lemma ForEachSubject_registry_grows Fields this log x :
  x ∈ EncounteredSubjects this ->
  x ∈ EncounteredSubjects (Source_after (ForEachSubject Fields this log)).
Proof.
  revert this log. induction Fields as [|[Key Value] Fields IH]; intros this log H.
  - done.
  - destruct (DecodeSubject Value) as [L| |] eqn:HD.
    + rewrite (ForEachSubject_cons_Normal _ _ _ _ _ _ HD).
      apply IH. simpl. apply Contains_Add. auto.
    + by rewrite ForEachSubject_cons_abort by (by rewrite HD).
    + by rewrite ForEachSubject_cons_abort by (by rewrite HD).
Qed.

Lemma ForEachSubject_registry_new Fields this log x :
  x ∈ EncounteredSubjects (Source_after (ForEachSubject Fields this log)) ->
  x ∈ EncounteredSubjects this \/ exists f, f ∈ Fields /\ x = MakeFName f.1.
Proof.
  revert this log. induction Fields as [|[Key Value] Fields IH]; intros this log H.
  - by left.
  - destruct (DecodeSubject Value) as [L| |] eqn:HD.
    + rewrite (ForEachSubject_cons_Normal _ _ _ _ _ _ HD) in H.
      destruct (IH _ _ H) as [H'|(f & ? & ?)].
      * simpl in H'. apply Contains_Add in H' as [?| ->]; [by left|].
        right. exists (Key, Value). split; [left|done].
      * right. exists f. split; [by right|done].
    + rewrite ForEachSubject_cons_abort in H by (by rewrite HD). by left.
    + rewrite ForEachSubject_cons_abort in H by (by rewrite HD). by left.
Qed.

Lemma SubjectBody_inv Key Value this log this' log' :
  SubjectBody (Key, Value) (this, log) = Normal (this', log') ->
  exists L,
    DecodeSubject Value = Normal L
    /\ this' = {| SourceGuid := SourceGuid this;
                  EncounteredSubjects :=
                    Add (EncounteredSubjects this) (MakeFName Key) |}
    /\ log' = log ++ PushesOf (SourceGuid this) (MakeFName Key) L.
Proof.
  intros H. destruct (DecodeSubject Value) as [L| |] eqn:HD.
  - rewrite (SubjectBody_Normal _ _ _ _ _ HD) in H. simplify_eq. eauto.
  - destruct (SubjectBody_abort Key Value this log) as [_ E]; [by rewrite HD|].
    by rewrite H in E.
  - destruct (SubjectBody_abort Key Value this log) as [_ E]; [by rewrite HD|].
    by rewrite H in E.
Qed.

Lemma DecodeSubject_Decoded Value MyJsonObject L :
  DecodeSubject Value = Normal L -> AsObject Value = Some MyJsonObject ->
  L = Decoded MyJsonObject
  /\ BonesVerdict MyJsonObject = Normal tt
  /\ ParametersVerdict MyJsonObject = Normal tt.
Proof.
  intros [HV ->]%DecodeSubject_Normal HO.
  apply SubjectVerdict_Normal in HV as (o & HO' & ? & ?).
  unfold DecodedSubject. rewrite HO. by simplify_eq.
Qed.

Lemma TransformOf_Rotation Bone :
  is_Normal (TransformOf Bone) = true -> exists q, RotationOf Bone = Normal q.
Proof.
  intros (o & l & r & s & HO & _ & Hr & _)%TransformOf_is_Normal.
  apply TryGetArrayOfNum_Some in Hr as [Hr Hlen].
  destruct r as [|x [|y [|z [|w [|]]]]]; simplify_eq/=.
  eexists. apply RotationOf_Normal. by exists o, x, y, z, w.
Qed.

(** ** The properties of the specification *)

(** C3: a subject that is decoded with a "Bone" array of N entries and a
    "Parameter" array of k entries is pushed with bone names, bone parents
    and transforms of length N and property names and values of length
    k + 3; the names at k, k + 1 and k + 2 are "headRoll", "headPitch" and
    "headYaw", and the name at i < k is the "Name" of parameter i. *)
Theorem pushed_array_lengths Key Value MyJsonObject BoneArray ParameterArray
    this log this' log' :
  SubjectBody (Key, Value) (this, log) = Normal (this', log') ->
  AsObject Value = Some MyJsonObject ->
  TryGetArrayField MyJsonObject (TEXT "Bone") = Some BoneArray ->
  TryGetArrayField MyJsonObject (TEXT "Parameter") = Some ParameterArray ->
  let N := length BoneArray in
  let k := length ParameterArray in
  exists SD FD,
    log' = log ++ [PushSubjectStaticData_AnyThread
                     (SourceGuid this) (MakeFName Key) ULiveLinkAnimationRole SD;
                   EncounteredSubjects_Add (MakeFName Key);
                   PushSubjectFrameData_AnyThread
                     (SourceGuid this) (MakeFName Key) FD]
    /\ length (BoneNames SD) = N
    /\ length (BoneParents SD) = N
    /\ length (Transforms FD) = N
    /\ length (PropertyNames SD) = (k + 3)%nat
    /\ length (PropertyValues FD) = (k + 3)%nat
    /\ PropertyNames SD !! k = Some (Some (MakeFName (TEXT "headRoll")))
    /\ PropertyNames SD !! (k + 1)%nat = Some (Some (MakeFName (TEXT "headPitch")))
    /\ PropertyNames SD !! (k + 2)%nat = Some (Some (MakeFName (TEXT "headYaw")))
    /\ forall i param, ParameterArray !! i = Some param ->
         exists paramobject parameterName,
           AsObject param = Some paramobject
           /\ TryGetStringField paramobject (TEXT "Name") = Some parameterName
           /\ PropertyNames SD !! i = Some (Some (MakeFName parameterName)).
Proof.
  intros (L & HD & _ & ->)%SubjectBody_inv HO HB HP N k.
  destruct (DecodeSubject_Decoded _ _ _ HD HO) as (-> & _ & HPV).
  destruct (Decoded_bones _ _ HB) as (Hn & Hp & Ht & _).
  destruct (Decoded_parameters _ _ HP) as (Hpn & Hpv).
  exists (StaticData (Decoded MyJsonObject)), (FrameData (Decoded MyJsonObject)).
  split; [done|].
  rewrite Hn, Hp, Ht, Hpn, Hpv, !length_app, !length_fmap. simpl.
  repeat split; try done.
  - rewrite lookup_app_r by (rewrite length_fmap; lia).
    rewrite length_fmap. by replace (k - length ParameterArray)%nat with 0%nat by lia.
  - rewrite lookup_app_r by (rewrite length_fmap; lia).
    rewrite length_fmap.
    by replace (k + 1 - length ParameterArray)%nat with 1%nat by lia.
  - rewrite lookup_app_r by (rewrite length_fmap; lia).
    rewrite length_fmap.
    by replace (k + 2 - length ParameterArray)%nat with 2%nat by lia.
  - intros i param Hi.
    destruct (proj1 (ParametersVerdict_Normal _) HPV _ HP param) as [Hname _].
    { apply list_elem_of_lookup. eauto. }
    apply is_Normal_true in Hname as [n Hn'].
    pose proof Hn' as (o & nm & Ho & Hnm & ->)%ParameterNameOf_Normal.
    exists o, nm. repeat split; try done.
    rewrite lookup_app_l by (rewrite length_fmap; by eapply lookup_lt_Some).
    by rewrite list_lookup_fmap, Hi; simpl; rewrite Hn'.
Qed.

(** C4: for a subject that is decoded with a non-empty "Bone" array, the
    three angles left in [headRoll], [headPitch] and [headYaw] are
    -atan2(2(qx qy + qw qz), qw² + qx² - qy² - qz²),
    atan2(2(qy qz + qw qx), qw² - qx² - qy² + qz²) and
    -asin(-2(qx qz - qw qy)) of the "Rotation" [qx, qy, qz, qw] of the last
    entry of the array, whatever entries precede it; and with a
    "Parameter" array of k entries the property values stored at k, k + 1
    and k + 2 are these angles, converted to [float]. *)
Theorem head_angles_of_last_bone Value MyJsonObject Bones Last L :
  DecodeSubject Value = Normal L ->
  AsObject Value = Some MyJsonObject ->
  TryGetArrayField MyJsonObject (TEXT "Bone") = Some (Bones ++ [Last]) ->
  exists BoneObject x y z w,
    AsObject Last = Some BoneObject
    /\ TryGetArrayField BoneObject (TEXT "Rotation") = Some [x; y; z; w]
    /\ let qx := AsNumber x in
       let qy := AsNumber y in
       let qz := AsNumber z in
       let qw := AsNumber w in
       let roll :=
         (- atan2 (2 * (qx * qy + qw * qz))
                  (qw * qw + qx * qx - qy * qy - qz * qz))%float in
       let pitch :=
         (atan2 (2 * (qy * qz + qw * qx))
                (qw * qw - qx * qx - qy * qy + qz * qz))%float in
       let yaw := (- asin (-2 * (qx * qz - qw * qy)))%float in
       headRoll L = roll /\ headPitch L = pitch /\ headYaw L = yaw
       /\ forall ParameterArray,
            TryGetArrayField MyJsonObject (TEXT "Parameter") = Some ParameterArray ->
            let k := length ParameterArray in
            PropertyValues (FrameData L) !! k = Some (Some (float_cast roll))
            /\ PropertyValues (FrameData L) !! (k + 1)%nat
               = Some (Some (float_cast pitch))
            /\ PropertyValues (FrameData L) !! (k + 2)%nat
               = Some (Some (float_cast yaw)).
Proof.
  intros HD HO HB.
  destruct (DecodeSubject_Decoded _ _ _ HD HO) as (-> & HBV & _).
  destruct (proj1 (BonesVerdict_Normal _) HBV _ HB Last) as (_ & _ & HT).
  { apply elem_of_app. right. by apply list_elem_of_singleton. }
  destruct (TransformOf_Rotation _ HT) as [q Hq].
  pose proof Hq as (o & x & y & z & w & HLast & Hrot & ->)%RotationOf_Normal.
  exists o, x, y, z, w. split; [done|]. split; [done|]. cbv zeta.
  destruct (Decoded_bones _ _ HB) as (_ & _ & _ & Hhead).
  assert (HeadAfter (Bones ++ [Last]) (length (Bones ++ [Last])) (0, 0, 0)%float
          = HeadAnglesOf (AsNumber x, AsNumber y, AsNumber z, AsNumber w)) as Hlast.
  { rewrite length_app. simpl. rewrite Nat.add_1_r. simpl.
    rewrite lookup_app_r by lia. rewrite Nat.sub_diag. simpl. by rewrite Hq. }
  rewrite Hlast in Hhead. pose proof (Decoded_head MyJsonObject) as Hfinal.
  rewrite Hhead in Hfinal. unfold head3, HeadAnglesOf in Hhead, Hfinal.
  injection Hfinal as Hr Hp Hy. injection Hhead as Hr' Hp' Hy'.
  unfold HeadRollOf, HeadPitchOf, HeadYawOf in *.
  split; [done|]. split; [done|]. split; [done|].
  intros ParameterArray HP. set (k := length ParameterArray).
  destruct (Decoded_parameters _ _ HP) as [_ ->].
  rewrite !lookup_app_r by (rewrite length_fmap; lia).
  rewrite !length_fmap. unfold HeadValues. rewrite Hr', Hp', Hy'.
  replace (k - length ParameterArray)%nat with 0%nat by lia.
  replace (k + 1 - length ParameterArray)%nat with 1%nat by lia.
  by replace (k + 2 - length ParameterArray)%nat with 2%nat by lia.
Qed.

(** C10: a subject without a "Parameter" field is pushed with empty
    property names and values (the angles of the bone pass are in neither
    struct), and one with an empty "Parameter" array with exactly the three
    head properties. *)
Theorem properties_need_parameter_field Key Value MyJsonObject this log this' log' :
  SubjectBody (Key, Value) (this, log) = Normal (this', log') ->
  AsObject Value = Some MyJsonObject ->
  exists L,
    DecodeSubject Value = Normal L
    /\ log' = log ++ [PushSubjectStaticData_AnyThread
                        (SourceGuid this) (MakeFName Key) ULiveLinkAnimationRole
                        (StaticData L);
                      EncounteredSubjects_Add (MakeFName Key);
                      PushSubjectFrameData_AnyThread
                        (SourceGuid this) (MakeFName Key) (FrameData L)]
    /\ (TryGetArrayField MyJsonObject (TEXT "Parameter") = None ->
        PropertyNames (StaticData L) = [] /\ PropertyValues (FrameData L) = [])
    /\ (TryGetArrayField MyJsonObject (TEXT "Parameter") = Some [] ->
        PropertyNames (StaticData L)
          = [Some (MakeFName (TEXT "headRoll")); Some (MakeFName (TEXT "headPitch"));
             Some (MakeFName (TEXT "headYaw"))]
        /\ PropertyValues (FrameData L)
          = [Some (float_cast (headRoll L)); Some (float_cast (headPitch L));
             Some (float_cast (headYaw L))]).
Proof.
  intros (L & HD & _ & ->)%SubjectBody_inv HO. exists L.
  split; [done|]. split; [done|].
  destruct (DecodeSubject_Decoded _ _ _ HD HO) as (-> & _ & _). split.
  - apply Decoded_no_parameters.
  - intros HP. destruct (Decoded_parameters _ _ HP) as [-> ->]. simpl.
    split; [done|]. pose proof (Decoded_head MyJsonObject) as Hh.
    unfold head3 in Hh. injection Hh as -> -> ->. done.
Qed.

Lemma HandleReceivedData_fields ReceivedData JsonObject this :
  Deserialize (JsonStringOf ReceivedData) = Some JsonObject ->
  HandleReceivedData ReceivedData this = ForEachSubject (Values JsonObject) this [].
Proof. intros H. unfold HandleReceivedData. by rewrite H. Qed.

(** The datagram's loop stops at a subject that does not run to its end. *)
Lemma ForEachSubject_stops pre Key Value post this log :
  is_Normal (DecodeSubject Value) = false ->
  let r := ForEachSubject (pre ++ (Key, Value) :: post) this log in
  let r0 := ForEachSubject pre this log in
  Source_after r = Source_after r0 /\ Effects r = Effects r0
  /\ Exit r <> Normal tt.
Proof.
  intros H. cbv zeta. rewrite ForEachSubject_app. cbv zeta.
  destruct (Exit (ForEachSubject pre this log)) as [[]| |] eqn:HE.
  - rewrite ForEachSubject_cons_abort by done. simpl.
    repeat split. by destruct (DecodeSubject Value).
  - repeat split. by rewrite HE.
  - repeat split. by rewrite HE.
Qed.

(** C5: a subject with a structural defect ends the function before
    its pushes: the effects of the call and the set of
    encountered subjects are those of the fields before it, so the subject
    gets no static data and no frame data from the datagram and is not
    added to the set (no earlier field of the datagram naming the same
    subject). *)
Theorem defective_subject_pushes_nothing
    ReceivedData JsonObject pre Key Value post this :
  Deserialize (JsonStringOf ReceivedData) = Some JsonObject ->
  Values JsonObject = pre ++ (Key, Value) :: post ->
  SubjectDefect Value ->
  Forall (fun f => MakeFName f.1 <> MakeFName Key) pre ->
  let r := HandleReceivedData ReceivedData this in
  let before := ForEachSubject pre this [] in
  Exit r <> Normal tt
  /\ Effects r = Effects before
  /\ Source_after r = Source_after before
  /\ Forall (fun e => SubjectOf e <> MakeFName Key) (Effects r)
  /\ (MakeFName Key ∈ EncounteredSubjects (Source_after r)
      <-> MakeFName Key ∈ EncounteredSubjects this).
Proof.
  intros HJ HV Hdef%SubjectDefect_not_Normal Hpre. cbv zeta.
  rewrite (HandleReceivedData_fields _ _ _ HJ), HV.
  destruct (ForEachSubject_stops pre Key Value post this [] Hdef) as (-> & -> & HE).
  do 3 (split; [done|]). split.
  - destruct (ForEachSubject_effects pre this []) as (new & -> & Hnew). simpl.
    apply Forall_forall. intros e He.
    destruct (proj1 (Forall_forall _ _) Hnew e He) as (f & Hf & ->).
    by apply (proj1 (Forall_forall _ _) Hpre).
  - split.
    + intros [?|(f & Hf & Heq)]%ForEachSubject_registry_new; [done|].
      by destruct (proj1 (Forall_forall _ _) Hpre f Hf).
    + apply ForEachSubject_registry_grows.
Qed.

Lemma AllPushes_zip Guid Fields :
  AllPushes Guid Fields
  = concat (zip_with (fun f L => PushesOf Guid (MakeFName f.1) L)
              Fields ((fun f => DecodedSubject f.2) <$> Fields)).
Proof.
  induction Fields as [|f Fields IH]; [done|].
  unfold AllPushes in *. simpl. by rewrite IH.
Qed.

(** C1, as the code has it: the subjects before a defective one are
    decoded and pushed, each with its three effects in the order of the
    datagram's fields; nothing is pushed for the defective subject or for
    any subject after it. *)
Theorem defective_subject_ends_the_datagram
    ReceivedData JsonObject pre Key Value post this :
  Deserialize (JsonStringOf ReceivedData) = Some JsonObject ->
  Values JsonObject = pre ++ (Key, Value) :: post ->
  Forall (fun f => is_Normal (DecodeSubject f.2) = true) pre ->
  SubjectDefect Value ->
  let r := HandleReceivedData ReceivedData this in
  exists Ls,
    Forall2 (fun f L => DecodeSubject f.2 = Normal L) pre Ls
    /\ Effects r
       = concat (zip_with (fun f L =>
           [PushSubjectStaticData_AnyThread (SourceGuid this) (MakeFName f.1)
              ULiveLinkAnimationRole (StaticData L);
            EncounteredSubjects_Add (MakeFName f.1);
            PushSubjectFrameData_AnyThread (SourceGuid this) (MakeFName f.1)
              (FrameData L)]) pre Ls)
    /\ EncounteredSubjects (Source_after r)
       = fold_left (fun s f => Add s (MakeFName f.1)) pre (EncounteredSubjects this)
    /\ Exit r <> Normal tt.
Proof.
  intros HJ HV Hpre Hdef%SubjectDefect_not_Normal. cbv zeta.
  rewrite (HandleReceivedData_fields _ _ _ HJ), HV.
  destruct (ForEachSubject_stops pre Key Value post this [] Hdef) as (-> & -> & HE).
  rewrite (ForEachSubject_all _ _ _ Hpre). simpl.
  exists ((fun f => DecodedSubject f.2) <$> pre). split; [|split; [|done]].
  - apply Forall2_fmap_r, Forall_Forall2_diag.
    eapply Forall_impl; [exact Hpre|]. intros f [L HL]%is_Normal_true.
    rewrite HL. f_equal. by apply DecodeSubject_Normal in HL as [_ ->].
  - apply AllPushes_zip.
Qed.

Lemma ForEachSubject_SourceGuid Fields this log :
  SourceGuid (Source_after (ForEachSubject Fields this log)) = SourceGuid this.
Proof.
  revert this log. induction Fields as [|[Key Value] Fields IH]; intros this log.
  - done.
  - destruct (DecodeSubject Value) as [L| |] eqn:HD.
    + by rewrite (ForEachSubject_cons_Normal _ _ _ _ _ _ HD), IH.
    + by rewrite ForEachSubject_cons_abort by (by rewrite HD).
    + by rewrite ForEachSubject_cons_abort by (by rewrite HD).
Qed.

(** C6: a subject of a datagram that the loop reaches (every field
    before it is decoded) and that is decoded is pushed in this order:
    static data, insertion into the set of encountered subjects, frame
    data, right after the pushes of the fields before it.  After the call
    the subject is in the set, and no subject has left it.  This holds from
    every state of the source, whether or not the subject is in the set
    already: handling the datagram again, now that the subject is in the
    set, repeats the same pushes. *)
Theorem pushes_in_order ReceivedData JsonObject pre Key Value post L this :
  Deserialize (JsonStringOf ReceivedData) = Some JsonObject ->
  Values JsonObject = pre ++ (Key, Value) :: post ->
  Forall (fun f => is_Normal (DecodeSubject f.2) = true) pre ->
  DecodeSubject Value = Normal L ->
  let SubjectName := MakeFName Key in
  let r := HandleReceivedData ReceivedData this in
  let again := HandleReceivedData ReceivedData (Source_after r) in
  (exists after,
     Effects r
     = AllPushes (SourceGuid this) pre
       ++ [PushSubjectStaticData_AnyThread
             (SourceGuid this) SubjectName ULiveLinkAnimationRole (StaticData L);
           EncounteredSubjects_Add SubjectName;
           PushSubjectFrameData_AnyThread
             (SourceGuid this) SubjectName (FrameData L)]
       ++ after)
  /\ SubjectName ∈ EncounteredSubjects (Source_after r)
  /\ (forall x, x ∈ EncounteredSubjects this ->
                x ∈ EncounteredSubjects (Source_after r))
  /\ Effects again = Effects r.
Proof.
  intros HJ HV Hpre HD. cbv zeta.
  split; [|split; [|split]].
  - rewrite (HandleReceivedData_fields _ _ _ HJ), HV, ForEachSubject_app.
    cbv zeta. rewrite (ForEachSubject_all _ _ _ Hpre).
    cbn [Exit Source_after Effects].
    rewrite (ForEachSubject_cons_Normal _ _ _ _ _ _ HD).
    cbn [SourceGuid EncounteredSubjects app].
    edestruct ForEachSubject_effects as (new & -> & _).
    exists new. unfold PushesOf. by rewrite <- app_assoc.
  - rewrite (HandleReceivedData_fields _ _ _ HJ), HV, ForEachSubject_app.
    cbv zeta. rewrite (ForEachSubject_all _ _ _ Hpre).
    cbn [Exit Source_after Effects].
    rewrite (ForEachSubject_cons_Normal _ _ _ _ _ _ HD).
    apply ForEachSubject_registry_grows. cbn [EncounteredSubjects].
    apply Contains_Add. by right.
  - intros x Hx. rewrite (HandleReceivedData_fields _ _ _ HJ).
    by apply ForEachSubject_registry_grows.
  - rewrite !(HandleReceivedData_fields _ _ _ HJ).
    apply ForEachSubject_registry, ForEachSubject_SourceGuid.
Qed.

(** C7: what a datagram pushes does not depend on the set of encountered
    subjects: two sources with the same identifier push the same effects,
    struct for struct, and so does the same source on the same datagram a
    second time. *)
Theorem decoding_ignores_encountered_subjects ReceivedData Guid Seen1 Seen2 :
  let this1 := {| SourceGuid := Guid; EncounteredSubjects := Seen1 |} in
  let this2 := {| SourceGuid := Guid; EncounteredSubjects := Seen2 |} in
  let r1 := HandleReceivedData ReceivedData this1 in
  let r2 := HandleReceivedData ReceivedData this2 in
  let again := HandleReceivedData ReceivedData (Source_after r1) in
  Effects r1 = Effects r2 /\ Exit r1 = Exit r2
  /\ Effects again = Effects r1 /\ Exit again = Exit r1.
Proof.
  cbv zeta. unfold HandleReceivedData.
  destruct (Deserialize (JsonStringOf ReceivedData)) as [JsonObject|]; [|done].
  split; [by apply ForEachSubject_registry|].
  split; [by apply ForEachSubject_registry|].
  apply and_comm, and_comm, ForEachSubject_registry, ForEachSubject_SourceGuid.
Qed.


(** ** Further properties of the decoder *)

Lemma Forall_written {A B} (f : A -> Flow B) (l : list A) :
  (forall x, x ∈ l -> is_Normal (f x) = true) ->
  Forall is_Some ((fun x => flow_option (f x)) <$> l).
Proof.
  intros H. apply Forall_fmap, Forall_forall. intros x Hx. simpl.
  destruct (is_Normal_true _ (H x Hx)) as [y ->]. by eexists.
Qed.

(** No slot of a pushed array is left as [SetNumUninitialized] made it. *)
Theorem pushed_arrays_are_written Value L :
  DecodeSubject Value = Normal L ->
  Forall is_Some (BoneNames (StaticData L))
  /\ Forall is_Some (BoneParents (StaticData L))
  /\ Forall is_Some (Transforms (FrameData L))
  /\ Forall is_Some (PropertyNames (StaticData L))
  /\ Forall is_Some (PropertyValues (FrameData L)).
Proof.
  intros HD.
  destruct (proj1 (DecodeSubject_Normal _ _) HD) as [HV _].
  apply SubjectVerdict_Normal in HV as (o & HO & _).
  destruct (DecodeSubject_Decoded _ _ _ HD HO) as (-> & HB & HP).
  pose proof (proj1 (BonesVerdict_Normal o) HB) as HB'.
  pose proof (proj1 (ParametersVerdict_Normal o) HP) as HP'.
  assert (Forall is_Some (BoneNames (StaticData (Decoded o)))
          /\ Forall is_Some (BoneParents (StaticData (Decoded o)))
          /\ Forall is_Some (Transforms (FrameData (Decoded o)))) as (? & ? & ?).
  { destruct (TryGetArrayField o (TEXT "Bone")) as [BoneArray|] eqn:E.
    - destruct (Decoded_bones _ _ E) as (-> & -> & -> & _).
      repeat split; apply Forall_written; intros x Hx;
        by destruct (HB' _ eq_refl x Hx) as (? & ? & ?).
    - by destruct (Decoded_no_bones _ E) as (-> & -> & -> & _). }
  do 3 (split; [done|]).
  destruct (TryGetArrayField o (TEXT "Parameter")) as [ParameterArray|] eqn:E.
  - destruct (Decoded_parameters _ _ E) as (-> & ->).
    split; apply Forall_app; (split; [|by repeat constructor]);
      apply Forall_written; intros x Hx;
      by destruct (HP' _ eq_refl x Hx) as (? & ?).
  - by destruct (Decoded_no_parameters _ E) as (-> & ->).
Qed.

(** A subject whose object has neither a "Bone" nor a "Parameter" array
    is pushed with empty static and frame data. *)
Theorem subject_without_fields_is_empty Value MyJsonObject :
  AsObject Value = Some MyJsonObject ->
  TryGetArrayField MyJsonObject (TEXT "Bone") = None ->
  TryGetArrayField MyJsonObject (TEXT "Parameter") = None ->
  DecodeSubject Value = Normal InitialLocals.
Proof.
  intros HO HB HP. unfold DecodeSubject, DecodeBones, DecodeParameters.
  rewrite HO. simpl. by rewrite HB, HP.
Qed.

(** The function relies on [AsObject]: a null pointer from it for a
    subject's value is dereferenced at line 198. *)
Theorem null_object_is_dereferenced Key Value Fields this log :
  AsObject Value = None ->
  ForEachSubject ((Key, Value) :: Fields) this log
  = {| Source_after := this; Effects := log; Exit := Fault |}.
Proof.
  intros HO.
  assert (DecodeSubject Value = Fault) as HD
    by (unfold DecodeSubject; by rewrite HO).
  rewrite ForEachSubject_cons_abort by (by rewrite HD). by rewrite HD.
Qed.

(** The signed zeros of [double]. *)
Lemma zeros_inv (x : float) :
  x ∈ [0; -0]%float -> x = 0%float \/ x = (-0)%float.
Proof.
  intros [->|H]%elem_of_cons; [by left|].
  apply list_elem_of_singleton in H. by right.
Qed.

(** C8: for a "Rotation" of [0, 0, 0, 1] (each zero of either sign) the
    three angles are zero, given what the C standard fixes for libm at
    these arguments: [atan2(±0, 1) = ±0] and [asin(±0) = ±0]. *)
Theorem identity_rotation_has_zero_angles :
  (forall y : float, y ∈ [0; -0]%float -> atan2 y 1 = y) ->
  (forall x : float, x ∈ [0; -0]%float -> asin x = x) ->
  forall qx qy qz : float,
    qx ∈ [0; -0]%float -> qy ∈ [0; -0]%float -> qz ∈ [0; -0]%float ->
    (HeadRollOf qx qy qz 1 =? 0)%float = true
    /\ (HeadPitchOf qx qy qz 1 =? 0)%float = true
    /\ (HeadYawOf qx qy qz 1 =? 0)%float = true.
Proof.
  intros Hatan2 Hasin qx qy qz Hx Hy Hz.
  assert (forall y, y ∈ [0; -0]%float -> (- atan2 y 1 =? 0)%float = true) as Hneg.
  { intros y H. rewrite (Hatan2 y H). by destruct (zeros_inv y H) as [-> | ->]. }
  assert (forall y, y ∈ [0; -0]%float -> (atan2 y 1 =? 0)%float = true) as Hpos.
  { intros y H. rewrite (Hatan2 y H). by destruct (zeros_inv y H) as [-> | ->]. }
  assert (forall x, x ∈ [0; -0]%float -> (- asin x =? 0)%float = true) as Hyaw.
  { intros y H. rewrite (Hasin y H). by destruct (zeros_inv y H) as [-> | ->]. }
  unfold HeadRollOf, HeadPitchOf, HeadYawOf.
  destruct (zeros_inv _ Hx) as [-> | ->], (zeros_inv _ Hy) as [-> | ->],
    (zeros_inv _ Hz) as [-> | ->].
  all: repeat split; first [apply Hneg | apply Hpos | apply Hyaw].
  all: first [by left | by right; left].
Qed.

End Loops.

(* ================================================================== *)
(** ** The string handed to the reader *)

Lemma JsonStringOf_fold (ReceivedData : list byte) (acc : FString) :
  fold_left (fun JsonString Byte => AppendChar JsonString (TCHAR_of_uint8 Byte))
            ReceivedData acc
  = acc ++ (TCHAR_of_uint8
              <$> List.filter (fun b => negb (TCHAR_of_uint8 b =? 0)) ReceivedData).
Proof.
  revert acc. induction ReceivedData as [|b l IH]; intros acc; simpl.
  - by rewrite app_nil_r.
  - rewrite IH. unfold AppendChar.
    destruct (TCHAR_of_uint8 b =? 0); cbn [negb]; [done|].
    by rewrite fmap_cons, <- app_assoc.
Qed.

(** Every byte but 0 becomes one character, of the byte's value. *)
Lemma JsonStringOf_widens (ReceivedData : list byte) :
  JsonStringOf ReceivedData
  = TCHAR_of_uint8
      <$> List.filter (fun b => negb (TCHAR_of_uint8 b =? 0)) ReceivedData.
Proof. unfold JsonStringOf. by rewrite JsonStringOf_fold. Qed.

Lemma decode_ascii (c : Z) (r : list Z) :
  c < 128 ->
  Utf8.decode (c :: r)
  = match Utf8.decode r with Some cps => Some (c :: cps) | None => None end.
Proof.
  intros H. cbn [Utf8.decode].
  by replace (c <? 128) with true by (symmetry; by apply Z.ltb_lt).
Qed.

Lemma TextOf_ascii (payload : list byte) :
  Forall (fun b => 0 < TCHAR_of_uint8 b < 128) payload ->
  Utf8.TextOf payload = Some (TCHAR_of_uint8 <$> payload).
Proof.
  unfold Utf8.TextOf. induction 1 as [|b l Hb Hl IH]; [done|].
  rewrite fmap_cons, decode_ascii by lia.
  destruct (Utf8.decode (TCHAR_of_uint8 <$> l)) as [cps|]; [|done].
  injection IH as IH. cbn [flat_map]. rewrite IH. unfold Utf8.code_units.
  by replace (TCHAR_of_uint8 b <? 65536) with true
    by (symmetry; apply Z.ltb_lt; lia).
Qed.

(** A payload without a zero byte: one character for each byte. *)
Lemma JsonStringOf_no_zero (ReceivedData : list byte) :
  Forall (fun b => TCHAR_of_uint8 b <> 0) ReceivedData ->
  JsonStringOf ReceivedData = TCHAR_of_uint8 <$> ReceivedData.
Proof.
  intros H. rewrite JsonStringOf_widens. f_equal.
  induction H as [|b l Hb _ IH]; [done|]. cbn [List.filter].
  replace (TCHAR_of_uint8 b =? 0) with false by (symmetry; by apply Z.eqb_neq).
  cbn [negb]. by rewrite IH.
Qed.

(** The code point of a sequence of two bytes is one code unit. *)
Lemma two_byte_code_point (b0 b1 : Z) :
  0 <= Z.lor (Z.shiftl (Z.land b0 0x1F) 6) (Utf8.low6 b1) < 0x10000.
Proof.
  unfold Utf8.low6.
  change 0x1F with (Z.ones 5). change 0x3F with (Z.ones 6).
  rewrite !Z.land_ones, Z.shiftl_mul_pow2 by lia.
  pose proof (Z.mod_pos_bound b0 (2 ^ 5) ltac:(lia)) as H0.
  pose proof (Z.mod_pos_bound b1 (2 ^ 6) ltac:(lia)) as H1.
  set (x := b0 mod 2 ^ 5) in *. set (y := b1 mod 2 ^ 6) in *.
  pose proof (Zbitwise.Z.add_lor_land (x * 2 ^ 6) y) as Hadd.
  assert (0 <= Z.land (x * 2 ^ 6) y) by (apply Z.land_nonneg; lia).
  assert (0 <= Z.lor (x * 2 ^ 6) y) by (apply Z.lor_nonneg; lia).
  lia.
Qed.

Lemma code_units_length (cp : Z) :
  (1 <= length (Utf8.code_units cp) <= 2)%nat.
Proof. unfold Utf8.code_units. destruct (cp <? 0x10000); simpl; lia. Qed.

Lemma code_units_small (cp : Z) :
  cp < 0x10000 -> length (Utf8.code_units cp) = 1%nat.
Proof.
  intros H. unfold Utf8.code_units.
  by replace (cp <? 0x10000) with true by (symmetry; by apply Z.ltb_lt).
Qed.

(** The text of a byte sequence has at most as many code units as the
    sequence has bytes, and fewer when one of the bytes is not ASCII. *)
Lemma decode_length (n : nat) : forall (bs cps : list Z),
  (length bs <= n)%nat ->
  Utf8.decode bs = Some cps ->
  (length (flat_map Utf8.code_units cps) <= length bs)%nat
  /\ (Exists (fun b => 128 <= b) bs ->
      (length (flat_map Utf8.code_units cps) < length bs)%nat).
Proof.
  induction n as [|n IH]; intros bs cps Hn Hd.
  - destruct bs; [|simpl in Hn; lia]. injection Hd as <-. simpl.
    split; [lia|]. by intros ?%Exists_nil.
  - destruct bs as [|b0 r]; [injection Hd as <-; simpl; split;
                              [lia|by intros ?%Exists_nil]|].
    cbn [Utf8.decode] in Hd. cbn [length] in Hn |- *.
    destruct (b0 <? 0x80) eqn:H0.
    { destruct (Utf8.decode r) as [cps'|] eqn:Hr; [|done]. injection Hd as <-.
      destruct (IH r cps' ltac:(lia) Hr) as [Hle Hlt].
      apply Z.ltb_lt in H0. cbn [flat_map]. rewrite length_app.
      rewrite code_units_small by lia. split; [lia|].
      intros [?|?]%Exists_cons; [lia|]. specialize (Hlt ltac:(done)). lia. }
    destruct ((0xC2 <=? b0) && (b0 <=? 0xDF)).
    { destruct r as [|b1 r']; [done|].
      destruct (Utf8.is_continuation b1); [|done].
      destruct (Utf8.decode r') as [cps'|] eqn:Hr; [|done]. injection Hd as <-.
      destruct (IH r' cps' ltac:(simpl in Hn; lia) Hr) as [Hle _].
      cbn [flat_map length]. rewrite length_app.
      rewrite code_units_small by apply two_byte_code_point. lia. }
    destruct ((0xE0 <=? b0) && (b0 <=? 0xEF)).
    { destruct r as [|b1 [|b2 r']]; [done|done|].
      match type of Hd with (if ?c then _ else _) = _ => destruct c; [|done] end.
      destruct (Utf8.decode r') as [cps'|] eqn:Hr; [|done]. injection Hd as <-.
      destruct (IH r' cps' ltac:(simpl in Hn; lia) Hr) as [Hle _].
      cbn [flat_map length]. rewrite length_app.
      match goal with |- context [Utf8.code_units ?cp] =>
        pose proof (code_units_length cp) end. lia. }
    destruct ((0xF0 <=? b0) && (b0 <=? 0xF4)); [|done].
    destruct r as [|b1 [|b2 [|b3 r']]]; [done|done|done|].
    match type of Hd with (if ?c then _ else _) = _ => destruct c; [|done] end.
    destruct (Utf8.decode r') as [cps'|] eqn:Hr; [|done]. injection Hd as <-.
    destruct (IH r' cps' ltac:(simpl in Hn; lia) Hr) as [Hle _].
    cbn [flat_map length]. rewrite length_app.
    match goal with |- context [Utf8.code_units ?cp] =>
      pose proof (code_units_length cp) end. lia.
Qed.

(** C2, as the code has it: the bytes are not decoded.  For a payload
    without a zero byte the string handed to the reader has one character
    for each byte, character [i] of the value of byte [i]: every byte of a
    multi-byte UTF-8 sequence becomes a character of its own.  For a
    payload of ASCII bytes 0x01 .. 0x7F that string is the text the payload
    encodes; for a payload that is valid UTF-8 and holds a byte that is not
    ASCII it is not: it is longer than that text. *)
Theorem payload_reaches_the_reader_byte_by_byte (ReceivedData : list byte) :
  Forall (fun b => TCHAR_of_uint8 b <> 0) ReceivedData ->
  JsonStringOf ReceivedData = TCHAR_of_uint8 <$> ReceivedData
  /\ (forall i b, ReceivedData !! i = Some b ->
        JsonStringOf ReceivedData !! i = Some (TCHAR_of_uint8 b))
  /\ (Forall (fun b => TCHAR_of_uint8 b < 128) ReceivedData ->
        Utf8.TextOf ReceivedData = Some (JsonStringOf ReceivedData))
  /\ (forall text,
        Utf8.TextOf ReceivedData = Some text ->
        Exists (fun b => 128 <= TCHAR_of_uint8 b) ReceivedData ->
        (length text < length (JsonStringOf ReceivedData))%nat
        /\ text <> JsonStringOf ReceivedData).
Proof.
  intros H. pose proof (JsonStringOf_no_zero _ H) as E. rewrite E.
  split; [done|]. split; [|split].
  - intros i b Hi. by rewrite list_lookup_fmap, Hi.
  - intros Hascii. apply TextOf_ascii.
    apply Forall_forall. intros b Hb.
    pose proof (proj1 (Forall_forall _ _) H b Hb).
    pose proof (proj1 (Forall_forall _ _) Hascii b Hb).
    unfold TCHAR_of_uint8 in *. lia.
  - intros text Ht Hex. unfold Utf8.TextOf in Ht.
    destruct (Utf8.decode (TCHAR_of_uint8 <$> ReceivedData)) as [cps|] eqn:Hd;
      [|done].
    injection Ht as <-.
    destruct (decode_length _ _ _ (Nat.le_refl _) Hd) as [_ Hlt].
    assert (length (flat_map Utf8.code_units cps)
            < length (TCHAR_of_uint8 <$> ReceivedData))%nat as Hlen.
    { apply Hlt. apply Exists_fmap. by eapply Exists_impl. }
    split; [done|]. intros Heq. rewrite Heq in Hlen. lia.
Qed.

(* ================================================================== *)
(** ** More of the decoder: what is pushed, entry by entry *)

Section PushedEntries.
Context `{Api : UnrealApi}.

Lemma VectorOf_Normal Field Bone v :
  VectorOf Field Bone = Normal v
  <-> exists BoneObject x y z,
        AsObject Bone = Some BoneObject
        /\ TryGetArrayField BoneObject Field = Some [x; y; z]
        /\ v = MakeFVector (AsNumber x) (AsNumber y) (AsNumber z).
Proof.
  unfold VectorOf. destruct (AsObject Bone) as [o|]; simpl.
  2:{ split; [done|]. intros (? & ? & ? & ? & ? & _). done. }
  destruct (TryGetArrayOfNum o Field 3) as [a|] eqn:Ha.
  - apply TryGetArrayOfNum_Some in Ha as [Ha Hlen].
    destruct a as [|x [|y [|z [|]]]]; simplify_eq/=. split.
    + intros [= <-]. by exists o, x, y, z.
    + intros (? & ? & ? & ? & [= <-] & Hr & ->). by simplify_eq.
  - split; [done|]. intros (? & x & y & z & [= <-] & Hr & _).
    assert (TryGetArrayOfNum o Field 3 = Some [x; y; z]) as E
      by (by apply TryGetArrayOfNum_Some). congruence.
Qed.

Lemma TransformOf_Normal Bone t :
  TransformOf Bone = Normal t ->
  exists BoneObject lx ly lz qx qy qz qw sx sy sz,
    AsObject Bone = Some BoneObject
    /\ TryGetArrayField BoneObject (TEXT "Location") = Some [lx; ly; lz]
    /\ TryGetArrayField BoneObject (TEXT "Rotation") = Some [qx; qy; qz; qw]
    /\ TryGetArrayField BoneObject (TEXT "Scale") = Some [sx; sy; sz]
    /\ t = MakeFTransform
             (MakeFQuat (AsNumber qx) (AsNumber qy) (AsNumber qz) (AsNumber qw))
             (MakeFVector (AsNumber lx) (AsNumber ly) (AsNumber lz))
             (MakeFVector (AsNumber sx) (AsNumber sy) (AsNumber sz)).
Proof.
  unfold TransformOf.
  destruct (VectorOf (TEXT "Location") Bone) as [l| |] eqn:Hl; simpl; try done.
  destruct (RotationOf Bone) as [q| |] eqn:Hq; simpl; try done.
  destruct (VectorOf (TEXT "Scale") Bone) as [s| |] eqn:Hs; simpl; try done.
  apply VectorOf_Normal in Hl as (o & lx & ly & lz & HO & Hl & ->).
  apply RotationOf_Normal in Hq as (o' & qx & qy & qz & qw & HO' & Hq & ->).
  apply VectorOf_Normal in Hs as (o'' & sx & sy & sz & HO'' & Hs & ->).
  intros [= <-]. simplify_eq.
  exists o, lx, ly, lz, qx, qy, qz, qw, sx, sy, sz. done.
Qed.

(** Entry [i] of each of the three bone arrays is made from bone [i] of
    the "Bone" array: its "Name", its "Parent" as it stands (no check
    against the number of bones), and the transform of its "Rotation",
    "Location" and "Scale", whose entries are read with [AsNumber]. *)
Theorem bones_are_pushed_by_index Value MyJsonObject BoneArray L i Bone :
  DecodeSubject Value = Normal L ->
  AsObject Value = Some MyJsonObject ->
  TryGetArrayField MyJsonObject (TEXT "Bone") = Some BoneArray ->
  BoneArray !! i = Some Bone ->
  exists BoneObject BoneName BoneParentIdx lx ly lz qx qy qz qw sx sy sz,
    AsObject Bone = Some BoneObject
    /\ TryGetStringField BoneObject (TEXT "Name") = Some BoneName
    /\ TryGetNumberField_int32 BoneObject (TEXT "Parent") = Some BoneParentIdx
    /\ TryGetArrayField BoneObject (TEXT "Location") = Some [lx; ly; lz]
    /\ TryGetArrayField BoneObject (TEXT "Rotation") = Some [qx; qy; qz; qw]
    /\ TryGetArrayField BoneObject (TEXT "Scale") = Some [sx; sy; sz]
    /\ BoneNames (StaticData L) !! i = Some (Some (MakeFName BoneName))
    /\ BoneParents (StaticData L) !! i = Some (Some BoneParentIdx)
    /\ Transforms (FrameData L) !! i
       = Some (Some (MakeFTransform
                       (MakeFQuat (AsNumber qx) (AsNumber qy) (AsNumber qz)
                                  (AsNumber qw))
                       (MakeFVector (AsNumber lx) (AsNumber ly) (AsNumber lz))
                       (MakeFVector (AsNumber sx) (AsNumber sy) (AsNumber sz)))).
Proof.
  intros HD HO HB Hi.
  destruct (DecodeSubject_Decoded _ _ _ HD HO) as (-> & HBV & _).
  destruct (proj1 (BonesVerdict_Normal _) HBV _ HB Bone) as (Hn & Hp & Ht).
  { apply list_elem_of_lookup. eauto. }
  apply is_Normal_true in Hn as [n Hn]. apply is_Normal_true in Hp as [p Hp].
  apply is_Normal_true in Ht as [t Ht].
  pose proof Hn as (o & BoneName & Ho & Hname & ->)%BoneNameOf_Normal.
  pose proof Hp as (o' & Ho' & Hparent)%BoneParentOf_Normal.
  pose proof Ht as (o'' & lx & ly & lz & qx & qy & qz & qw & sx & sy & sz
                    & Ho'' & Hl & Hq & Hs & ->)%TransformOf_Normal.
  simplify_eq.
  exists o, BoneName, p, lx, ly, lz, qx, qy, qz, qw, sx, sy, sz.
  do 6 (split; [done|]).
  destruct (Decoded_bones _ _ HB) as (-> & -> & -> & _).
  rewrite !list_lookup_fmap, Hi. simpl. by rewrite Hn, Hp, Ht.
Qed.

(** Entry [i] of the property names and of the property values is made
    from parameter [i] of the "Parameter" array: its "Name", and its
    "Value" converted from [double] to [float]. *)
Theorem parameters_are_pushed_by_index
    Value MyJsonObject ParameterArray L i param :
  DecodeSubject Value = Normal L ->
  AsObject Value = Some MyJsonObject ->
  TryGetArrayField MyJsonObject (TEXT "Parameter") = Some ParameterArray ->
  ParameterArray !! i = Some param ->
  exists paramObject parameterName value,
    AsObject param = Some paramObject
    /\ TryGetStringField paramObject (TEXT "Name") = Some parameterName
    /\ TryGetNumberField_double paramObject (TEXT "Value") = Some value
    /\ PropertyNames (StaticData L) !! i = Some (Some (MakeFName parameterName))
    /\ PropertyValues (FrameData L) !! i = Some (Some (float_cast value)).
Proof.
  intros HD HO HP Hi.
  destruct (DecodeSubject_Decoded _ _ _ HD HO) as (-> & _ & HPV).
  destruct (proj1 (ParametersVerdict_Normal _) HPV _ HP param) as (Hn & Hv).
  { apply list_elem_of_lookup. eauto. }
  apply is_Normal_true in Hn as [n Hn]. apply is_Normal_true in Hv as [x Hx].
  pose proof Hn as (o & parameterName & Ho & Hname & ->)%ParameterNameOf_Normal.
  pose proof Hx as (o' & value & Ho' & Hvalue & ->)%ParameterValueOf_Normal.
  simplify_eq. exists o, parameterName, value. do 3 (split; [done|]).
  destruct (Decoded_parameters _ _ HP) as (-> & ->).
  pose proof (lookup_lt_Some _ _ _ Hi) as Hlt.
  rewrite !lookup_app_l by (by rewrite length_fmap).
  rewrite !list_lookup_fmap, Hi. simpl. by rewrite Hn, Hx.
Qed.

(** Without a "Bone" array, or with an empty one, the three angles keep
    their initial value 0, and that is what the three head properties
    of a "Parameter" array carry. *)
Theorem head_angles_are_zero_without_bones Value MyJsonObject L :
  DecodeSubject Value = Normal L ->
  AsObject Value = Some MyJsonObject ->
  TryGetArrayField MyJsonObject (TEXT "Bone") = None
  \/ TryGetArrayField MyJsonObject (TEXT "Bone") = Some [] ->
  headRoll L = 0%float /\ headPitch L = 0%float /\ headYaw L = 0%float
  /\ forall ParameterArray,
       TryGetArrayField MyJsonObject (TEXT "Parameter") = Some ParameterArray ->
       drop (length ParameterArray) (PropertyValues (FrameData L))
       = [Some (float_cast 0); Some (float_cast 0); Some (float_cast 0)].
Proof.
  intros HD HO HB.
  destruct (DecodeSubject_Decoded _ _ _ HD HO) as (-> & _ & _).
  assert (head3 (DecodedBones MyJsonObject InitialLocals) = (0, 0, 0)%float) as Hh.
  { destruct HB as [HB|HB].
    - by destruct (Decoded_no_bones _ HB) as (_ & _ & _ & ->).
    - by destruct (Decoded_bones _ _ HB) as (_ & _ & _ & ->). }
  pose proof (Decoded_head MyJsonObject) as Hd. rewrite Hh in Hd.
  unfold head3 in Hd, Hh. injection Hd as -> -> ->. injection Hh as Hr Hp Hy.
  do 3 (split; [done|]). intros ParameterArray HP.
  destruct (Decoded_parameters _ _ HP) as (_ & ->).
  rewrite drop_app_length'; [|by rewrite length_fmap].
  unfold HeadValues. by rewrite Hr, Hp, Hy.
Qed.

(** *** The structural defects are all that stops a subject *)

Lemma Bone_decodes_or_defect Bone BoneObject :
  AsObject Bone = Some BoneObject ->
  (is_Normal (BoneNameOf Bone) = true /\ is_Normal (BoneParentOf Bone) = true
   /\ is_Normal (TransformOf Bone) = true)
  \/ BoneDefect Bone.
Proof.
  intros HO.
  destruct (TryGetStringField BoneObject (TEXT "Name")) as [n|] eqn:Hn;
    [|right; exists BoneObject; auto].
  destruct (TryGetNumberField_int32 BoneObject (TEXT "Parent")) as [p|] eqn:Hp;
    [|right; exists BoneObject; auto].
  destruct (TryGetArrayOfNum BoneObject (TEXT "Location") 3) as [l|] eqn:Hl;
    [|right; exists BoneObject; auto 6].
  destruct (TryGetArrayOfNum BoneObject (TEXT "Rotation") 4) as [r|] eqn:Hr;
    [|right; exists BoneObject; auto 7].
  destruct (TryGetArrayOfNum BoneObject (TEXT "Scale") 3) as [s|] eqn:Hs;
    [|right; exists BoneObject; auto 8].
  left. split; [|split].
  - unfold BoneNameOf. rewrite HO. simpl. by rewrite Hn.
  - unfold BoneParentOf. rewrite HO. simpl. by rewrite Hp.
  - apply TransformOf_is_Normal. by exists BoneObject, l, r, s.
Qed.

Lemma Parameter_decodes_or_defect param paramObject :
  AsObject param = Some paramObject ->
  (is_Normal (ParameterNameOf param) = true
   /\ is_Normal (ParameterValueOf param) = true)
  \/ ParameterDefect param.
Proof.
  intros HO.
  destruct (TryGetStringField paramObject (TEXT "Name")) as [n|] eqn:Hn;
    [|right; exists paramObject; auto].
  destruct (TryGetNumberField_double paramObject (TEXT "Value")) as [v|] eqn:Hv;
    [|right; exists paramObject; auto].
  left. split.
  - unfold ParameterNameOf. rewrite HO. simpl. by rewrite Hn.
  - unfold ParameterValueOf. rewrite HO. simpl. by rewrite Hv.
Qed.

Lemma all_or_one {A} (P Q : A -> Prop) (l : list A) :
  (forall x, x ∈ l -> P x \/ Q x) ->
  (forall x, x ∈ l -> P x) \/ (exists x, x ∈ l /\ Q x).
Proof.
  induction l as [|a l IH]; intros H.
  - left. intros x Hx. by apply elem_of_nil in Hx.
  - destruct (H a) as [Ha|Ha]; [by left| |right; exists a; split; [by left|done]].
    destruct IH as [IH|(x & Hx & HQ)].
    + intros x Hx. apply H. by right.
    + left. intros x [->|Hx]%elem_of_cons; auto.
    + right. exists x. split; [by right|done].
Qed.

(** When [AsObject] never hands back a null pointer, a subject is left
    undecoded exactly when it has one of the structural defects: no other
    property of the update is checked (not the kind of the entries of
    "Location", "Rotation" and "Scale", not the range of "Parent"). *)
Theorem subject_is_stopped_by_defects_only :
  (forall v : FJsonValue, AsObject v <> None) ->
  forall Value, SubjectDefect Value <-> is_Normal (DecodeSubject Value) = false.
Proof.
  intros Hvalid Value. split; [apply SubjectDefect_not_Normal|]. intros HN.
  destruct (AsObject Value) as [o|] eqn:HO; [|by destruct (Hvalid Value)].
  assert (BonesVerdict o = Normal tt
          \/ exists BoneArray Bone,
               TryGetArrayField o (TEXT "Bone") = Some BoneArray
               /\ Bone ∈ BoneArray /\ BoneDefect Bone) as [HB|HB].
  { destruct (TryGetArrayField o (TEXT "Bone")) as [BoneArray|] eqn:HB.
    - destruct (all_or_one
                  (fun Bone => is_Normal (BoneNameOf Bone) = true
                               /\ is_Normal (BoneParentOf Bone) = true
                               /\ is_Normal (TransformOf Bone) = true)
                  BoneDefect BoneArray) as [Hall|(Bone & Hin & Hdef)].
      + intros Bone _. pose proof (Hvalid Bone).
        destruct (AsObject Bone) as [bo|] eqn:Hbo; [|done].
        by apply (Bone_decodes_or_defect Bone bo).
      + left. apply BonesVerdict_Normal. intros ? Heq. rewrite HB in Heq.
        by injection Heq as <-.
      + right. by exists BoneArray, Bone.
    - left. apply BonesVerdict_Normal. intros ? Heq. by rewrite HB in Heq. }
  2:{ exists o. split; [done|]. by left. }
  assert (ParametersVerdict o = Normal tt
          \/ exists ParameterArray param,
               TryGetArrayField o (TEXT "Parameter") = Some ParameterArray
               /\ param ∈ ParameterArray /\ ParameterDefect param) as [HP|HP].
  { destruct (TryGetArrayField o (TEXT "Parameter")) as [ParameterArray|] eqn:HP.
    - destruct (all_or_one
                  (fun param => is_Normal (ParameterNameOf param) = true
                                /\ is_Normal (ParameterValueOf param) = true)
                  ParameterDefect ParameterArray) as [Hall|(param & Hin & Hdef)].
      + intros param _. pose proof (Hvalid param).
        destruct (AsObject param) as [po|] eqn:Hpo; [|done].
        by apply (Parameter_decodes_or_defect param po).
      + left. apply ParametersVerdict_Normal. intros ? Heq. rewrite HP in Heq.
        by injection Heq as <-.
      + right. by exists ParameterArray, param.
    - left. apply ParametersVerdict_Normal. intros ? Heq. by rewrite HP in Heq. }
  2:{ exists o. split; [done|]. by right. }
  exfalso. rewrite DecodeSubject_eq in HN.
  assert (SubjectVerdict Value = Normal tt) as HV
    by (apply SubjectVerdict_Normal; by exists o).
  by rewrite HV in HN.
Qed.

(** *** A datagram as a whole *)

Lemma AllAdded_cons s f Fields :
  AllAdded s (f :: Fields) = AllAdded (Add s (MakeFName f.1)) Fields.
Proof. done. Qed.

Lemma AllPushes_cons Guid f Fields :
  AllPushes Guid (f :: Fields)
  = PushesOf Guid (MakeFName f.1) (DecodedSubject f.2) ++ AllPushes Guid Fields.
Proof. done. Qed.

(** The loop over the subjects pushes the fields before the first one
    that is not decoded, and ends the way that one does. *)
Lemma ForEachSubject_prefix Fields this log :
  exists pre post,
    Fields = pre ++ post
    /\ Forall (fun f => is_Normal (DecodeSubject f.2) = true) pre
    /\ match post with
       | [] => True
       | f :: _ => is_Normal (DecodeSubject f.2) = false
       end
    /\ ForEachSubject Fields this log
       = {| Source_after :=
              {| SourceGuid := SourceGuid this;
                 EncounteredSubjects := AllAdded (EncounteredSubjects this) pre |};
            Effects := log ++ AllPushes (SourceGuid this) pre;
            Exit := match post with
                    | [] => Normal tt
                    | f :: _ => (fun _ => tt) <$> DecodeSubject f.2
                    end |}.
Proof.
  revert this log. induction Fields as [|[Key Value] Fields IH]; intros this log.
  - exists [], []. repeat split; [constructor|]. simpl.
    rewrite app_nil_r. by destruct this.
  - destruct (DecodeSubject Value) as [L| |] eqn:HD.
    + rewrite (ForEachSubject_cons_Normal _ _ _ _ _ _ HD).
      edestruct IH as (pre & post & -> & Hpre & Hpost & ->).
      exists ((Key, Value) :: pre), post. split; [done|]. split.
      { constructor; [cbn [snd]; by rewrite HD|done]. }
      split; [done|]. cbn [SourceGuid EncounteredSubjects].
      rewrite AllAdded_cons, AllPushes_cons, <- app_assoc. cbn [fst snd].
      by apply DecodeSubject_Normal in HD as [_ ->].
    + exists [], ((Key, Value) :: Fields). split; [done|]. split; [constructor|].
      cbn [snd]. rewrite ForEachSubject_cons_abort by (by rewrite HD).
      rewrite HD. split; [done|].
      unfold AllAdded, AllPushes. cbn [fold_left flat_map].
      rewrite app_nil_r. by destruct this.
    + exists [], ((Key, Value) :: Fields). split; [done|]. split; [constructor|].
      cbn [snd]. rewrite ForEachSubject_cons_abort by (by rewrite HD).
      rewrite HD. split; [done|].
      unfold AllAdded, AllPushes. cbn [fold_left flat_map].
      rewrite app_nil_r. by destruct this.
Qed.

(** What a datagram that the reader accepts does, whatever it holds: its
    fields split into the longest run of decoded subjects from the front
    and the rest; exactly the subjects of that run are pushed, each with
    its three effects, in the order of the fields; they are the subjects
    added to the set; and the call runs to its end when the rest is empty,
    and otherwise leaves the way the first subject of the rest does. *)
Theorem datagram_is_pushed_up_to_the_first_failure ReceivedData JsonObject this :
  Deserialize (JsonStringOf ReceivedData) = Some JsonObject ->
  exists pre post,
    Values JsonObject = pre ++ post
    /\ Forall (fun f => is_Normal (DecodeSubject f.2) = true) pre
    /\ match post with
       | [] => True
       | f :: _ => is_Normal (DecodeSubject f.2) = false
       end
    /\ HandleReceivedData ReceivedData this
       = {| Source_after :=
              {| SourceGuid := SourceGuid this;
                 EncounteredSubjects := AllAdded (EncounteredSubjects this) pre |};
            Effects := AllPushes (SourceGuid this) pre;
            Exit := match post with
                    | [] => Normal tt
                    | f :: _ => (fun _ => tt) <$> DecodeSubject f.2
                    end |}.
Proof.
  intros HJ. rewrite (HandleReceivedData_fields _ _ _ HJ).
  destruct (ForEachSubject_prefix (Values JsonObject) this [])
    as (pre & post & ? & ? & ? & ->).
  by exists pre, post.
Qed.

Lemma elem_of_AllAdded s Fields x :
  x ∈ AllAdded s Fields <-> x ∈ s \/ exists f, f ∈ Fields /\ x = MakeFName f.1.
Proof.
  revert s. induction Fields as [|f Fields IH]; intros s.
  - simpl. split; [auto|]. intros [?|(f & Hf & _)]; [done|].
    by apply elem_of_nil in Hf.
  - rewrite AllAdded_cons, IH, Contains_Add. split.
    + intros [[?| ->]|(g & ? & ->)]; [by left| |].
      * right. exists f. split; [by left|done].
      * right. exists g. split; [by right|done].
    + intros [?|(g & [->|Hg]%elem_of_cons & ->)]; [by left; left|by left; right|].
      right. by exists g.
Qed.

Lemma elem_of_AllPushes Guid Fields x :
  EncounteredSubjects_Add x ∈ AllPushes Guid Fields
  <-> exists f, f ∈ Fields /\ x = MakeFName f.1.
Proof.
  induction Fields as [|f Fields IH].
  - split; [by intros ?%elem_of_nil|]. intros (f & Hf & _).
    by apply elem_of_nil in Hf.
  - rewrite AllPushes_cons, elem_of_app, IH. unfold PushesOf. split.
    + intros [H|(g & ? & ->)].
      * exists f. split; [by left|].
        apply elem_of_cons in H as [?|H]; [done|].
        apply elem_of_cons in H as [[= ->]|H]; [done|].
        apply elem_of_cons in H as [?|H]; [done|]. by apply elem_of_nil in H.
      * exists g. split; [by right|done].
    + intros (g & [->|Hg]%elem_of_cons & ->).
      * left. right. by left.
      * right. by exists g.
Qed.

Lemma NoDup_Add s n : NoDup s -> NoDup (Add s n).
Proof.
  intros H. unfold Add, Contains. case_bool_decide; [done|].
  apply NoDup_app. split; [done|]. split; [|apply NoDup_singleton].
  intros x Hx ->%list_elem_of_singleton. done.
Qed.

Lemma NoDup_AllAdded s Fields : NoDup s -> NoDup (AllAdded s Fields).
Proof.
  revert s. induction Fields as [|f Fields IH]; intros s H; [done|].
  rewrite AllAdded_cons. by apply IH, NoDup_Add.
Qed.

Lemma HandleReceivedData_outcome ReceivedData this :
  exists pre,
    HandleReceivedData ReceivedData this
    = {| Source_after :=
           {| SourceGuid := SourceGuid this;
              EncounteredSubjects := AllAdded (EncounteredSubjects this) pre |};
         Effects := AllPushes (SourceGuid this) pre;
         Exit := Exit (HandleReceivedData ReceivedData this) |}.
Proof.
  unfold HandleReceivedData.
  destruct (Deserialize (JsonStringOf ReceivedData)) as [JsonObject|].
  - destruct (ForEachSubject_prefix (Values JsonObject) this [])
      as (pre & post & _ & _ & _ & ->).
    by exists pre.
  - exists []. simpl. by destruct this.
Qed.

(** The set of encountered subjects only grows, and by exactly the
    subjects the call pushes: after any datagram a subject is in the set
    when it was there before or the call has added it between a static and
    a frame push; the entries stay distinct and the identifier of the
    source is not touched. *)
Theorem encountered_subjects_are_the_pushed_ones ReceivedData this :
  let r := HandleReceivedData ReceivedData this in
  (forall x,
     x ∈ EncounteredSubjects (Source_after r)
     <-> x ∈ EncounteredSubjects this \/ EncounteredSubjects_Add x ∈ Effects r)
  /\ (NoDup (EncounteredSubjects this) -> NoDup (EncounteredSubjects (Source_after r)))
  /\ SourceGuid (Source_after r) = SourceGuid this.
Proof.
  cbv zeta. destruct (HandleReceivedData_outcome ReceivedData this) as [pre ->].
  simpl. split; [|split; [apply NoDup_AllAdded|done]].
  intros x. by rewrite elem_of_AllAdded, elem_of_AllPushes.
Qed.

Lemma SourceOf_AllPushes Guid Fields :
  Forall (fun e => SourceOf e = None \/ SourceOf e = Some Guid)
         (AllPushes Guid Fields).
Proof.
  induction Fields as [|f Fields IH]; [constructor|].
  rewrite AllPushes_cons. apply Forall_app. split; [|done].
  unfold PushesOf.
  constructor; [by right|]. constructor; [by left|]. constructor; [by right|].
  constructor.
Qed.

(** Every static and frame push of a datagram is made for the identifier
    that the last [ReceiveClient] handed over, and [ReceiveClient] leaves
    the set of encountered subjects as it is. *)
Theorem pushes_carry_the_received_guid InSourceGuid ReceivedData this :
  let r := HandleReceivedData ReceivedData (ReceiveClient InSourceGuid this) in
  Forall (fun e => SourceOf e = None \/ SourceOf e = Some InSourceGuid) (Effects r)
  /\ SourceGuid (Source_after r) = InSourceGuid
  /\ forall x, x ∈ EncounteredSubjects this ->
               x ∈ EncounteredSubjects (Source_after r).
Proof.
  cbv zeta.
  destruct (HandleReceivedData_outcome ReceivedData (ReceiveClient InSourceGuid this))
    as [pre ->].
  simpl. split; [apply SourceOf_AllPushes|]. split; [done|].
  intros x Hx. apply elem_of_AllAdded. by left.
Qed.

(** *** Datagram after datagram *)

Lemma HandleReceivedData_registry ReceivedData this1 this2 :
  SourceGuid this1 = SourceGuid this2 ->
  Effects (HandleReceivedData ReceivedData this1)
  = Effects (HandleReceivedData ReceivedData this2)
  /\ Exit (HandleReceivedData ReceivedData this1)
     = Exit (HandleReceivedData ReceivedData this2).
Proof.
  intros HG. unfold HandleReceivedData.
  destruct (Deserialize (JsonStringOf ReceivedData)) as [JsonObject|]; [|done].
  by apply ForEachSubject_registry.
Qed.

Lemma HandleReceivedData_SourceGuid ReceivedData this :
  SourceGuid (Source_after (HandleReceivedData ReceivedData this)) = SourceGuid this.
Proof.
  unfold HandleReceivedData.
  destruct (Deserialize (JsonStringOf ReceivedData)) as [JsonObject|]; [|done].
  apply ForEachSubject_SourceGuid.
Qed.

Lemma HandleReceivedData_not_Fault ReceivedData this :
  (forall v : FJsonValue, AsObject v <> None) ->
  Exit (HandleReceivedData ReceivedData this) <> Fault.
Proof.
  intros Hvalid. unfold HandleReceivedData.
  destruct (Deserialize (JsonStringOf ReceivedData)) as [JsonObject|]; [|done].
  generalize (@nil Effect). revert this.
  induction (Values JsonObject) as [|[Key Value] Fields IH]; intros this log.
  - done.
  - pose proof (DecodeSubject_not_Fault Hvalid Value) as HF.
    destruct (DecodeSubject Value) as [L| |] eqn:HD.
    + rewrite (ForEachSubject_cons_Normal _ _ _ _ _ _ HD). apply IH.
    + rewrite ForEachSubject_cons_abort by (by rewrite HD). by rewrite HD.
    + done.
Qed.

Lemma AllAdded_absorbed s Fields :
  (forall f, f ∈ Fields -> MakeFName f.1 ∈ s) -> AllAdded s Fields = s.
Proof.
  induction Fields as [|f Fields IH]; intros H; [done|].
  rewrite AllAdded_cons.
  assert (Add s (MakeFName f.1) = s) as ->.
  { unfold Add, Contains. rewrite bool_decide_eq_true_2; [done|].
    apply H. by left. }
  apply IH. intros g Hg. apply H. by right.
Qed.

(** Handling a datagram a second time leaves the source as the first
    time left it: the subjects it pushes are in the set already. *)
Theorem replayed_datagram_leaves_the_source ReceivedData this :
  let r := HandleReceivedData ReceivedData this in
  Source_after (HandleReceivedData ReceivedData (Source_after r)) = Source_after r.
Proof.
  cbv zeta.
  destruct (HandleReceivedData_registry ReceivedData
              (Source_after (HandleReceivedData ReceivedData this)) this
              (HandleReceivedData_SourceGuid ReceivedData this)) as [HE _].
  destruct (HandleReceivedData_outcome ReceivedData
              (Source_after (HandleReceivedData ReceivedData this)))
    as [pre2 E2].
  rewrite E2 in HE |- *. cbn [Source_after Effects] in HE |- *.
  destruct (HandleReceivedData_outcome ReceivedData this) as [pre1 E1].
  rewrite E1 in HE |- *.
  cbn [Source_after Effects SourceGuid EncounteredSubjects] in HE |- *.
  f_equal. apply AllAdded_absorbed. intros f Hf.
  apply elem_of_AllAdded. right. apply (elem_of_AllPushes (SourceGuid this)).
  rewrite <- HE. apply elem_of_AllPushes. by exists f.
Qed.

(** Datagrams are decoded independently of each other: when [AsObject]
    never hands back a null pointer, what a queue of datagrams pushes is,
    datagram after datagram, what each of them pushes on a source that has
    seen no subject; one that is left early or is not accepted by the
    reader takes nothing from the datagrams behind it. *)
Theorem datagrams_are_decoded_independently :
  (forall v : FJsonValue, AsObject v <> None) ->
  forall Queue this,
    let fresh := {| SourceGuid := SourceGuid this; EncounteredSubjects := [] |} in
    Effects (GameThread Queue this)
    = concat ((fun ReceivedData => Effects (HandleReceivedData ReceivedData fresh))
                <$> Queue)
    /\ Exit (GameThread Queue this) = Normal tt.
Proof.
  intros Hvalid Queue. induction Queue as [|d Queue IH]; intros this; [done|].
  cbv zeta. cbn [GameThread fmap list_fmap concat].
  pose proof (HandleReceivedData_not_Fault d this Hvalid) as HF.
  pose proof (HandleReceivedData_SourceGuid d this) as HG.
  destruct (IH (Source_after (HandleReceivedData d this))) as [HE HX].
  rewrite HG in HE.
  destruct (HandleReceivedData_registry d this
              {| SourceGuid := SourceGuid this; EncounteredSubjects := [] |})
    as [<- _]; [done|].
  destruct (Exit (HandleReceivedData d this)) as [[]| |]; simpl;
    [by rewrite HE|by rewrite HE|done].
Qed.

End PushedEntries.

(** The reader is never handed a character above U+00FF, and never more
    characters than the datagram has bytes. *)
Theorem json_string_is_made_of_bytes (ReceivedData : list byte) :
  Forall (fun c => 0 <= c < 256) (JsonStringOf ReceivedData)
  /\ (length (JsonStringOf ReceivedData) <= length ReceivedData)%nat.
Proof.
  rewrite JsonStringOf_widens. split.
  - apply Forall_fmap, Forall_forall. intros b _. simpl. unfold TCHAR_of_uint8.
    pose proof (Byte.to_N_bounded b). lia.
  - rewrite length_fmap. apply List.filter_length_le.
Qed.

(* ================================================================== *)
(** ** The receiver thread *)

Section ReceiverProperties.
Context `{Net : SocketApi}.

Lemma RecvFrom_length (RecvBuffer : TArray byte) (a : RecvFromAnswer) :
  length (RecvFrom RecvBuffer a) = length RecvBuffer.
Proof.
  unfold RecvFrom. rewrite length_app, length_fmap, length_take, length_drop. lia.
Qed.

(** After a call that kept its promise the first [Read] slots of the
    buffer are the bytes the call stored. *)
Lemma RecvFrom_take (RecvBuffer : TArray byte) (a : RecvFromAnswer) :
  RecvFrom_contract (Z.of_nat (length RecvBuffer)) a -> Succeeded a = true ->
  take (Z.to_nat (Read a)) (RecvFrom RecvBuffer a) = Filled (Written a).
Proof.
  intros Hc Hs. destruct (Hc Hs) as [Hr Hle]. unfold RecvFrom.
  rewrite (take_ge (Written a)) by lia. apply take_app_length'.
  unfold Filled. rewrite length_fmap. lia.
Qed.

Lemma memcpy_fresh (src : TArray byte) (n : nat) :
  (n <= length src)%nat -> memcpy (SetNumUninitialized n) src n = Normal (take n src).
Proof.
  intros H. unfold memcpy, SetNumUninitialized.
  rewrite decide_True by (rewrite length_replicate; lia).
  by rewrite drop_replicate, Nat.sub_diag, app_nil_r.
Qed.

Lemma memcpy_fresh_inv (src : TArray byte) (n : nat) (d : TArray byte) :
  memcpy (SetNumUninitialized n) src n = Normal d ->
  length d = n /\ (n <= length src)%nat.
Proof.
  unfold memcpy, SetNumUninitialized. case_decide as H; [|done].
  intros [= <-]. destruct H as [_ H].
  rewrite length_app, length_take, length_drop, length_replicate. lia.
Qed.

Lemma Drain_contract Pending (RecvBuffer : TArray byte) Queue :
  Forall (RecvFrom_contract (Z.of_nat (length RecvBuffer))) Pending ->
  exists RecvBuffer',
    Drain Pending RecvBuffer Queue
    = Normal (RecvBuffer', Queue ++ (Filled <$> omap PayloadOf Pending))
    /\ length RecvBuffer' = length RecvBuffer.
Proof.
  intros H. revert RecvBuffer Queue H.
  induction Pending as [|a Pending IH]; intros RecvBuffer Queue H.
  - exists RecvBuffer. simpl. by rewrite app_nil_r.
  - apply Forall_cons in H as [Ha H]. cbn [Drain omap list_omap]. unfold PayloadOf at 1.
    pose proof (RecvFrom_length RecvBuffer a) as Hlen.
    destruct (IH (RecvFrom RecvBuffer a) Queue) as (b1 & E1 & L1);
      [by rewrite Hlen|].
    destruct (Succeeded a) eqn:Hs; cbn [andb].
    2:{ exists b1. split; [done|congruence]. }
    destruct (0 <? Read a) eqn:Hr.
    2:{ exists b1. split; [done|congruence]. }
    destruct (Ha Hs) as [HR Hle].
    rewrite memcpy_fresh by (rewrite Hlen; lia).
    rewrite (RecvFrom_take _ _ Ha Hs). cbn [mbind Flow_bind].
    destruct (IH (RecvFrom RecvBuffer a) (Queue ++ [Filled (Written a)]))
      as (b2 & E2 & L2); [by rewrite Hlen|].
    exists b2. rewrite E2. split; [|congruence].
    cbn [fmap list_fmap]. by rewrite <- app_assoc.
Qed.

Lemma AnswersOf_cons r rounds :
  AnswersOf (r :: rounds)
  = match r with WaitTimesOut => [] | DataPending p => p end ++ AnswersOf rounds.
Proof. done. Qed.

Lemma omap_app_PayloadOf (l k : list RecvFromAnswer) :
  omap PayloadOf (l ++ k) = omap PayloadOf l ++ omap PayloadOf k.
Proof. apply omap_app. Qed.

Lemma Rounds_contract rounds s (RecvBuffer : TArray byte) Queue :
  Forall (RecvFrom_contract (Z.of_nat (length RecvBuffer))) (AnswersOf rounds) ->
  exists RecvBuffer',
    Rounds rounds (Some s) RecvBuffer Queue
    = Normal (RecvBuffer', Queue ++ (Filled <$> Payloads rounds))
    /\ length RecvBuffer' = length RecvBuffer.
Proof.
  revert RecvBuffer Queue.
  induction rounds as [|r rounds IH]; intros RecvBuffer Queue H.
  - exists RecvBuffer. simpl. by rewrite app_nil_r.
  - rewrite AnswersOf_cons in H. apply Forall_app in H as [Hr H].
    unfold Payloads. rewrite AnswersOf_cons, omap_app_PayloadOf, fmap_app.
    cbn [Rounds deref mbind Flow_bind]. destruct r as [|Pending].
    + destruct (IH RecvBuffer Queue H) as (b & E & L). exists b. by rewrite E.
    + destruct (Drain_contract Pending RecvBuffer Queue Hr) as (b1 & -> & L1).
      cbn [mbind Flow_bind fst snd].
      destruct (IH b1 (Queue ++ (Filled <$> omap PayloadOf Pending)))
        as (b2 & E2 & L2); [by rewrite L1|].
      exists b2. rewrite E2. split; [|congruence].
      by rewrite <- app_assoc.
Qed.

(** A thread that runs with its socket and socket subsystem set, and
    before [Stop] was called, hands to the game thread one array for each
    call of [RecvFrom] that succeeds with [Read > 0], in the order of the
    calls, holding exactly the [Read] bytes that call stored, whatever a
    later call stores over them; a call that fails or reads no byte hands
    on nothing.  It returns 0 when it reads [Stopping] as true, and the
    receive buffer keeps its size. *)
Theorem run_hands_on_every_datagram rounds (this : ReceiverMembers) Queue :
  SocketSubsystem this = true ->
  Stopping this = false ->
  Socket this <> None ->
  Forall (RecvFrom_contract (Z.of_nat (length (RecvBuffer this))))
         (AnswersOf rounds) ->
  exists RecvBuffer',
    Run rounds this Queue
    = Normal (0, Stop (with_RecvBuffer RecvBuffer' this),
              Queue ++ (Filled <$> Payloads rounds))
    /\ length RecvBuffer' = length (RecvBuffer this).
Proof.
  intros HS Hstop Hsock Hc. unfold Run. rewrite HS, Hstop.
  destruct (Socket this) as [s|]; [|done].
  destruct (Rounds_contract rounds s (RecvBuffer this) Queue Hc) as (b & E & L).
  exists b. cbn [mbind Flow_bind]. by rewrite E.
Qed.

Lemma Drain_Normal Pending (RecvBuffer RecvBuffer' : TArray byte) Queue Queue' :
  Drain Pending RecvBuffer Queue = Normal (RecvBuffer', Queue') ->
  length RecvBuffer' = length RecvBuffer
  /\ exists new,
       Queue' = Queue ++ new
       /\ Forall (fun d => 0 < length d <= length RecvBuffer)%nat new
       /\ (length new <= length Pending)%nat.
Proof.
  revert RecvBuffer Queue.
  induction Pending as [|a Pending IH]; intros RecvBuffer Queue H.
  - injection H as <- <-. split; [done|]. exists []. by rewrite app_nil_r.
  - cbn [Drain] in H. pose proof (RecvFrom_length RecvBuffer a) as Hlen.
    assert (forall Q, Drain Pending (RecvFrom RecvBuffer a) Q
                      = Normal (RecvBuffer', Queue') ->
            length RecvBuffer' = length RecvBuffer
            /\ exists new,
                 Queue' = Q ++ new
                 /\ Forall (fun d => 0 < length d <= length RecvBuffer)%nat new
                 /\ (length new <= length Pending)%nat) as Hrest.
    { intros Q HQ. destruct (IH _ _ HQ) as (L & new & -> & Hnew & Hn).
      rewrite Hlen in L, Hnew. eauto. }
    destruct (Succeeded a).
    2:{ destruct (Hrest _ H) as (L & new & -> & Hnew & Hn).
        split; [done|]. exists new. simpl. auto with lia. }
    destruct (0 <? Read a) eqn:Hr.
    2:{ destruct (Hrest _ H) as (L & new & -> & Hnew & Hn).
        split; [done|]. exists new. simpl. auto with lia. }
    destruct (memcpy (SetNumUninitialized (Z.to_nat (Read a)))
                (RecvFrom RecvBuffer a) (Z.to_nat (Read a))) as [d| |] eqn:Hm;
      try done.
    cbn [mbind Flow_bind] in H.
    apply memcpy_fresh_inv in Hm as [Hd Hle]. rewrite Hlen in Hle.
    destruct (Hrest _ H) as (L & new & -> & Hnew & Hn).
    split; [done|]. exists (d :: new). split; [by rewrite <- app_assoc|].
    split; [|simpl; lia]. constructor; [|done].
    apply Z.ltb_lt in Hr. lia.
Qed.

Lemma Rounds_Normal rounds p (RecvBuffer RecvBuffer' : TArray byte) Queue Queue' :
  Rounds rounds p RecvBuffer Queue = Normal (RecvBuffer', Queue') ->
  length RecvBuffer' = length RecvBuffer
  /\ exists new,
       Queue' = Queue ++ new
       /\ Forall (fun d => 0 < length d <= length RecvBuffer)%nat new
       /\ (length new <= length (AnswersOf rounds))%nat.
Proof.
  revert RecvBuffer Queue.
  induction rounds as [|r rounds IH]; intros RecvBuffer Queue H.
  - injection H as <- <-. split; [done|]. exists []. by rewrite app_nil_r.
  - cbn [Rounds] in H. destruct p as [s|]; [|done]. cbn [deref mbind Flow_bind] in H.
    rewrite AnswersOf_cons. destruct r as [|Pending]; [by apply IH|].
    destruct (Drain Pending RecvBuffer Queue) as [[b1 Q1]| |] eqn:HD; try done.
    cbn [mbind Flow_bind fst snd] in H.
    destruct (Drain_Normal _ _ _ _ _ HD) as (L1 & new1 & -> & Hnew1 & Hn1).
    destruct (IH _ _ H) as (L2 & new2 & -> & Hnew2 & Hn2).
    split; [congruence|]. exists (new1 ++ new2).
    split; [by rewrite <- app_assoc|]. split.
    + apply Forall_app. split; [done|]. by rewrite L1 in Hnew2.
    + rewrite !length_app. lia.
Qed.

(** Whatever the socket answers, a call of [Run] that returns has
    returned 0, has added to the queue at most one array for each call of
    [RecvFrom], and none of them is empty or longer than the receive
    buffer: [HandleReceivedData] is never called on a datagram of no
    bytes. *)
Theorem run_hands_on_no_empty_datagram
    rounds (this this' : ReceiverMembers) Queue Queue' result :
  Run rounds this Queue = Normal (result, this', Queue') ->
  result = 0
  /\ length (RecvBuffer this') = length (RecvBuffer this)
  /\ exists new,
       Queue' = Queue ++ new
       /\ Forall (fun d => 0 < length d <= length (RecvBuffer this))%nat new
       /\ (length new <= length (AnswersOf rounds))%nat.
Proof.
  unfold Run. destruct (SocketSubsystem this); [|done]. cbn [mbind Flow_bind].
  destruct (Stopping this).
  - intros [= <- <- <-]. do 2 (split; [done|]). exists [].
    rewrite app_nil_r. repeat split; [constructor|simpl; lia].
  - destruct (Rounds rounds (Socket this) (RecvBuffer this) Queue)
      as [[b Q]| |] eqn:HR; try done.
    cbn [fst snd]. intros [= <- <- <-]. split; [done|].
    by apply Rounds_Normal in HR.
Qed.

(** *** The constructor *)

Lemma Construct_members (InEndpoint : FIPv4Address * Z) (Index : Z) :
  let this := Construct InEndpoint Index in
  Socket this = SocketFor InEndpoint
  /\ Stopping this = false
  /\ RecvBuffer this = SetNumUninitialized (Z.to_nat RECV_BUFFER_SIZE)
  /\ (Thread this, SocketSubsystem this, SourceStatus this)
     = match SocketFor InEndpoint with
       | Some s =>
           match GetSocketType s with
           | SOCKTYPE_Datagram =>
               (FRunnableThread_Create
                  (AppendInt (TEXT "JSON UDP Receiver ") Index) (128 * 1024),
                true, "Receiving"%string)
           | _ => (None, false, "Device Not Found"%string)
           end
       | None => (None, false, "Device Not Found"%string)
       end.
Proof.
  cbv zeta. unfold Construct. cbv zeta.
  cbn [Socket with_Socket with_RecvBuffer DeviceEndpoint].
  destruct (SocketFor InEndpoint) as [s|]; [|done].
  destruct (GetSocketType s); done.
Qed.

Lemma RECV_BUFFER_SIZE_length :
  Z.of_nat (length (@SetNumUninitialized byte (Z.to_nat RECV_BUFFER_SIZE)))
  = RECV_BUFFER_SIZE.
Proof.
  unfold SetNumUninitialized. rewrite length_replicate.
  apply Z2Nat.id. unfold RECV_BUFFER_SIZE. lia.
Qed.

(** The source that the constructor leaves is valid exactly when the
    builder has made a datagram socket and the thread was created; its
    status reads "Receiving" exactly when the builder has made a datagram
    socket, also when no thread was created, and "Device Not Found"
    exactly when it has not; the receive buffer has 1048576 slots. *)
Theorem constructed_source_validity (InEndpoint : FIPv4Address * Z) (Index : Z) :
  let this := Construct InEndpoint Index in
  (IsSourceStillValid this = true
   <-> exists s t,
         SocketFor InEndpoint = Some s
         /\ GetSocketType s = SOCKTYPE_Datagram
         /\ FRunnableThread_Create
              (AppendInt (TEXT "JSON UDP Receiver ") Index) (128 * 1024) = Some t)
  /\ (SourceStatus this = "Receiving"%string
      <-> exists s,
            SocketFor InEndpoint = Some s /\ GetSocketType s = SOCKTYPE_Datagram)
  /\ (SourceStatus this = "Device Not Found"%string
      <-> ~ exists s,
            SocketFor InEndpoint = Some s /\ GetSocketType s = SOCKTYPE_Datagram)
  /\ Z.of_nat (length (RecvBuffer this)) = 1048576.
Proof.
  cbv zeta.
  destruct (Construct_members InEndpoint Index) as (HS & Hstop & HB & HT).
  unfold IsSourceStillValid. rewrite HS, Hstop, HB, RECV_BUFFER_SIZE_length.
  cbn [negb andb].
  split; [|split; [|split; [|done]]].
  - destruct (SocketFor InEndpoint) as [s|].
    2:{ split; [|by intros (? & ? & ? & _)].
        rewrite andb_true_iff, !bool_decide_eq_true. by intros [_ ?]. }
    destruct (GetSocketType s) eqn:Hty; injection HT as -> _ _.
    1,3: split; [|by intros (? & ? & [= <-] & ? & _); congruence];
         rewrite andb_true_iff, !bool_decide_eq_true; by intros [? _].
    rewrite andb_true_iff, !bool_decide_eq_true. split.
    + intros [Hthr _].
      destruct (FRunnableThread_Create _ _) as [t|] eqn:Ht; [|done].
      by exists s, t.
    + intros (? & t & [= <-] & _ & ->). done.
  - destruct (SocketFor InEndpoint) as [s|].
    2:{ injection HT as _ _ ->. split; [done|]. by intros (? & ? & _). }
    destruct (GetSocketType s) eqn:Hty; injection HT as _ _ ->.
    1,3: split; [done|]; intros (? & [= <-] & ?); congruence.
    split; [|done]. intros _. by exists s.
  - destruct (SocketFor InEndpoint) as [s|].
    2:{ injection HT as _ _ ->. split; [|done]. by intros _ (? & ? & _). }
    destruct (GetSocketType s) eqn:Hty; injection HT as _ _ ->.
    1,3: split; [|done]; intros _ (? & [= <-] & ?); congruence.
    split; [done|]. intros H. destruct H. by exists s.
Qed.

(** The thread that the constructor starts runs [Run] on a source whose
    socket and socket subsystem are set: with a [RecvFrom] that keeps its
    promise for a buffer of [RECV_BUFFER_SIZE] bytes, [Run] dereferences no
    null pointer, copies from no slot outside the buffer, hands on every
    datagram received and returns 0 once [Stop] was called; the source is
    not valid from then on. *)
Theorem started_thread_runs_without_fault
    (InEndpoint : FIPv4Address * Z) (Index : Z) rounds :
  Thread (Construct InEndpoint Index) <> None ->
  Forall (RecvFrom_contract RECV_BUFFER_SIZE) (AnswersOf rounds) ->
  exists this',
    Run rounds (Construct InEndpoint Index) []
    = Normal (0, this', Filled <$> Payloads rounds)
    /\ IsSourceStillValid this' = false.
Proof.
  intros Hthread Hc.
  destruct (Construct_members InEndpoint Index) as (HS & Hstop & HB & HT).
  assert (SocketSubsystem (Construct InEndpoint Index) = true
          /\ Socket (Construct InEndpoint Index) <> None) as [Hsub Hsock].
  { rewrite HS. destruct (SocketFor InEndpoint) as [s|].
    - destruct (GetSocketType s); injection HT as HT ? _; done.
    - injection HT as HT _ _. done. }
  unfold Run. rewrite Hsub, Hstop. cbn [mbind Flow_bind].
  destruct (Socket (Construct InEndpoint Index)) as [s|]; [|done].
  destruct (Rounds_contract rounds s (RecvBuffer (Construct InEndpoint Index)) [])
    as (b & -> & L).
  { by rewrite HB, RECV_BUFFER_SIZE_length. }
  cbn [mbind Flow_bind fst snd]. eexists. split; [done|]. done.
Qed.

End ReceiverProperties.

(* ================================================================== *)
(** ** The life of a source *)

Section Life.
Context `{Api : UnrealApi} `{Net : SocketApi}.

Lemma Run_members rounds (this this' : ReceiverMembers) Queue Queue' result :
  Run rounds this Queue = Normal (result, this', Queue') ->
  Socket this' = Socket this
  /\ (Stopping this = true -> Stopping this' = true)
  /\ Thread this' = Thread this.
Proof.
  unfold Run. destruct (SocketSubsystem this); [|done]. cbn [mbind Flow_bind].
  destruct (Stopping this) eqn:Hstop.
  - by intros [= <- <- <-].
  - destruct (Rounds rounds (Socket this) (RecvBuffer this) Queue)
      as [st| |]; [|done|done].
    cbn [mbind Flow_bind]. by intros [= <- <- <-].
Qed.

Lemma Invoke_members (this : SourceObject) (c : MethodCall) :
  Socket (Receiver (Invoke this c)) = Socket (Receiver this)
  /\ (Stopping (Receiver this) = true -> Stopping (Receiver (Invoke this c)) = true).
Proof.
  destruct c; try done. cbn [Invoke].
  destruct (Run rounds (Receiver this) []) as [[[z r] q]| |] eqn:HR; try done.
  by destruct (Run_members _ _ _ _ _ _ HR) as (? & ? & _).
Qed.

Lemma InvokeAll_members (this : SourceObject) (calls : list MethodCall) :
  Socket (Receiver (InvokeAll this calls)) = Socket (Receiver this)
  /\ (Stopping (Receiver this) = true
      -> Stopping (Receiver (InvokeAll this calls)) = true).
Proof.
  revert this. induction calls as [|c calls IH]; intros this; [done|].
  change (InvokeAll this (c :: calls)) with (InvokeAll (Invoke this c) calls).
  destruct (IH (Invoke this c)) as [E HS], (Invoke_members this c) as [E' HS'].
  split; [congruence|auto].
Qed.

(** [RequestSourceShutdown] answers true, and after it, as after [Stop],
    the source is never valid again, whatever is called on it: no member
    function sets [Stopping] back. *)
Theorem shutdown_is_permanent (this : SourceObject) (calls : list MethodCall) :
  (RequestSourceShutdown (Receiver this)).2 = true
  /\ IsSourceStillValid
       (Receiver (InvokeAll (Invoke this Call_RequestSourceShutdown) calls)) = false
  /\ IsSourceStillValid (Receiver (InvokeAll (Invoke this Call_Stop) calls)) = false.
Proof.
  split; [done|]. unfold IsSourceStillValid.
  split.
  - destruct (InvokeAll_members (Invoke this Call_RequestSourceShutdown) calls)
      as [_ ->]; done.
  - destruct (InvokeAll_members (Invoke this Call_Stop) calls) as [_ ->]; done.
Qed.

(** No member function assigns [Socket] after the constructor, so the
    destructor, whenever it runs, closes and destroys exactly the socket
    the builder has made, of whatever type, once, and after it has waited
    for the thread and deleted it; it calls nothing on a null pointer and
    leaves a source that is not valid. *)
Theorem destructor_releases_the_socket
    (InEndpoint : FIPv4Address * Z) (Index : Z) (decoder : FJSONLiveLinkSource)
    (calls : list MethodCall) :
  let this :=
    Receiver (InvokeAll {| Receiver := Construct InEndpoint Index;
                           Decoder := decoder |} calls) in
  (Destruct this).2
  = match Thread this with
    | Some t => [Thread_WaitForCompletion t; Thread_delete t]
    | None => []
    end
    ++ match SocketFor InEndpoint with
       | Some s => [Socket_Close s; DestroySocket s]
       | None => []
       end
  /\ Thread (Destruct this).1 = None
  /\ IsSourceStillValid (Destruct this).1 = false.
Proof.
  cbv zeta.
  destruct (InvokeAll_members {| Receiver := Construct InEndpoint Index;
                                 Decoder := decoder |} calls) as [HS _].
  cbn [Receiver] in HS.
  destruct (Construct_members InEndpoint Index) as (HC & _). rewrite HC in HS.
  set (this := Receiver (InvokeAll _ calls)) in *.
  unfold Destruct, IsSourceStillValid, Stop.
  cbn [Thread with_Stopping].
  destruct (Thread this) as [t|] eqn:HT; cbn [Socket with_Thread with_Stopping];
    rewrite HS; destruct (SocketFor InEndpoint) as [s|]; cbn [fst snd];
    cbn [Thread Stopping with_Thread with_Stopping negb andb];
    rewrite ?app_nil_r, ?HT; done.
Qed.

End Life.

(* ================================================================== *)
(** ** The decoder on concrete datagrams *)

Import Reference.
#[local] Existing Instance Reference.Api.

(** The scenario of the specification (section 8), end to end; the head
    roll of the identity rotation is the negative zero. *)
Example head_scenario :
  HandleReceivedData HeadDatagram FreshSource
  = {| Source_after := {| SourceGuid := 7; EncounteredSubjects := [TEXT "Head"] |};
       Effects :=
         [PushSubjectStaticData_AnyThread 7 (TEXT "Head") ULiveLinkAnimationRole
            {| BoneNames := [Some (TEXT "root")];
               BoneParents := [Some (-1)];
               PropertyNames := [Some (TEXT "blink"); Some (TEXT "headRoll");
                                 Some (TEXT "headPitch"); Some (TEXT "headYaw")] |};
          EncounteredSubjects_Add (TEXT "Head");
          PushSubjectFrameData_AnyThread 7 (TEXT "Head")
            {| Transforms :=
                 [Some (MakeFTransform (MakeFQuat 0 0 0 1) (MakeFVector 0 0 0)
                                       (MakeFVector 1 1 1))];
               PropertyValues := [Some (float_cast 0.5); Some (float_cast (-0));
                                  Some (float_cast 0); Some (float_cast 0)] |}];
       Exit := Normal tt |}.
Proof. reflexivity. Qed.

(** C1, as stated, fails: "C" is a well formed subject of the datagram,
    and after the defective "B" nothing is pushed for it. *)
Lemma subject_after_defective_one_not_pushed :
  Deserialize (JsonStringOf BrokenDatagram) = Some BrokenFields
  /\ (TEXT "C", JObject []) ∈ Values BrokenFields
  /\ DecodeSubject (JObject []) = Normal InitialLocals
  /\ Effects (HandleReceivedData BrokenDatagram FreshSource)
     = [PushSubjectStaticData_AnyThread 7 (TEXT "A") ULiveLinkAnimationRole
          (StaticData InitialLocals);
        EncounteredSubjects_Add (TEXT "A");
        PushSubjectFrameData_AnyThread 7 (TEXT "A") (FrameData InitialLocals)]
  /\ EncounteredSubjects (Source_after (HandleReceivedData BrokenDatagram FreshSource))
     = [TEXT "A"].
Proof.
  split; [reflexivity|]. split; [|repeat split; reflexivity].
  apply list_elem_of_In. right. right. left. reflexivity.
Qed.

(** C2, as stated, fails: the two bytes C3 A9 are valid UTF-8 for the one
    character U+00E9, and reach the reader as the two characters U+00C3
    U+00A9. *)
Lemma two_byte_sequence_not_decoded :
  Utf8.TextOf EAcute = Some [233]
  /\ JsonStringOf EAcute = [195; 169].
Proof. split; reflexivity. Qed.

(** The reference [AsObject] never hands back a null pointer. *)
Lemma ref_AsObject_valid (v : JsonTree) : ref_AsObject v <> None.
Proof. by destruct v. Qed.

(** The bone of "B" has no "Name". *)
Lemma BrokenValue_defect : SubjectDefect BrokenValue.
Proof.
  eexists. split; [reflexivity|]. left.
  exists [JObject [(TEXT "Parent", JNumber 0)]], (JObject [(TEXT "Parent", JNumber 0)]).
  split; [done|]. split; [by left|].
  eexists. split; [reflexivity|]. by left.
Qed.

Lemma HeadValue_decodes : DecodeSubject HeadValue = Normal HeadLocals.
Proof. reflexivity. Qed.

(** The subject "Head": one bone, one parameter. *)
Lemma pushed_array_lengths_witness :
  exists SD FD,
    SubjectBody (TEXT "Head", HeadValue) (FreshSource, [])
    = Normal (SourceWithHead,
              [PushSubjectStaticData_AnyThread 7 (TEXT "Head")
                 ULiveLinkAnimationRole SD;
               EncounteredSubjects_Add (TEXT "Head");
               PushSubjectFrameData_AnyThread 7 (TEXT "Head") FD])
    /\ length (BoneNames SD) = 1%nat
    /\ length (BoneParents SD) = 1%nat
    /\ length (Transforms FD) = 1%nat
    /\ length (PropertyNames SD) = 4%nat
    /\ length (PropertyValues FD) = 4%nat
    /\ PropertyNames SD !! 1%nat = Some (Some (TEXT "headRoll"))
    /\ PropertyNames SD !! 2%nat = Some (Some (TEXT "headPitch"))
    /\ PropertyNames SD !! 3%nat = Some (Some (TEXT "headYaw")).
Proof.
  pose proof (SubjectBody_Normal (Api := Reference.Api)
                (TEXT "Head") HeadValue HeadLocals FreshSource []
                HeadValue_decodes) as H.
  destruct (pushed_array_lengths (Api := Reference.Api)
              (TEXT "Head") HeadValue (FieldsOf HeadValue)
              HeadBones HeadParameters FreshSource [] _ _ H
              eq_refl eq_refl eq_refl)
    as (SD & FD & Hlog & Hn & Hp & Ht & Hpn & Hpv & H1 & H2 & H3 & _).
  exists SD, FD. split; [|repeat split; assumption].
  refine (eq_trans H _). rewrite Hlog. reflexivity.
Defined.

(** The only, hence last, bone of "Head". *)
Lemma head_angles_of_last_bone_witness :
  exists BoneObject x y z w,
    AsObject RootBone = Some BoneObject
    /\ TryGetArrayField BoneObject (TEXT "Rotation") = Some [x; y; z; w]
    /\ headRoll HeadLocals
       = HeadRollOf (AsNumber x) (AsNumber y) (AsNumber z) (AsNumber w)
    /\ headPitch HeadLocals
       = HeadPitchOf (AsNumber x) (AsNumber y) (AsNumber z) (AsNumber w)
    /\ headYaw HeadLocals
       = HeadYawOf (AsNumber x) (AsNumber y) (AsNumber z) (AsNumber w)
    /\ PropertyValues (FrameData HeadLocals) !! 1%nat
       = Some (Some (float_cast
            (HeadRollOf (AsNumber x) (AsNumber y) (AsNumber z) (AsNumber w)))).
Proof.
  destruct (head_angles_of_last_bone (Api := Reference.Api)
              HeadValue (FieldsOf HeadValue) [] RootBone
              HeadLocals HeadValue_decodes eq_refl eq_refl)
    as (o & x & y & z & w & HO & HR & Hroll & Hpitch & Hyaw & HP).
  destruct (HP HeadParameters eq_refl) as (Hk & _).
  exists o, x, y, z, w. repeat split; assumption.
Defined.

Lemma BonesOnlyValue_decodes : DecodeSubject BonesOnlyValue = Normal BonesOnlyLocals.
Proof. reflexivity. Qed.

(** The subject "S": one bone, no "Parameter" field. *)
Lemma properties_need_parameter_field_witness :
  length (BoneNames (StaticData BonesOnlyLocals)) = 1%nat
  /\ PropertyNames (StaticData BonesOnlyLocals) = []
  /\ PropertyValues (FrameData BonesOnlyLocals) = [].
Proof.
  pose proof (SubjectBody_Normal (Api := Reference.Api)
                (TEXT "S") BonesOnlyValue BonesOnlyLocals
                FreshSource [] BonesOnlyValue_decodes) as H.
  destruct (properties_need_parameter_field (Api := Reference.Api) (TEXT "S") BonesOnlyValue
              (FieldsOf BonesOnlyValue) FreshSource [] _ _ H eq_refl)
    as (L & HD & _ & Hnone & _).
  destruct (Hnone eq_refl) as [Hn Hv].
  rewrite BonesOnlyValue_decodes in HD. injection HD as <-.
  split; [reflexivity|]. split; assumption.
Defined.

(** "Head", from a source that has not seen it. *)
Lemma pushes_in_order_witness :
  let r := HandleReceivedData HeadDatagram FreshSource in
  let again := HandleReceivedData HeadDatagram (Source_after r) in
  EncounteredSubjects FreshSource = []
  /\ (exists after,
       Effects r
       = AllPushes 7 []
         ++ [PushSubjectStaticData_AnyThread 7 (TEXT "Head") ULiveLinkAnimationRole
               (StaticData HeadLocals);
             EncounteredSubjects_Add (TEXT "Head");
             PushSubjectFrameData_AnyThread 7 (TEXT "Head") (FrameData HeadLocals)]
         ++ after)
  /\ TEXT "Head" ∈ EncounteredSubjects (Source_after r)
  /\ (forall x, x ∈ EncounteredSubjects FreshSource ->
                x ∈ EncounteredSubjects (Source_after r))
  /\ Effects again = Effects r.
Proof.
  split; [reflexivity|].
  exact (pushes_in_order (Api := Reference.Api)
           HeadDatagram HeadFields [] (TEXT "Head") HeadValue [] HeadLocals
           FreshSource eq_refl eq_refl (List.Forall_nil _) HeadValue_decodes).
Defined.

(** "B" of the broken datagram, after "A" and before "C". *)
Lemma defective_subject_pushes_nothing_witness :
  let r := HandleReceivedData BrokenDatagram FreshSource in
  let before := ForEachSubject [(TEXT "A", JObject [])] FreshSource [] in
  Exit r <> Normal tt
  /\ Effects r = Effects before
  /\ Source_after r = Source_after before
  /\ Forall (fun e => SubjectOf e <> TEXT "B") (Effects r)
  /\ (TEXT "B" ∈ EncounteredSubjects (Source_after r)
      <-> TEXT "B" ∈ EncounteredSubjects FreshSource).
Proof.
  apply (defective_subject_pushes_nothing (Api := Reference.Api)
           BrokenDatagram BrokenFields
           [(TEXT "A", JObject [])] (TEXT "B") BrokenValue [(TEXT "C", JObject [])]
           FreshSource).
  - reflexivity.
  - reflexivity.
  - exact BrokenValue_defect.
  - repeat constructor. discriminate.
Defined.

Lemma defective_subject_ends_the_datagram_witness :
  let r := HandleReceivedData BrokenDatagram FreshSource in
  exists Ls,
    Forall2 (fun f L => DecodeSubject f.2 = Normal L) [(TEXT "A", JObject [])] Ls
    /\ Effects r
       = concat (zip_with (fun f L =>
           [PushSubjectStaticData_AnyThread 7 (MakeFName f.1)
              ULiveLinkAnimationRole (StaticData L);
            EncounteredSubjects_Add (MakeFName f.1);
            PushSubjectFrameData_AnyThread 7 (MakeFName f.1) (FrameData L)])
           [(TEXT "A", JObject [])] Ls)
    /\ EncounteredSubjects (Source_after r) = [TEXT "A"]
    /\ Exit r <> Normal tt.
Proof.
  apply (defective_subject_ends_the_datagram (Api := Reference.Api)
           BrokenDatagram BrokenFields
           [(TEXT "A", JObject [])] (TEXT "B") BrokenValue [(TEXT "C", JObject [])]
           FreshSource).
  - reflexivity.
  - reflexivity.
  - repeat constructor.
  - exact BrokenValue_defect.
Defined.


(** The identity rotation with the reference libm. *)
Lemma identity_rotation_has_zero_angles_witness :
  (HeadRollOf 0 0 0 1 =? 0)%float = true
  /\ (HeadPitchOf 0 0 0 1 =? 0)%float = true
  /\ (HeadYawOf 0 0 0 1 =? 0)%float = true.
Proof.
  apply (identity_rotation_has_zero_angles (Api := Reference.Api)).
  - intros y Hy. by destruct (zeros_inv y Hy) as [-> | ->].
  - intros x Hx. by destruct (zeros_inv x Hx) as [-> | ->].
  - by left.
  - by left.
  - by left.
Defined.

(** A datagram with a sequence of two bytes: each is a character of
    its own, and the string is longer than the text. *)
Lemma payload_reaches_the_reader_byte_by_byte_witness :
  JsonStringOf AccentDatagram = TCHAR_of_uint8 <$> AccentDatagram
  /\ JsonStringOf AccentDatagram !! 2%nat = Some 195
  /\ JsonStringOf AccentDatagram !! 3%nat = Some 169
  /\ Utf8.TextOf AccentDatagram = Some AccentText
  /\ (length AccentText < length (JsonStringOf AccentDatagram))%nat
  /\ AccentText <> JsonStringOf AccentDatagram.
Proof.
  destruct (payload_reaches_the_reader_byte_by_byte AccentDatagram)
    as (E & Hi & _ & Ht).
  { apply (bool_decide_unpack _). by vm_compute. }
  split; [exact E|].
  split; [exact (Hi 2%nat xc3 eq_refl)|].
  split; [exact (Hi 3%nat xa9 eq_refl)|].
  split; [reflexivity|].
  apply Ht; [reflexivity|].
  do 2 apply Exists_cons_tl. apply Exists_cons_hd. by vm_compute.
Defined.

Lemma pushed_arrays_are_written_witness :
  Forall is_Some (BoneNames (StaticData HeadLocals))
  /\ Forall is_Some (BoneParents (StaticData HeadLocals))
  /\ Forall is_Some (Transforms (FrameData HeadLocals))
  /\ Forall is_Some (PropertyNames (StaticData HeadLocals))
  /\ Forall is_Some (PropertyValues (FrameData HeadLocals)).
Proof.
  exact (pushed_arrays_are_written (Api := Reference.Api) HeadValue HeadLocals
           HeadValue_decodes).
Defined.

Lemma subject_without_fields_is_empty_witness :
  DecodeSubject (JObject []) = Normal InitialLocals.
Proof.
  exact (subject_without_fields_is_empty (Api := Reference.Api) (JObject []) []
           eq_refl eq_refl eq_refl).
Defined.

Lemma null_object_is_dereferenced_witness :
  ForEachSubject (Api := NullApi) [(TEXT "B", JNumber 7)] NullFreshSource []
  = {| Source_after := NullFreshSource; Effects := []; Exit := Fault |}.
Proof.
  exact (null_object_is_dereferenced (Api := NullApi) (TEXT "B") (JNumber 7) []
           NullFreshSource [] eq_refl).
Defined.
(** The bone of "Head". *)
Lemma bones_are_pushed_by_index_witness :
  exists BoneObject BoneName BoneParentIdx lx ly lz qx qy qz qw sx sy sz,
    AsObject RootBone = Some BoneObject
    /\ TryGetStringField BoneObject (TEXT "Name") = Some BoneName
    /\ TryGetNumberField_int32 BoneObject (TEXT "Parent") = Some BoneParentIdx
    /\ TryGetArrayField BoneObject (TEXT "Location") = Some [lx; ly; lz]
    /\ TryGetArrayField BoneObject (TEXT "Rotation") = Some [qx; qy; qz; qw]
    /\ TryGetArrayField BoneObject (TEXT "Scale") = Some [sx; sy; sz]
    /\ BoneNames (StaticData HeadLocals) !! 0%nat = Some (Some (MakeFName BoneName))
    /\ BoneParents (StaticData HeadLocals) !! 0%nat = Some (Some BoneParentIdx)
    /\ Transforms (FrameData HeadLocals) !! 0%nat
       = Some (Some (MakeFTransform
                       (MakeFQuat (AsNumber qx) (AsNumber qy) (AsNumber qz)
                                  (AsNumber qw))
                       (MakeFVector (AsNumber lx) (AsNumber ly) (AsNumber lz))
                       (MakeFVector (AsNumber sx) (AsNumber sy) (AsNumber sz)))).
Proof.
  exact (bones_are_pushed_by_index (Api := Reference.Api)
           HeadValue (FieldsOf HeadValue) HeadBones HeadLocals 0 RootBone
           HeadValue_decodes eq_refl eq_refl eq_refl).
Defined.

(** The parameter of "Head". *)
Lemma parameters_are_pushed_by_index_witness :
  exists paramObject parameterName value,
    AsObject (JObject [(TEXT "Name", JString (TEXT "blink"));
                       (TEXT "Value", JNumber 0.5)]) = Some paramObject
    /\ TryGetStringField paramObject (TEXT "Name") = Some parameterName
    /\ TryGetNumberField_double paramObject (TEXT "Value") = Some value
    /\ PropertyNames (StaticData HeadLocals) !! 0%nat
       = Some (Some (MakeFName parameterName))
    /\ PropertyValues (FrameData HeadLocals) !! 0%nat
       = Some (Some (float_cast value)).
Proof.
  exact (parameters_are_pushed_by_index (Api := Reference.Api)
           HeadValue (FieldsOf HeadValue) HeadParameters HeadLocals 0 _
           HeadValue_decodes eq_refl eq_refl eq_refl).
Defined.

Lemma ParametersOnlyValue_decodes :
  DecodeSubject ParametersOnlyValue = Normal ParametersOnlyLocals.
Proof. reflexivity. Qed.

(** The subject "P": one parameter, no "Bone" field. *)
Lemma head_angles_are_zero_without_bones_witness :
  headRoll ParametersOnlyLocals = 0%float
  /\ headPitch ParametersOnlyLocals = 0%float
  /\ headYaw ParametersOnlyLocals = 0%float
  /\ drop 1 (PropertyValues (FrameData ParametersOnlyLocals))
     = [Some (float_cast 0); Some (float_cast 0); Some (float_cast 0)].
Proof.
  destruct (head_angles_are_zero_without_bones (Api := Reference.Api)
              ParametersOnlyValue (FieldsOf ParametersOnlyValue)
              ParametersOnlyLocals ParametersOnlyValue_decodes eq_refl
              (or_introl eq_refl)) as (Hr & Hp & Hy & HP).
  do 3 (split; [assumption|]).
  exact (HP ParametersOnlyParameters eq_refl).
Defined.

(** "B" of the broken datagram. *)
Lemma subject_is_stopped_by_defects_only_witness :
  SubjectDefect BrokenValue <-> is_Normal (DecodeSubject BrokenValue) = false.
Proof.
  exact (subject_is_stopped_by_defects_only (Api := Reference.Api)
           ref_AsObject_valid BrokenValue).
Defined.

(** The broken datagram: "A" is pushed, "B" ends the call. *)
Lemma datagram_is_pushed_up_to_the_first_failure_witness :
  exists pre post,
    Values BrokenFields = pre ++ post
    /\ Forall (fun f => is_Normal (DecodeSubject f.2) = true) pre
    /\ match post with
       | [] => True
       | f :: _ => is_Normal (DecodeSubject f.2) = false
       end
    /\ HandleReceivedData BrokenDatagram FreshSource
       = {| Source_after :=
              {| SourceGuid := 7;
                 EncounteredSubjects := AllAdded [] pre |};
            Effects := AllPushes 7 pre;
            Exit := match post with
                    | [] => Normal tt
                    | f :: _ => (fun _ => tt) <$> DecodeSubject f.2
                    end |}.
Proof.
  exact (datagram_is_pushed_up_to_the_first_failure (Api := Reference.Api)
           BrokenDatagram BrokenFields FreshSource eq_refl).
Defined.

(** The scenario, the broken datagram and the scenario again. *)
Lemma datagrams_are_decoded_independently_witness :
  Effects (GameThread [HeadDatagram; BrokenDatagram; HeadDatagram] FreshSource)
  = concat ((fun ReceivedData => Effects (HandleReceivedData ReceivedData FreshSource))
              <$> [HeadDatagram; BrokenDatagram; HeadDatagram])
  /\ Exit (GameThread [HeadDatagram; BrokenDatagram; HeadDatagram] FreshSource)
     = Normal tt.
Proof.
  exact (datagrams_are_decoded_independently (Api := Reference.Api)
           ref_AsObject_valid [HeadDatagram; BrokenDatagram; HeadDatagram]
           FreshSource).
Defined.

(** ** The receiver thread on concrete answers of the socket *)

Import ReferenceNet.

Lemma TwoDatagrams_contract (BufferSize : Z) :
  8 <= BufferSize ->
  Forall (RecvFrom_contract BufferSize) (AnswersOf TwoDatagrams).
Proof.
  intros H. repeat constructor; simpl; lia.
Qed.

(** Two datagrams, of two and of eight bytes, into a buffer of eight
    slots. *)
Lemma run_hands_on_every_datagram_witness :
  exists RecvBuffer',
    Run (Net := ReferenceNet.Net) TwoDatagrams SmallSource []
    = Normal (0, Stop (with_RecvBuffer RecvBuffer' SmallSource),
              [Filled (Datagram "{}"); Filled (Datagram "{'A':{}}")])
    /\ length RecvBuffer' = 8%nat.
Proof.
  exact (run_hands_on_every_datagram (Net := ReferenceNet.Net)
           TwoDatagrams SmallSource [] eq_refl eq_refl
           (fun H => eq_ind (Some (TEXT "JSONSOCKET", []))
                       (fun p => match p with Some _ => True | None => False end)
                       I None H)
           (TwoDatagrams_contract 8 (Z.le_refl 8))).
Defined.

Lemma SmallSource_runs :
  Run (Net := ReferenceNet.Net) TwoDatagrams SmallSource []
  = Normal (0, SmallSourceAfter, SmallQueue).
Proof. reflexivity. Qed.

Lemma run_hands_on_no_empty_datagram_witness :
  length (RecvBuffer SmallSourceAfter) = length (RecvBuffer SmallSource)
  /\ exists new,
       SmallQueue = [] ++ new
       /\ Forall (fun d => 0 < length d <= length (RecvBuffer SmallSource))%nat new
       /\ (length new <= length (AnswersOf TwoDatagrams))%nat.
Proof.
  exact (proj2 (run_hands_on_no_empty_datagram (Net := ReferenceNet.Net)
                  TwoDatagrams SmallSource SmallSourceAfter [] SmallQueue 0
                  SmallSource_runs)).
Defined.

Lemma MulticastSource_has_thread :
  Thread (Construct (Net := ReferenceNet.Net) MulticastEndpoint 1) <> None.
Proof. discriminate. Qed.

(** The source of a multicast endpoint, with sockets and threads made. *)
Lemma started_thread_runs_without_fault_witness :
  exists this',
    Run (Net := ReferenceNet.Net) TwoDatagrams
        (Construct (Net := ReferenceNet.Net) MulticastEndpoint 1) []
    = Normal (0, this', Filled <$> Payloads TwoDatagrams)
    /\ IsSourceStillValid this' = false.
Proof.
  apply (started_thread_runs_without_fault (Net := ReferenceNet.Net)
           MulticastEndpoint 1 TwoDatagrams MulticastSource_has_thread).
  apply TwoDatagrams_contract. unfold RECV_BUFFER_SIZE. lia.
Defined.

(** With sockets made and no thread, the status reads "Receiving" and
    the source is not valid. *)
Example receiving_without_thread :
  SourceStatus (Construct (Net := NoThreadNet) UnicastEndpoint 1) = "Receiving"%string
  /\ IsSourceStillValid (Construct (Net := NoThreadNet) UnicastEndpoint 1) = false.
Proof. split; reflexivity. Qed.

(** The socket of a multicast endpoint is bound to any address and joins
    the group; the name of the thread ends in the index. *)
Example multicast_socket :
  Socket (Construct (Net := ReferenceNet.Net) MulticastEndpoint 1)
  = Some (TEXT "JSONSOCKET",
          [AsNonBlocking; AsReusable; BoundToPort 54321;
           WithReceiveBufferSize 1048576; BoundToAddress (0, 0, 0, 0);
           JoinedToGroup (239, 255, 0, 1); WithMulticastLoopback;
           WithMulticastTtl 2])
  /\ Thread (Construct (Net := ReferenceNet.Net) MulticastEndpoint 1)
     = Some (TEXT "JSON UDP Receiver 1").
Proof. split; reflexivity. Qed.
